(** * amazon-music: a shallow embedding of the client and its checked properties

    The development follows the Python package [amazon_music]:
    - [amazon_music/internal/track.py], [album.py], [playlist.py],
      [station.py]: the entity normalizers and their lazy operations;
    - [amazon_music/__init__.py]: the session constructor, the sign-in
      loop, [call] and the library listing.

    Python values decoded from JSON are the type [json]; a Python [dict]
    is a [gmap string json].  Exceptions are the type [pyerr] and a
    computation that may raise returns [result A = pyerr + A].  Code that
    talks to the network threads a [world]: the scripted transport, the
    log of requests sent, the in-memory cookie jar and the cookie file. *)

From stdpp Require Import gmap strings list fin_maps numbers.
From Stdlib Require Import ZArith Ascii.
From Stdlib Require SpecFloat.

Set Warnings "-register-all".
Local Open Scope string_scope.
Local Open Scope Z_scope.
Local Open Scope list_scope.

(** ** Python values *)

Inductive json : Type :=
| JNull
| JBool (b : bool)
| JNum (z : Z)
| JStr (s : string)
| JArr (l : list json)
| JObj (m : gmap string json).

(** The argument [e.args[0]] of a [KeyError]: the missing key, or the
    message ['{} not found in {}'.format(a, json.dumps(d, sort_keys=True))]
    that the handlers of [Track.__init__] and [Track.url] put in its place,
    kept as the pair it is formatted from. *)
Inductive kearg : Type :=
| Key (k : json)
| NotFoundIn (a : kearg) (payload : json).

(** Exceptions. *)
Inductive pyerr : Type :=
| KeyError (a : kearg)
| TypeError
| AttributeError
| IndexError
| ValueError
| OverflowError
| TransportError
| PyException (arg : json).

(** The class of an exception object; [raise Exception(x)] creates an
    instance of the root class itself. *)
Inductive pyclass : Type :=
| ClsException | ClsKeyError | ClsTypeError | ClsAttributeError
| ClsIndexError | ClsValueError | ClsOverflowError | ClsRequestException.

Definition class_of (e : pyerr) : pyclass :=
  match e with
  | KeyError _ => ClsKeyError
  | TypeError => ClsTypeError
  | AttributeError => ClsAttributeError
  | IndexError => ClsIndexError
  | ValueError => ClsValueError
  | OverflowError => ClsOverflowError
  | TransportError => ClsRequestException
  | PyException _ => ClsException
  end.

Definition result (A : Type) : Type := (pyerr + A)%type.

Abbreviation ok a := (@inr pyerr _ a) (only parsing).
Abbreviation raise e := (@inl pyerr _ e) (only parsing).

Definition rbind {A B} (m : result A) (k : A → result B) : result B :=
  match m with
  | inl e => inl e
  | inr a => k a
  end.

Notation "'let*' x ':=' m 'in' k" := (rbind m (λ x, k))
  (at level 10, x name, m at level 100, k at level 200, only parsing).

(** Truth value of a Python object ([bool(x)]). *)
Definition truthy (v : json) : bool :=
  match v with
  | JNull => false
  | JBool b => b
  | JNum z => negb (z =? 0)
  | JStr s => negb (String.eqb s "")
  | JArr l => match l with [] => false | _ => true end
  | JObj m => negb (Nat.eqb (size m) 0)
  end.

(** [a or b]: [b] is only evaluated (and can only raise) when [a] is falsy. *)
Definition py_or (a : json) (b : result json) : result json :=
  if truthy a then ok a else b.

Fixpoint str_contains (needle hay : string) : bool :=
  match hay with
  | EmptyString => String.prefix needle EmptyString
  | String _ rest => String.prefix needle hay || str_contains needle rest
  end.

Definition is_str (k : string) (v : json) : bool :=
  match v with
  | JStr s => String.eqb s k
  | _ => false
  end.

(** [k in d] for a string [k]. *)
Definition py_in (k : string) (d : json) : result bool :=
  match d with
  | JObj m => ok (match m !! k with Some _ => true | None => false end)
  | JArr l => ok (existsb (is_str k) l)
  | JStr s => ok (str_contains k s)
  | _ => raise TypeError
  end.

(** [d[k]] for a string [k]. *)
Definition py_item (d : json) (k : string) : result json :=
  match d with
  | JObj m => match m !! k with
              | Some v => ok v
              | None => raise (KeyError (Key (JStr k)))
              end
  | _ => raise TypeError
  end.

(** [d.get(k, dflt)]; [d.get(k)] is [py_get d k JNull]. *)
Definition py_get (d : json) (k : string) (dflt : json) : result json :=
  match d with
  | JObj m => ok (default dflt (m !! k))
  | _ => raise AttributeError
  end.

(** [d[0]]. *)
Definition py_first (d : json) : result json :=
  match d with
  | JArr l => match l with
              | v :: _ => ok v
              | [] => raise IndexError
              end
  | JStr s => match s with
              | String c _ => ok (JStr (String c EmptyString))
              | EmptyString => raise IndexError
              end
  | JObj _ => raise (KeyError (Key (JNum 0)))
  | _ => raise TypeError
  end.

(** [x >= n] for an integer literal [n]; [bool] is a subclass of [int]. *)
Definition py_ge (x : json) (n : Z) : result bool :=
  match x with
  | JNum z => ok (n <=? z)
  | JBool b => ok (n <=? Z.b2z b)
  | _ => raise TypeError
  end.

(** [x == 'lit'] for a string literal. *)
Definition py_eq_str (x : json) (lit : string) : bool := is_str lit x.

(** [x == 0]. *)
Definition py_eq_zero (x : json) : bool :=
  match x with
  | JNum z => z =? 0
  | JBool b => negb b
  | _ => false
  end.

(** A Python [float]: an IEEE 754 double. *)
Definition float : Type := SpecFloat.spec_float.

(** [z / 1000] on an [int]: the quotient rounded to the nearest double,
    ties to even; [OverflowError] when that is beyond the doubles. *)
Definition int_div1000 (z : Z) : result float :=
  if z =? 0 then ok (SpecFloat.S754_zero false)
  else
    match SpecFloat.SFdiv 53 1024
            (SpecFloat.S754_finite (z <? 0) (Z.to_pos (Z.abs z)) 0)
            (SpecFloat.S754_finite false 1000 0) with
    | SpecFloat.S754_infinity _ => raise OverflowError
    | q => ok q
    end.

(** [x / 1000]: true division. *)
Definition py_div1000 (x : json) : result float :=
  match x with
  | JNum z => int_div1000 z
  | JBool b => int_div1000 (Z.b2z b)
  | _ => raise TypeError
  end.

(** A dict literal. *)
Definition dict (kvs : list (string * json)) : json :=
  JObj (list_to_map kvs).

(** The [except KeyError as e: e.args = ('{} not found in {}'.format(
    e.args[0], json.dumps(data, sort_keys=True)),); raise] handler. *)
Definition not_found_in {A} (data : json) (m : result A) : result A :=
  match m with
  | inl (KeyError a) => inl (KeyError (NotFoundIn a data))
  | other => other
  end.

(** ** State and exceptions together

    [SE S A]: a computation over a mutable state [S] that returns an [A]
    or raises; the state changes made before the exception are kept. *)

Definition SE (S A : Type) : Type := S → result A * S.

Definition se_ret {S A} (a : A) : SE S A := λ s, (ok a, s).

Definition se_bind {S A B} (m : SE S A) (k : A → SE S B) : SE S B :=
  λ s, match m s with
       | (inl e, s') => (inl e, s')
       | (inr a, s') => k a s'
       end.

Definition se_lift {S A} (r : result A) : SE S A := λ s, (r, s).

Definition se_modify {S} (f : S → S) : SE S unit := λ s, (ok tt, f s).

Notation "'let!' x ':=' m 'in' k" := (se_bind m (λ x, k))
  (at level 10, x name, m at level 100, k at level 200, only parsing).

(** ** The transport, the cookie jar and the cookie file *)

(** One element of [r.history]. *)
Record redirect : Type := {
  status_code : Z;
  location : option string   (* h.headers['Location'] *)
}.

(** An [<input>] tag and the [<form>] that BeautifulSoup finds in a page. *)
Record input_tag : Type := {
  input_type : option string;
  input_name : option string;
  input_value : option string
}.

Record form_tag : Type := {
  action : option string;
  inputs : list input_tag
}.

(** A [requests.Response], as far as the client reads it. *)
Record response : Type := {
  history : list redirect;
  iter_lines : list string;
  form : option form_tag;      (* BeautifulSoup(r.content, "html.parser").form *)
  body : option json           (* r.json(); None when the body does not decode *)
}.

(** An [http.cookiejar.Cookie], as far as the client and the jar's [save]
    and [load] read it. *)
Record cookie : Type := {
  cookie_value : string;
  discard : bool;              (* a session cookie *)
  expires : option Z           (* seconds since the epoch; None is None *)
}.

(** [c.value = v]. *)
Definition set_value (v : string) (c : cookie) : cookie :=
  {| cookie_value := v; discard := discard c; expires := expires c |}.

(** [c.is_expired(now)]. *)
Definition is_expired (now : Z) (c : cookie) : bool :=
  match expires c with
  | Some e => e <=? now
  | None => false
  end.

(** What the transport does with one request: it answers, or it raises
    (connection error, timeout).  Either way the hops already followed may
    have set cookies in the jar. *)
Inductive outcome : Type :=
| Responds (set_cookies : list (string * cookie)) (r : response)
| Fails (set_cookies : list (string * cookie)).

Inductive reqdata : Type :=
| NoData
| FormFields (q : gmap (option string) (option string))  (* the sign-in form *)
| FormQuery (q : json)                                   (* data=query *)
| JsonDumps (q : json).                                  (* data=json.dumps(query) *)

Record request : Type := {
  verb : string;
  target_url : option string;
  headers : gmap string json;
  data : reqdata
}.

(** What the client acts on.  The jar is keyed by cookie name.  The clock
    is what [time.time()] returns when [save()] and [load()] test a
    cookie's expiry; it stands still over a run of the client. *)
Record world : Type := {
  transport : list outcome;             (* the answers still to come *)
  sent : list request;                  (* the requests issued so far *)
  jar : gmap string cookie;             (* self.session.cookies *)
  disk : option (gmap string cookie);   (* the cookie file, None when absent *)
  saves : nat;                          (* how often the jar was written *)
  clock : Z                             (* time.time(), in whole seconds *)
}.

Definition set_all (cs : list (string * cookie)) (j : gmap string cookie)
  : gmap string cookie :=
  foldl (λ acc kv, <[kv.1 := kv.2]> acc) j cs.

(** [self.session.get] / [self.session.post].  A missing URL is refused
    before anything is sent; an exhausted script is a dead connection. *)
Definition session_send (req : request) : SE world response :=
  λ w,
    match target_url req with
    | None => (raise TransportError, w)
    | Some _ =>
        match transport w with
        | [] =>
            (raise TransportError,
             {| transport := []; sent := sent w ++ [req]; jar := jar w;
                disk := disk w; saves := saves w; clock := clock w |})
        | Responds cs r :: rest =>
            (ok r,
             {| transport := rest; sent := sent w ++ [req];
                jar := set_all cs (jar w); disk := disk w;
                saves := saves w; clock := clock w |})
        | Fails cs :: rest =>
            (raise TransportError,
             {| transport := rest; sent := sent w ++ [req];
                jar := set_all cs (jar w); disk := disk w;
                saves := saves w; clock := clock w |})
        end
    end.

(** The cookies that [LWPCookieJar.save()] writes with its default
    arguments ([ignore_discard=False], [ignore_expires=False]): those that
    are neither session cookies nor expired. *)
Definition written (now : Z) (j : gmap string cookie) : gmap string cookie :=
  omap (λ c, if discard c || is_expired now c then None else Some c) j.

(** The cookies that [LWPCookieJar.load()] takes from the file with its
    default arguments.  The file records an expiry only where the cookie's
    [expires] is truthy; an entry without one is read as a session cookie,
    and session cookies and expired ones are skipped. *)
Definition read_back (now : Z) (f : gmap string cookie)
  : gmap string cookie :=
  omap (λ c,
          match expires c with
          | Some e =>
              if discard c || (e =? 0) || is_expired now c then None
              else Some c
          | None => None
          end) f.

(** [self.session.cookies.save()]. *)
Definition cookies_save : SE world unit :=
  se_modify (λ w, {| transport := transport w; sent := sent w; jar := jar w;
                     disk := Some (written (clock w) (jar w));
                     saves := S (saves w); clock := clock w |}).

(** [self.session.cookies.load()], guarded by [os.path.isfile]. *)
Definition cookies_load (w : world) : gmap string cookie :=
  match disk w with
  | Some f => read_back (clock w) f
  | None => ∅
  end.

(** [r.json()]. *)
Definition response_json (r : response) : result json :=
  match body r with
  | Some j => ok j
  | None => raise ValueError
  end.

(** ** [amazon_music/__init__.py]: the session object and [call] *)

Definition AMAZON_MUSIC_SUBSCRIPTION : string := "MUSIC_SUBSCRIPTION".
Definition AMAZON_PRIME_SUBSCRIPTION : string := "PRIME".
Definition AMAZON_MUSIC_URL : string := "https://music.amazon.com".
Definition AMAZON_SIGN_IN_PATH : string := "/ap/signin".
Definition AMAZON_FORCE_SIGN_IN_PATH : string :=
  "/gp/dmusic/cloudplayer/forceSignIn".
Definition COOKIE_AMAZON_TARGET : string := "_AmazonMusic-targetUrl".
Definition USER_AGENT : string :=
  "Mozilla/5.0 (X11; Ubuntu; Linux x86_64; rv:57.0) Gecko/20100101 Firefox/57.0".

Definition REGION_MAP : gmap string string :=
  list_to_map [("USAmazon", "NA"); ("EUAmazon", "EU"); ("FEAmazon", "FE")].

Module AmazonMusic.

(** The attributes of an [AmazonMusic] object; [self.session] is the
    [world]. *)
Record t : Type := {
  _amazon_subscription : string;
  _email : option string;
  _password : option string;
  device_id : json;
  csrf_token : json;
  csrf_ts : json;
  csrf_rnd : json;
  customer_id : json;
  device_type : json;
  territory : json;
  locale : json;
  region : string;
  url : string
}.

End AmazonMusic.

(** The request that [AmazonMusic.call] posts: the CSRF triple and the
    client marker always, the target and the JSON encoding unless the call
    is a legacy one. *)
Definition call_request (self : AmazonMusic.t) (endpoint : string)
    (target : option string) (query : json) : request :=
  let query_headers : gmap string json :=
    list_to_map [("User-Agent", JStr USER_AGENT);
                 ("csrf-token", AmazonMusic.csrf_token self);
                 ("csrf-rnd", AmazonMusic.csrf_rnd self);
                 ("csrf-ts", AmazonMusic.csrf_ts self);
                 ("X-Requested-With", JStr "XMLHttpRequest")] in
  let '(query_headers, query_data) :=
    match target with
    | None => (query_headers, FormQuery query)
    | Some tg =>
        (<["Content-Encoding" := JStr "amz-1.0"]>
           (<["Content-Type" := JStr "application/json"]>
              (<["X-Amz-Target" := JStr tg]> query_headers)),
         JsonDumps query)
    end in
  {| verb := "POST";
     target_url := Some (AmazonMusic.url self +:+ "/"
                         +:+ AmazonMusic.region self +:+ "/api/"
                         +:+ endpoint);
     headers := query_headers;
     data := query_data |}.

(** [AmazonMusic.call(self, endpoint, target, query)]. *)
Definition AmazonMusic_call (self : AmazonMusic.t) (endpoint : string)
    (target : option string) (query : json) : SE world json :=
  let! r := session_send (call_request self endpoint target query) in
  let! _ := cookies_save in
  se_lift (response_json r).

(** Methods of an entity act on the entity and on the world. *)
Definition on_world {O A} (m : SE world A) : SE (O * world) A :=
  λ s, let '(r, w') := m s.2 in (r, (s.1, w')).

Definition on_self {O A} (m : SE O A) : SE (O * world) A :=
  λ s, let '(r, o') := m s.1 in (r, (o', s.2)).

Definition get_self {O} : SE (O * world) O := λ s, (ok s.1, s).

Fixpoint str_chars (s : string) : list json :=
  match s with
  | EmptyString => []
  | String c rest => JStr (String c EmptyString) :: str_chars rest
  end.

(** [for x in v]: the elements of a list, the keys of a dict, the
    characters of a string. *)
Definition py_iter (v : json) : result (list json) :=
  match v with
  | JArr l => ok l
  | JObj m => ok ((λ kv, JStr kv.1) <$> map_to_list m)
  | JStr s => ok (str_chars s)
  | _ => raise TypeError
  end.

(** [[f(x) for x in l]]: left to right, the first exception ends it. *)
Fixpoint py_map {A} (f : json → result A) (l : list json) : result (list A) :=
  match l with
  | [] => ok []
  | x :: rest =>
      let* y := f x in
      let* ys := py_map f rest in
      ok (y :: ys)
  end.

(** ** [internal/track.py]: class [Track] *)

Module Track.

(** The attributes of a [Track] object.  [_amzn], the reference to the
    session, is passed to the methods that use it. *)
Record t : Type := {
  _url : json;
  json_ : json;
  name : json;
  artist : json;
  album : json;
  album_artist : json;
  cover_url : json;
  identifier_type : json;
  identifier : json;
  duration : json
}.

Definition set__url (v : json) (s : t) : t :=
  {| _url := v; json_ := json_ s; name := name s; artist := artist s;
     album := album s; album_artist := album_artist s;
     cover_url := cover_url s; identifier_type := identifier_type s;
     identifier := identifier s; duration := duration s |}.

End Track.

(** The body of the [try] block of [Track.__init__]. *)
Definition Track_fields (data : json) : result Track.t :=
  let* n0 := py_get data "name" JNull in
  let* name := py_or n0 (py_item data "title") in
  let* a0 := py_get data "artistName" JNull in
  let* artist := py_or a0 (let* ar := py_item data "artist" in
                           py_item ar "name") in
  let* al := py_item data "album" in
  let* an := py_get al "name" JNull in
  let* album := py_or an (let* al' := py_item data "album" in
                          py_get al' "title" JNull) in
  let* al2 := py_item data "album" in
  let* aa := py_get al2 "artistName" JNull in
  let* album_artist :=
    py_or aa (let* al3 := py_item data "album" in
              py_get al3 "albumArtistName" artist) in
  let* has_map := py_in "artUrlMap" data in
  let* cover_url :=
    if has_map then
      let* m1 := py_item data "artUrlMap" in
      let* m2 := py_item data "artUrlMap" in
      let* large := py_get m2 "LARGE" JNull in
      py_get m1 "FULL" large
    else
      let* al4 := py_item data "album" in
      let* has_image := py_in "image" al4 in
      if has_image then
        let* al5 := py_item data "album" in
        py_item al5 "image"
      else ok JNull in
  let* has_type := py_in "identifierType" data in
  let* ident :=
    if has_type then
      let* ty := py_item data "identifierType" in
      let* i := py_item data "identifier" in
      ok (ty, i)
    else
      let* i := py_item data "asin" in
      ok (JStr "ASIN", i) in
  let* d0 := py_get data "duration" JNull in
  let* duration := py_get data "durationInSeconds" d0 in
  ok {| Track._url := JNull; Track.json_ := data; Track.name := name;
        Track.artist := artist; Track.album := album;
        Track.album_artist := album_artist; Track.cover_url := cover_url;
        Track.identifier_type := ident.1; Track.identifier := ident.2;
        Track.duration := duration |}.

(** [Track(amzn, data)]. *)
Definition Track_init (data : json) : result Track.t :=
  not_found_in data (Track_fields data).

Definition getRestrictedStreamingURL : string :=
  "com.amazon.digitalmusiclocator.DigitalMusicLocatorServiceExternal.getRestrictedStreamingURL".

Definition Track_url_query (amzn : AmazonMusic.t) (self : Track.t) : json :=
  dict [("customerId", AmazonMusic.customer_id amzn);
        ("deviceToken",
         dict [("deviceTypeId", AmazonMusic.device_type amzn);
               ("deviceId", AmazonMusic.device_id amzn)]);
        ("appMetadata", dict [("https", JStr "true")]);
        ("clientMetadata", dict [("clientId", JStr "WebCP")]);
        ("contentId",
         dict [("identifier", Track.identifier self);
               ("identifierType", Track.identifier_type self);
               ("bitRate", JStr "HIGH");
               ("contentDuration", Track.duration self)])].

(** The status test of [Track.url]:
    ['statusCode' in stream_json and stream_json['statusCode'] ==
    'MAX_CONCURRENCY_REACHED']. *)
Definition max_concurrency_reached (stream_json : json) : result bool :=
  let* has := py_in "statusCode" stream_json in
  if has then
    let* sc := py_item stream_json "statusCode" in
    ok (py_eq_str sc "MAX_CONCURRENCY_REACHED")
  else ok false.

(** [Track.url(self)]. *)
Definition Track_url (amzn : AmazonMusic.t) : SE (Track.t * world) json :=
  let! self := get_self in
  let! _ :=
    match Track._url self with
    | JNull =>
        let! stream_json :=
          on_world (AmazonMusic_call amzn "dmls/"
                      (Some getRestrictedStreamingURL)
                      (Track_url_query amzn self)) in
        let! capped := se_lift (max_concurrency_reached stream_json) in
        if capped : bool then
          let! sc := se_lift (py_item stream_json "statusCode") in
          se_lift (raise (PyException sc))
        else
          let! u := se_lift (not_found_in stream_json
                       (let* cr := py_item stream_json "contentResponse" in
                        let* ul := py_item cr "urlList" in
                        py_first ul)) in
          on_self (se_modify (Track.set__url u))
    | _ => se_ret tt
    end in
  let! self := get_self in
  se_ret (Track._url self).

(** [list([Track(self._amzn, t) for t in self.json['tracks']])], the
    last line of [Album.tracks] and of [Playlist.tracks]. *)
Definition track_list (self_json : json) : result (list Track.t) :=
  let* ts := py_item self_json "tracks" in
  let* l := py_iter ts in
  py_map Track_init l.

(** ** [internal/album.py]: class [Album] *)

Module Album.

Record t : Type := {
  json_ : json;
  track_count : json;
  id : json;
  cover_url : json;
  name : json;
  artist : json;
  genre : json;
  rating : json;
  release_date : option float (* None is Python's None *)
}.

(** An object before [__init__] has assigned anything. *)
Definition blank : t :=
  {| json_ := JNull; track_count := JNull; id := JNull; cover_url := JNull;
     name := JNull; artist := JNull; genre := JNull; rating := JNull;
     release_date := None |}.

Definition set_json (v : json) (s : t) : t :=
  {| json_ := v; track_count := track_count s; id := id s;
     cover_url := cover_url s; name := name s; artist := artist s;
     genre := genre s; rating := rating s; release_date := release_date s |}.
Definition set_track_count (v : json) (s : t) : t :=
  {| json_ := json_ s; track_count := v; id := id s;
     cover_url := cover_url s; name := name s; artist := artist s;
     genre := genre s; rating := rating s; release_date := release_date s |}.
Definition set_id (v : json) (s : t) : t :=
  {| json_ := json_ s; track_count := track_count s; id := v;
     cover_url := cover_url s; name := name s; artist := artist s;
     genre := genre s; rating := rating s; release_date := release_date s |}.
Definition set_cover_url (v : json) (s : t) : t :=
  {| json_ := json_ s; track_count := track_count s; id := id s;
     cover_url := v; name := name s; artist := artist s;
     genre := genre s; rating := rating s; release_date := release_date s |}.
Definition set_name (v : json) (s : t) : t :=
  {| json_ := json_ s; track_count := track_count s; id := id s;
     cover_url := cover_url s; name := v; artist := artist s;
     genre := genre s; rating := rating s; release_date := release_date s |}.
Definition set_artist (v : json) (s : t) : t :=
  {| json_ := json_ s; track_count := track_count s; id := id s;
     cover_url := cover_url s; name := name s; artist := v;
     genre := genre s; rating := rating s; release_date := release_date s |}.
Definition set_genre (v : json) (s : t) : t :=
  {| json_ := json_ s; track_count := track_count s; id := id s;
     cover_url := cover_url s; name := name s; artist := artist s;
     genre := v; rating := rating s; release_date := release_date s |}.
Definition set_rating (v : json) (s : t) : t :=
  {| json_ := json_ s; track_count := track_count s; id := id s;
     cover_url := cover_url s; name := name s; artist := artist s;
     genre := genre s; rating := v; release_date := release_date s |}.
Definition set_release_date (v : option float) (s : t) : t :=
  {| json_ := json_ s; track_count := track_count s; id := id s;
     cover_url := cover_url s; name := name s; artist := artist s;
     genre := genre s; rating := rating s; release_date := v |}.

End Album.

(** [self.attr = e]: evaluate [e], then assign. *)
Definition assign {O A} (set : A → O → O) (e : result A) : SE O unit :=
  let! v := se_lift e in
  se_modify (set v).

(** [Album.__init__(self, amzn, data)], as the sequence of assignments it
    is: run on a live object (as [Album.tracks] does) an exception leaves
    the assignments made before it. *)
Definition Album___init__ (data : json) : SE Album.t unit :=
  let! _ := assign Album.set_json (ok data) in
  let! summary := se_lift (py_in "metadata" data) in
  if summary : bool then
    let! _ := assign Album.set_track_count (py_item data "numTracks") in
    let! data := se_lift (py_item data "metadata") in
    let! _ := assign Album.set_json (ok data) in
    let! _ := assign Album.set_id (py_item data "albumAsin") in
    let! _ := assign Album.set_cover_url
                (let* medium := py_get data "albumCoverImageMedium" JNull in
                 py_get data "albumCoverImageFull" medium) in
    let! _ := assign Album.set_name (py_item data "albumName") in
    let! _ := assign Album.set_artist (py_item data "albumArtistName") in
    let! _ := assign Album.set_genre (py_item data "primaryGenre") in
    let! _ := assign Album.set_rating (ok JNull) in
    assign Album.set_release_date (ok None)
  else
    let! _ := assign Album.set_id (py_item data "asin") in
    let! _ := assign Album.set_cover_url (py_item data "image") in
    let! _ := assign Album.set_name (py_item data "title") in
    let! _ := assign Album.set_artist
                (let* ar := py_item data "artist" in py_item ar "name") in
    let! _ := assign Album.set_genre
                (let* pd := py_item data "productDetails" in
                 py_get pd "primaryGenreName" JNull) in
    let! _ := assign Album.set_rating
                (let* rv := py_item data "reviews" in py_item rv "average") in
    let! _ := assign Album.set_track_count (py_item data "trackCount") in
    assign Album.set_release_date
      (let* ms := py_item data "originalReleaseDate" in
       let* q := py_div1000 ms in
       ok (Some q)).

(** [Album(amzn, data)]: a new object, dropped when [__init__] raises. *)
Definition Album_init (data : json) : result Album.t :=
  match Album___init__ data Album.blank with
  | (inl e, _) => raise e
  | (inr _, a) => ok a
  end.

Definition MusicEnsembleService_lookup : string :=
  "com.amazon.musicensembleservice.MusicEnsembleService.lookup".

Definition lookup_query (self : AmazonMusic.t) (id : json) : json :=
  dict [("asins", JArr [id]);
        ("features", JArr [JStr "popularity"; JStr "expandTracklist";
                           JStr "trackLibraryAvailability";
                           JStr "collectionLibraryAvailability"]);
        ("requestedContent", JStr (AmazonMusic._amazon_subscription self));
        ("deviceId", AmazonMusic.device_id self);
        ("deviceType", AmazonMusic.device_type self);
        ("musicTerritory", AmazonMusic.territory self);
        ("customerId", AmazonMusic.customer_id self)].

(** [AmazonMusic.album(self, id)]. *)
Definition AmazonMusic_album (self : AmazonMusic.t) (id : json)
  : SE world Album.t :=
  let! resp := AmazonMusic_call self "muse/legacy/lookup"
                 (Some MusicEnsembleService_lookup) (lookup_query self id) in
  let! data := se_lift (let* al := py_item resp "albumList" in py_first al) in
  se_lift (Album_init data).

(** [Album.tracks(self)]. *)
Definition Album_tracks (amzn : AmazonMusic.t)
  : SE (Album.t * world) (list Track.t) :=
  let! self := get_self in
  let! has_tracks := se_lift (py_in "tracks" (Album.json_ self)) in
  let! _ :=
    if negb has_tracks then
      let! a := on_world (AmazonMusic_album amzn (Album.id self)) in
      on_self (Album___init__ (Album.json_ a))
    else se_ret tt in
  let! self := get_self in
  se_lift (track_list (Album.json_ self)).

(** ** [internal/playlist.py]: class [Playlist] *)

Module Playlist.

Record t : Type := {
  json_ : json;
  id : json;
  cover_url : json;
  name : json;
  genre : json;
  rating : json;
  track_count : json
}.

End Playlist.

(** [Playlist(amzn, data)]. *)
Definition Playlist_init (data : json) : result Playlist.t :=
  let* id := py_item data "asin" in
  let* cover_url := py_item data "image" in
  let* name := py_item data "title" in
  let* genre := py_item data "primaryGenre" in
  let* rating := (let* rv := py_item data "reviews" in py_item rv "average") in
  let* track_count := py_item data "trackCount" in
  ok {| Playlist.json_ := data; Playlist.id := id;
        Playlist.cover_url := cover_url; Playlist.name := name;
        Playlist.genre := genre; Playlist.rating := rating;
        Playlist.track_count := track_count |}.

(** [Playlist.tracks(self)]. *)
Definition Playlist_tracks (self : Playlist.t) : result (list Track.t) :=
  track_list (Playlist.json_ self).

(** ** [internal/station.py]: class [Station] *)

Module Station.

Record t : Type := {
  id : json;
  json_ : json;
  cover_url : json;
  name : json;
  _page_token : json
}.

Definition set__page_token (v : json) (s : t) : t :=
  {| id := id s; json_ := json_ s; cover_url := cover_url s;
     name := name s; _page_token := v |}.

End Station.

(** [Station(amzn, asin, data)]. *)
Definition Station_init (asin : json) (data : json) : result Station.t :=
  let* cover_url :=
    (let* q := py_item data "queue" in
     let* qm := py_item q "queueMetadata" in
     let* im := py_item qm "imageUrlMap" in
     py_item im "FULL") in
  let* name :=
    (let* q := py_item data "queue" in
     let* qm := py_item q "queueMetadata" in
     py_item qm "title") in
  let* tok := (let* q := py_item data "queue" in py_item q "pageToken") in
  ok {| Station.id := asin; Station.json_ := data;
        Station.cover_url := cover_url; Station.name := name;
        Station._page_token := tok |}.

(** ** [amazon_music/__init__.py]: [station], [playlist] and [search] *)

Definition createQueue : string :=
  "com.amazon.musicplayqueueservice.model.client.external.voiceenabled.MusicPlayQueueServiceExternalVoiceEnabledClient.createQueue".

Definition createQueue_query (self : AmazonMusic.t) (id : json) : json :=
  dict [("identifier", id);
        ("identifierType", JStr "STATION_KEY");
        ("customerInfo",
         dict [("deviceId", AmazonMusic.device_id self);
               ("deviceType", AmazonMusic.device_type self);
               ("musicTerritory", AmazonMusic.territory self);
               ("customerId", AmazonMusic.customer_id self)])].

(** [AmazonMusic.station(self, id)]. *)
Definition AmazonMusic_station (self : AmazonMusic.t) (id : json)
  : SE world Station.t :=
  let! resp := AmazonMusic_call self "mpqs/voiceenabled/createQueue"
                 (Some createQueue) (createQueue_query self id) in
  se_lift (Station_init id resp).

(** [AmazonMusic.playlist(self, id)]. *)
Definition AmazonMusic_playlist (self : AmazonMusic.t) (id : json)
  : SE world Playlist.t :=
  let! resp := AmazonMusic_call self "muse/legacy/lookup"
                 (Some MusicEnsembleService_lookup) (lookup_query self id) in
  let! data := se_lift (let* pl := py_item resp "playlistList" in
                        py_first pl) in
  se_lift (Playlist_init data).

(** The inner [result_spec(n)] of [search]. *)
Definition result_spec (n : string) : json :=
  dict [("label", JStr (n +:+ "s"));
        ("documentSpecs",
         JArr [dict [("type", JStr n);
                     ("fields",
                      JArr [JStr "__DEFAULT"; JStr "artFull";
                            JStr "fileExtension";
                            JStr "isMusicSubscription";
                            JStr "primeStatus"])]]);
        ("maxResults", JNum 30)].

(** One turn of the [for type_ in kwargs] loop of [_add_result_spec]: what
    it appends to [query_obj['resultSpecs']]. *)
Definition add_result_spec (library_only : bool) (specs : list json)
    (kw : string * bool) : list json :=
  let '(type_, wanted) := kw in
  if wanted then
    let specs :=
      if negb (String.eqb type_ "station")
      then specs ++ [result_spec ("library_" +:+ type_)]
      else specs in
    if negb library_only
    then specs ++ [result_spec ("catalog_" +:+ type_)]
    else specs
  else specs.

(** [query_obj['resultSpecs']] once [_add_result_spec(track=..., album=...,
    playlist=..., artist=..., station=...)] has run; the keyword arguments
    are visited in the order they are written. *)
Definition result_specs (library_only tracks albums playlists artists
    stations : bool) : list json :=
  foldl (add_result_spec library_only) []
    [("track", tracks); ("album", albums); ("playlist", playlists);
     ("artist", artists); ("station", stations)].

(** The query proper: everything that has an ASIN when [query] is None, a
    match on [query] otherwise. *)
Definition search_term (query : json) : json :=
  match query with
  | JNull => dict [("__type", JStr "com.amazon.music.search.model#ExistsQuery");
                   ("fieldName", JStr "asin")]
  | _ => dict [("__type", JStr "com.amazon.music.search.model#MatchQuery");
               ("query", query)]
  end.

(** [query_obj] as [search] sends it. *)
Definition search_query (self : AmazonMusic.t) (query : json)
    (library_only tracks albums playlists artists stations : bool) : json :=
  dict [("deviceId", AmazonMusic.device_id self);
        ("deviceType", AmazonMusic.device_type self);
        ("musicTerritory", AmazonMusic.territory self);
        ("customerId", AmazonMusic.customer_id self);
        ("languageLocale", AmazonMusic.locale self);
        ("requestContext", dict [("customerInitiated", JBool true)]);
        ("query",
         if library_only then search_term query
         else dict [("__type",
                     JStr "com.amazon.music.search.model#BooleanQuery");
                    ("must", JArr [search_term query]);
                    ("should",
                     JArr [dict [("__type",
                                  JStr "com.amazon.music.search.model#TermQuery");
                                 ("fieldName", JStr "primeStatus");
                                 ("term", JStr "PRIME")]])]);
        ("resultSpecs",
         JArr (result_specs library_only tracks albums playlists artists
                 stations))].

Definition TenzingService_search : string :=
  "com.amazon.tenzing.v1_1.TenzingServiceExternalV1_1.search".

(** [[r['label'], r]]. *)
Definition labelled (r : json) : result json :=
  let* label := py_item r "label" in
  ok (JArr [label; r]).

(** [AmazonMusic.search(self, query, library_only, tracks, albums,
    playlists, artists, stations)]. *)
Definition AmazonMusic_search (self : AmazonMusic.t) (query : json)
    (library_only tracks albums playlists artists stations : bool)
  : SE world (list json) :=
  let! resp := AmazonMusic_call self "search/v1_1/"
                 (Some TenzingService_search)
                 (search_query self query library_only tracks albums
                    playlists artists stations) in
  se_lift (let* rs := py_item resp "results" in
           let* l := py_iter rs in
           py_map labelled l).

(** ** Generators

    A generator is its frame (the local variables and the point where it
    is suspended); resuming it runs the body up to the next event. *)

Inductive event (A : Type) : Type :=
| Tau                      (* a loop iteration that yields nothing *)
| Yielded (a : A)
| StopIteration
| Raised (e : pyerr).
Arguments Tau {A}.
Arguments Yielded {A} a.
Arguments StopIteration {A}.
Arguments Raised {A} e.

(** *** [Station.tracks] *)

Inductive gen_pc : Type := NotStarted | Suspended | Finished.

Record station_frame : Type := {
  sf_pc : gen_pc;
  sf_tracks : list json      (* the local list [tracks] *)
}.

Definition getNextTracks : string :=
  "com.amazon.musicplayqueueservice.model.client.external.voiceenabled.MusicPlayQueueServiceExternalVoiceEnabledClient.getNextTracks".

Definition getNextTracks_query (amzn : AmazonMusic.t) (self : Station.t)
  : json :=
  dict [("pageToken", Station._page_token self);
        ("numberOfTracks", JNum 10);
        ("customerInfo",
         dict [("deviceId", AmazonMusic.device_id amzn);
               ("deviceType", AmazonMusic.device_type amzn);
               ("musicTerritory", AmazonMusic.territory amzn);
               ("customerId", AmazonMusic.customer_id amzn)])].

(** [while tracks: yield Track(self._amzn, tracks.pop(0))], up to the
    [yield]. *)
Definition station_head (tracks : list json) : event Track.t * station_frame :=
  match tracks with
  | [] => (StopIteration, {| sf_pc := Finished; sf_tracks := [] |})
  | x :: rest =>
      match Track_init x with
      | inl e => (Raised e, {| sf_pc := Finished; sf_tracks := rest |})
      | inr t => (Yielded t, {| sf_pc := Suspended; sf_tracks := rest |})
      end
  end.

(** The body of [if not tracks:] after the [yield]: the call, the new page
    token and the buffer extended by the batch. *)
Definition station_refill (amzn : AmazonMusic.t) (tracks : list json)
  : SE (Station.t * world) (list json) :=
  let! self := get_self in
  let! data := on_world (AmazonMusic_call amzn
                           "mpqs/voiceenabled/getNextTracks"
                           (Some getNextTracks)
                           (getNextTracks_query amzn self)) in
  let! _ := on_self (assign Station.set__page_token
                       (py_item data "nextPageToken")) in
  let! more := se_lift (let* l := py_item data "trackMetadataList" in
                        py_iter l) in
  se_ret (tracks ++ more).

(** [next(g)] for the generator [g = station.tracks()]. *)
Definition Station_tracks_next (amzn : AmazonMusic.t) (g : station_frame)
    (s : Station.t * world)
  : event Track.t * station_frame * (Station.t * world) :=
  match sf_pc g with
  | NotStarted =>
      match (let* l := py_item (Station.json_ s.1) "trackMetadataList" in
             py_iter l) with
      | inl e => (Raised e, {| sf_pc := Finished; sf_tracks := [] |}, s)
      | inr l => (station_head ([] ++ l), s)
      end
  | Suspended =>
      match sf_tracks g with
      | [] =>
          match station_refill amzn [] s with
          | (inl e, s') =>
              (Raised e, {| sf_pc := Finished; sf_tracks := [] |}, s')
          | (inr tracks, s') => (station_head tracks, s')
          end
      | _ :: _ => (station_head (sf_tracks g), s)
      end
  | Finished => (StopIteration, g, s)
  end.

(** *** [AmazonMusic.albums_in_library] *)

Inductive lib_pc : Type :=
| LStart      (* not started *)
| LHead       (* at the test of [while results:] *)
| LAfter      (* after the [if ...: yield], before the refill test *)
| LDone.      (* returned or raised *)

Record lib_frame : Type := {
  lf_pc : lib_pc;
  lf_query : gmap string json;
  lf_data : json;
  lf_results : list json
}.

Definition library_query (self : AmazonMusic.t) : gmap string json :=
  list_to_map
    [("Operation", JStr "searchLibrary");
     ("ContentType", JStr "JSON");
     ("searchReturnType", JStr "ALBUMS");
     ("searchCriteria.member.1.attributeName", JStr "status");
     ("searchCriteria.member.1.comparisonType", JStr "EQUALS");
     ("searchCriteria.member.1.attributeValue", JStr "AVAILABLE");
     ("searchCriteria.member.2.attributeName", JStr "trackStatus");
     ("searchCriteria.member.2.comparisonType", JStr "IS_NULL");
     ("searchCriteria.member.2.attributeValue", JNull);
     ("albumArtUrlsSizeList.member.1", JStr "FULL");
     ("selectedColumns.member.1", JStr "albumArtistName");
     ("selectedColumns.member.2", JStr "albumName");
     ("selectedColumns.member.3", JStr "artistName");
     ("selectedColumns.member.4", JStr "objectId");
     ("selectedColumns.member.5", JStr "primaryGenre");
     ("selectedColumns.member.6", JStr "sortAlbumArtistName");
     ("selectedColumns.member.7", JStr "sortAlbumName");
     ("selectedColumns.member.8", JStr "sortArtistName");
     ("selectedColumns.member.9", JStr "albumCoverImageFull");
     ("selectedColumns.member.10", JStr "albumAsin");
     ("selectedColumns.member.11", JStr "artistAsin");
     ("selectedColumns.member.12", JStr "gracenoteId");
     ("sortCriteriaList", JNull);
     ("maxResults", JNum 100);
     ("nextResultsToken", JNull);
     ("caller", JStr "getAllDataByMetaType");
     ("sortCriteriaList.member.1.sortColumn", JStr "sortAlbumName");
     ("sortCriteriaList.member.1.sortType", JStr "ASC");
     ("customerInfo.customerId", AmazonMusic.customer_id self);
     ("customerInfo.deviceId", AmazonMusic.device_id self);
     ("customerInfo.deviceType", AmazonMusic.device_type self)].

(** The generator object that [albums_in_library()] returns. *)
Definition albums_in_library (self : AmazonMusic.t) : lib_frame :=
  {| lf_pc := LStart; lf_query := library_query self; lf_data := JNull;
     lf_results := [] |}.

(** [self.call('cirrus/', None, query)['searchLibraryResponse']
    ['searchLibraryResult']]. *)
Definition searchLibrary (self : AmazonMusic.t) (query : gmap string json)
  : SE world json :=
  let! resp := AmazonMusic_call self "cirrus/" None (JObj query) in
  se_lift (let* r := py_item resp "searchLibraryResponse" in
           py_item r "searchLibraryResult").

(** [r['numTracks'] >= 4 and r['metadata'].get('primeStatus') == 'PRIME']. *)
Definition library_filter (r : json) : result bool :=
  let* n := py_item r "numTracks" in
  let* enough := py_ge n 4 in
  if enough then
    let* md := py_item r "metadata" in
    let* ps := py_get md "primeStatus" JNull in
    ok (py_eq_str ps "PRIME")
  else ok false.

Definition lib_done (g : lib_frame) : lib_frame :=
  {| lf_pc := LDone; lf_query := lf_query g; lf_data := lf_data g;
     lf_results := lf_results g |}.

(** One stretch of the body of [albums_in_library]: the first call, one
    pass through the top half of the loop (pop, filter, yield), or one
    pass through its bottom half (the refill). *)
Definition albums_step (self : AmazonMusic.t) (g : lib_frame) (w : world)
  : event Album.t * lib_frame * world :=
  match lf_pc g with
  | LStart =>
      match searchLibrary self (lf_query g) w with
      | (inl e, w') => (Raised e, lib_done g, w')
      | (inr data, w') =>
          match (let* l := py_item data "searchReturnItemList" in
                 py_iter l) with
          | inl e => (Raised e, lib_done g, w')
          | inr l =>
              (Tau, {| lf_pc := LHead; lf_query := lf_query g;
                       lf_data := data; lf_results := [] ++ l |}, w')
          end
      end
  | LHead =>
      match lf_results g with
      | [] => (StopIteration, lib_done g, w)
      | r :: rest =>
          let g' := {| lf_pc := LAfter; lf_query := lf_query g;
                       lf_data := lf_data g; lf_results := rest |} in
          match library_filter r with
          | inl e => (Raised e, lib_done g', w)
          | inr false => (Tau, g', w)
          | inr true =>
              match Album_init r with
              | inl e => (Raised e, lib_done g', w)
              | inr a => (Yielded a, g', w)
              end
          end
      end
  | LAfter =>
      let stay := {| lf_pc := LHead; lf_query := lf_query g;
                     lf_data := lf_data g; lf_results := lf_results g |} in
      match lf_results g with
      | [] =>
          match py_item (lf_data g) "nextResultsToken" with
          | inl e => (Raised e, lib_done g, w)
          | inr tok =>
              if truthy tok then
                let query := <["nextResultsToken" := tok]> (lf_query g) in
                match searchLibrary self query w with
                | (inl e, w') => (Raised e, lib_done g, w')
                | (inr data, w') =>
                    match (let* l := py_item data "searchReturnItemList" in
                           py_iter l) with
                    | inl e => (Raised e, lib_done g, w')
                    | inr l =>
                        (Tau, {| lf_pc := LHead; lf_query := query;
                                 lf_data := data;
                                 lf_results := lf_results g ++ l |}, w')
                    end
                end
              else (Tau, stay, w)
          end
      | _ :: _ => (Tau, stay, w)
      end
  | LDone => (StopIteration, g, w)
  end.

(** How far a consumer got. *)
Inductive progress : Type :=
| Running                 (* the generator can still be resumed *)
| Completed               (* it returned *)
| Aborted (e : pyerr).    (* it raised *)

(** [for a in amzn.albums_in_library(): ...], watched for [n] stretches:
    the albums yielded, in order, and where the generator and the world
    stand. *)
Fixpoint consume (n : nat) (self : AmazonMusic.t) (g : lib_frame) (w : world)
  : list Album.t * progress * lib_frame * world :=
  match n with
  | O => ([], Running, g, w)
  | S n' =>
      match albums_step self g w with
      | (Tau, g', w') => consume n' self g' w'
      | (Yielded a, g', w') =>
          let '(ys, p, g'', w'') := consume n' self g' w' in
          (a :: ys, p, g'', w'')
      | (StopIteration, g', w') => ([], Completed, g', w')
      | (Raised e, g', w') => ([], Aborted e, g', w')
      end
  end.

(** ** [AmazonMusic.__init__] and [AmazonMusic._authenticate] *)

Module Html.

(** [re.sub(r';$', '', line)]. *)
Fixpoint strip_semicolon (s : string) : string :=
  match s with
  | EmptyString => EmptyString
  | String c rest =>
      match rest with
      | EmptyString => if Ascii.eqb c ";"%char then EmptyString else s
      | _ => String c (strip_semicolon rest)
      end
  end.

(** [re.sub(r'^[^{]*', '', s)]. *)
Fixpoint strip_to_brace (s : string) : string :=
  match s with
  | EmptyString => EmptyString
  | String c rest => if Ascii.eqb c "{"%char then s else strip_to_brace rest
  end.

End Html.

Definition appConfig_marker : string := "amznMusic.appConfig = ".

Definition captcha_message : string :=
  "Amazon Music `appConfig` could not be found (you may have triggered the captcha)".

(** [any(h.status_code == 302 and AMAZON_SIGN_IN_PATH in
    h.headers['Location'] for h in r.history)]. *)
Fixpoint bounced (hs : list redirect) : result bool :=
  match hs with
  | [] => ok false
  | h :: rest =>
      if status_code h =? 302 then
        match location h with
        | None => raise (KeyError (Key (JStr "location")))
        | Some loc =>
            if str_contains AMAZON_SIGN_IN_PATH loc then ok true
            else bounced rest
        end
      else bounced rest
  end.

(** The hidden inputs of the form, written over the credentials. *)
Definition hidden_fields (fs : list input_tag)
    (query : gmap (option string) (option string))
  : gmap (option string) (option string) :=
  foldl (λ q field,
           match input_type field with
           | Some ty => if String.eqb ty "hidden"
                        then <[input_name field := input_value field]> q
                        else q
           | None => q
           end) query fs.

Definition get_request (u : string) : request :=
  {| verb := "GET"; target_url := Some u;
     headers := {["User-Agent" := JStr USER_AGENT]}; data := NoData |}.

(** The form submission of [_authenticate]: the credentials, overwritten
    by the hidden inputs, posted to the action of the form. *)
Definition sign_in_request (self : AmazonMusic.t) (f : form_tag)
    (referer : string) : request :=
  let query : gmap (option string) (option string) :=
    <[Some "password" := AmazonMusic._password self]>
      {[Some "email" := AmazonMusic._email self]} in
  {| verb := "POST";
     target_url := action f;
     headers :=
       list_to_map
         [("User-Agent", JStr USER_AGENT);
          ("Referer", JStr referer);
          ("Upgrade-Insecure-Requests", JStr "1");
          ("Accept", JStr "text/html,application/xhtml+xml,application/xml;q=0.9,*/*;q=0.8");
          ("Accept-Language", JStr "en-US,en;q=0.9")];
     data := FormFields (hidden_fields (inputs f) query) |}.

(** [AmazonMusic._authenticate(self, r)]. *)
Definition AmazonMusic__authenticate (self : AmazonMusic.t) (r : response)
  : SE world response :=
  let! f := se_lift (match form r with
                     | Some f => ok f
                     | None => raise AttributeError
                     end) in
  let! referer := se_lift (match history r with
                           | [] => raise IndexError
                           | h :: _ =>
                               match location h with
                               | Some loc => ok loc
                               | None => raise (KeyError (Key (JStr "location")))
                               end
                           end) in
  let! r' := session_send (sign_in_request self f referer) in
  let! _ := cookies_save in
  se_ret r'.

Section Construction.

(** [json.loads]; it raises [ValueError] on text that is not JSON. *)
Variable json_loads : string → result json.

(** The [for line in r.iter_lines(...)] scan; [JNull] is the [None] that
    [amzn_music_config] keeps when no line carries the marker. *)
Fixpoint find_appConfig (lines : list string) : result json :=
  match lines with
  | [] => ok JNull
  | line :: rest =>
      if str_contains appConfig_marker line
      then json_loads (Html.strip_to_brace (Html.strip_semicolon line))
      else find_appConfig rest
  end.

(** The two nested [while] loops of [__init__], entered at the test of the
    inner one with the current response.  Every turn sends one request, so
    [fuel] bounds the number of requests; [None] is fuel run out. *)
Fixpoint sign_in_loop (fuel : nat) (self : AmazonMusic.t) (r : response)
    (w : world) : option (result json * world) :=
  match bounced (history r) with
  | inl e => Some (raise e, w)
  | inr true =>
      match AmazonMusic__authenticate self r w with
      | (inl e, w') => Some (raise e, w')
      | (inr r', w') =>
          match fuel with
          | O => None
          | S fuel' => sign_in_loop fuel' self r' w'
          end
      end
  | inr false =>
      match find_appConfig (iter_lines r) with
      | inl e => Some (raise e, w)
      | inr JNull => Some (raise (PyException (JStr captcha_message)), w)
      | inr cfg =>
          match py_item cfg "isRecognizedCustomer" with
          | inl e => Some (raise e, w)
          | inr known =>
              if py_eq_zero known then
                match session_send
                        (get_request (AMAZON_MUSIC_URL
                                      +:+ AMAZON_FORCE_SIGN_IN_PATH)) w with
                | (inl e, w') => Some (raise e, w')
                | (inr r', w') =>
                    match fuel with
                    | O => None
                    | S fuel' => sign_in_loop fuel' self r' w'
                    end
                end
              else Some (ok cfg, w)
          end
      end
  end.

(** [REGION_MAP.get(realm, realm[:2])]. *)
Definition region_of (realm : json) : result string :=
  match realm with
  | JStr s => ok (default (String.substring 0 2 s) (REGION_MAP !! s))
  | _ => raise TypeError
  end.

(** ['https://' + x]. *)
Definition https (x : json) : result string :=
  match x with
  | JStr s => ok ("https://" +:+ s)
  | _ => raise TypeError
  end.

(** The assignments after the loops: the credentials are overwritten,
    then the fields are read from the configuration. *)
Definition populate (self : AmazonMusic.t) (cfg : json)
  : result AmazonMusic.t :=
  let _email : option string := None in
  let _password : option string := None in
  let* device_id := py_item cfg "deviceId" in
  let* csrf_token := (let* c := py_item cfg "CSRFTokenConfig" in
                      py_item c "csrf_token") in
  let* csrf_ts := (let* c := py_item cfg "CSRFTokenConfig" in
                   py_item c "csrf_ts") in
  let* csrf_rnd := (let* c := py_item cfg "CSRFTokenConfig" in
                    py_item c "csrf_rnd") in
  let* customer_id := py_item cfg "customerId" in
  let* device_type := py_item cfg "deviceType" in
  let* territory := py_item cfg "musicTerritory" in
  let* locale := (let* i := py_item cfg "i18n" in py_item i "locale") in
  let* region := (let* r1 := py_item cfg "realm" in
                  let* _ := py_item cfg "realm" in
                  region_of r1) in
  let* url := (let* si := py_item cfg "serverInfo" in
               let* s := py_item si "returnUrlServer" in
               https s) in
  ok {| AmazonMusic._amazon_subscription :=
          AmazonMusic._amazon_subscription self;
        AmazonMusic._email := _email;
        AmazonMusic._password := _password;
        AmazonMusic.device_id := device_id;
        AmazonMusic.csrf_token := csrf_token;
        AmazonMusic.csrf_ts := csrf_ts;
        AmazonMusic.csrf_rnd := csrf_rnd;
        AmazonMusic.customer_id := customer_id;
        AmazonMusic.device_type := device_type;
        AmazonMusic.territory := territory;
        AmazonMusic.locale := locale;
        AmazonMusic.region := region;
        AmazonMusic.url := url |}.

(** The object while [__init__] runs the sign-in: the tier and the
    credentials are set, nothing else is yet. *)
Definition fresh (email password : option string) (prime : bool)
  : AmazonMusic.t :=
  {| AmazonMusic._amazon_subscription :=
       if prime then AMAZON_PRIME_SUBSCRIPTION
       else AMAZON_MUSIC_SUBSCRIPTION;
     AmazonMusic._email := email;
     AmazonMusic._password := password;
     AmazonMusic.device_id := JNull; AmazonMusic.csrf_token := JNull;
     AmazonMusic.csrf_ts := JNull; AmazonMusic.csrf_rnd := JNull;
     AmazonMusic.customer_id := JNull; AmazonMusic.device_type := JNull;
     AmazonMusic.territory := JNull; AmazonMusic.locale := JNull;
     AmazonMusic.region := ""; AmazonMusic.url := "" |}.

(** The region cookie that [__init__] makes when the jar has none:
    [Cookie(1, COOKIE_AMAZON_TARGET, AMAZON_MUSIC_URL, ...)] with
    [discard=False] and [expires=2147483647]. *)
Definition new_target_region_cookie : cookie :=
  {| cookie_value := AMAZON_MUSIC_URL; discard := false;
     expires := Some 2147483647 |}.

(** [AmazonMusic(email, password, cookie_cache_path, prime)].  The jar
    starts from the cookie file; an exception drops the object. *)
Definition AmazonMusic___init__ (email password : option string)
    (prime : bool) (w : world) : option (result AmazonMusic.t * world) :=
  let self := fresh email password prime in
  let w0 := {| transport := transport w; sent := sent w;
               jar := cookies_load w; disk := disk w;
               saves := saves w; clock := clock w |} in
  let target_region_cookie :=
    default new_target_region_cookie (jar w0 !! COOKIE_AMAZON_TARGET) in
  match (let! r := session_send
                     (get_request (cookie_value target_region_cookie)) in
         let! _ := cookies_save in
         se_ret r) w0 with
  | (inl e, w1) => Some (raise e, w1)
  | (inr r, w1) =>
      match sign_in_loop (length (transport w1)) self r w1 with
      | None => None
      | Some (inl e, w2) => Some (raise e, w2)
      | Some (inr cfg, w2) =>
          match populate self cfg with
          | inl e => Some (raise e, w2)
          | inr self' =>
              let w3 := {| transport := transport w2; sent := sent w2;
                           jar := <[COOKIE_AMAZON_TARGET :=
                                      set_value (AmazonMusic.url self')
                                        target_region_cookie]> (jar w2);
                           disk := disk w2; saves := saves w2;
                           clock := clock w2 |} in
              Some (ok self', (cookies_save w3).2)
          end
      end
  end.

End Construction.

(** ** Predicates and sample payloads used by the properties *)

(** The value found by following keys into nested dicts. *)
Fixpoint at_path (d : json) (p : list string) : option json :=
  match p with
  | [] => Some d
  | k :: p' =>
      match d with
      | JObj m => match m !! k with
                  | Some v => at_path v p'
                  | None => None
                  end
      | _ => None
      end
  end.

(** The payload is in the summary shape when ['metadata' in data] holds,
    in the full shape when it does not. *)
Definition summary_shape (data : json) : Prop :=
  py_in "metadata" data = inr true.
Definition full_shape (data : json) : Prop :=
  py_in "metadata" data = inr false.

(** The four fields the two shapes share, under their two spellings,
    carry the same values. *)
Definition equivalent_fields (s f : json) : Prop :=
  at_path s ["metadata"; "albumAsin"] = at_path f ["asin"] ∧
  at_path s ["metadata"; "albumName"] = at_path f ["title"] ∧
  at_path s ["metadata"; "albumArtistName"] = at_path f ["artist"; "name"] ∧
  at_path s ["metadata"; "primaryGenre"]
    = at_path f ["productDetails"; "primaryGenreName"].

(** The cookie store is saved after a step from [w] to [w']: the jar was
    written once more and the file holds what [save()] writes of the jar. *)
Definition saved_after (w w' : world) : Prop :=
  saves w' = S (saves w) ∧ disk w' = Some (written (clock w') (jar w')).

(** The world after the transport has taken [req] and set [cs]. *)
Definition after_send (req : request) (cs : list (string * cookie))
    (rest : list outcome) (w : world) : world :=
  {| transport := rest; sent := sent w ++ [req];
     jar := set_all cs (jar w); disk := disk w; saves := saves w;
     clock := clock w |}.

(** The request of [Track.url]. *)
Definition stream_request (amzn : AmazonMusic.t) (t : Track.t) : request :=
  call_request amzn "dmls/" (Some getRestrictedStreamingURL)
    (Track_url_query amzn t).

(** An exception of a class of its own, not a plain [Exception]. *)
Definition classed (e : pyerr) : Prop := class_of e ≠ ClsException.

(** The request of [AmazonMusic.album]. *)
Definition lookup_request (amzn : AmazonMusic.t) (id : json) : request :=
  call_request amzn "muse/legacy/lookup" (Some MusicEnsembleService_lookup)
    (lookup_query amzn id).

(** *** The library listing against a paged upstream *)

(** The request of one [searchLibrary] call. *)
Definition library_request (self : AmazonMusic.t) (query : gmap string json)
  : request :=
  call_request self "cirrus/" None (JObj query).

(** The transport outcome [o] is a library page: an answer whose result
    block lists [items] and carries the continuation token [tok]. *)
Definition serves (o : outcome) (items : list json) (tok : json) : Prop :=
  ∃ cs r b x res,
    o = Responds cs r ∧ body r = Some b ∧
    py_item b "searchLibraryResponse" = inr x ∧
    py_item x "searchLibraryResult" = inr res ∧
    py_item res "searchReturnItemList" = inr (JArr items) ∧
    py_item res "nextResultsToken" = inr tok.

(** What the top half of the loop yields for the items of a buffer, in
    order: the album of every item that passes the filter. *)
Fixpoint albums_of (items : list json) : result (list Album.t) :=
  match items with
  | [] => ok []
  | r :: rest =>
      let* keep := library_filter r in
      let* ys := (if keep : bool
                  then let* a := Album_init r in ok [a]
                  else ok []) in
      let* more := albums_of rest in
      ok (ys ++ more)
  end.

(** A paged listing: every page but the last has items and a truthy
    token, the last has a falsy token. *)
Fixpoint chained (cur : list json * json) (more : list (list json * json))
  : Prop :=
  match more with
  | [] => truthy cur.2 = false
  | p :: more' => cur.1 ≠ [] ∧ truthy cur.2 = true ∧ chained p more'
  end.

(** The requests for the pages after the current one: each carries the
    token of the page before it. *)
Fixpoint refetches (self : AmazonMusic.t) (query : gmap string json)
    (tok : json) (more : list (list json * json)) : list request :=
  match more with
  | [] => []
  | p :: more' =>
      let query' := <["nextResultsToken" := tok]> query in
      library_request self query' :: refetches self query' p.2 more'
  end.

Definition frame (pc : lib_pc) (query : gmap string json) (data : json)
    (results : list json) : lib_frame :=
  {| lf_pc := pc; lf_query := query; lf_data := data;
     lf_results := results |}.

(** The albums [albs], then whatever [x] goes on to yield. *)
Definition prepend (albs : list Album.t)
    (x : list Album.t * progress * lib_frame * world)
  : list Album.t * progress * lib_frame * world :=
  (albs ++ x.1.1.1, x.1.1.2, x.1.2, x.2).

(** A page of the library search. *)
Definition library_page (items : list json) (tok : json) : json :=
  dict [("searchLibraryResponse",
         dict [("searchLibraryResult",
                dict [("searchReturnItemList", JArr items);
                      ("nextResultsToken", tok)])])].

(** A summary album entry of the library. *)
Definition library_entry (asin title : string) : json :=
  dict [("numTracks", JNum 9);
        ("metadata",
         dict [("albumAsin", JStr asin); ("albumName", JStr title);
               ("albumArtistName", JStr "Miles Davis");
               ("primaryGenre", JStr "Jazz");
               ("primeStatus", JStr "PRIME")])].

(** *** The station queue *)

(** The request of one [getNextTracks] call. *)
Definition getNextTracks_request (amzn : AmazonMusic.t) (self : Station.t)
  : request :=
  call_request amzn "mpqs/voiceenabled/getNextTracks" (Some getNextTracks)
    (getNextTracks_query amzn self).

(** The contract as worded for the station queue: resumed with an empty
    buffer and no cursor, the generator sends nothing. *)
Definition stops_without_cursor (amzn : AmazonMusic.t) (g : station_frame)
    (s : Station.t * world) : Prop :=
  sf_tracks g = [] → truthy (Station._page_token s.1) = false →
  sent (Station_tracks_next amzn g s).2.2 = sent s.2.

(** The generator object that [station.tracks()] returns. *)
Definition Station_tracks : station_frame :=
  {| sf_pc := NotStarted; sf_tracks := [] |}.

(** *** The sign-in *)

(** A response that bounced through the sign-in path and shows the
    sign-in form [f]; [referer] is where the first redirect pointed. *)
Definition sign_in_page (r : response) (f : form_tag) (referer : string)
  : Prop :=
  bounced (history r) = inr true ∧
  form r = Some f ∧ is_Some (action f) ∧
  ∃ h hs, history r = h :: hs ∧ location h = Some referer.

(** A response that did not bounce through the sign-in path and whose
    body carries the configuration [cfg] of a recognized customer. *)
Definition config_page (json_loads : string → result json) (r : response)
    (cfg : json) : Prop :=
  bounced (history r) = inr false ∧
  find_appConfig json_loads (iter_lines r) = inr cfg ∧
  cfg ≠ JNull ∧
  ∃ known, py_item cfg "isRecognizedCustomer" = inr known ∧
           py_eq_zero known = false.

(** The URL the constructor fetches first: the region cookie of the
    cookie file, or the entry point. *)
Definition first_url (w : world) : string :=
  cookie_value
    (default new_target_region_cookie
       (cookies_load w !! COOKIE_AMAZON_TARGET)).

(** Two worlds that differ at most in the log of requests sent. *)
Definition agree (w1 w2 : world) : Prop :=
  transport w1 = transport w2 ∧ jar w1 = jar w2 ∧
  disk w1 = disk w2 ∧ saves w1 = saves w2 ∧ clock w1 = clock w2.

(** The number of sign-in form submissions among the requests [l]. *)
Fixpoint submissions (l : list request) : nat :=
  match l with
  | [] => 0%nat
  | req :: l' =>
      match data req with
      | FormFields _ => S (submissions l')
      | _ => submissions l'
      end
  end.

(** [list(itertools.islice(g, n))] for the generator [g] of a station:
    the tracks yielded by the first [n] resumptions, and where the
    generator, the station and the world then stand. *)
Fixpoint Station_take (n : nat) (amzn : AmazonMusic.t) (g : station_frame)
    (s : Station.t * world)
  : list Track.t * station_frame * (Station.t * world) :=
  match n with
  | O => ([], g, s)
  | S n' =>
      match Station_tracks_next amzn g s with
      | (Yielded t, g', s') =>
          let '(ts, g'', s'') := Station_take n' amzn g' s' in
          (t :: ts, g'', s'')
      | (_, g', s') => ([], g', s')
      end
  end.

(** *** The sign-in form and the search *)

(** A hidden input of a form. *)
Definition hidden (f : input_tag) : Prop := input_type f = Some "hidden".

(** No hidden input of [fs] is named [k]. *)
Definition not_hidden_in (k : option string) (fs : list input_tag) : Prop :=
  Forall (λ f, hidden f → input_name f ≠ k) fs.

(** The labels of a list of result specs. *)
Definition labels (specs : list json) : list json :=
  omap (λ spec, at_path spec ["label"]) specs.

(** The labels that one document type contributes to a search. *)
Definition labels_for (library_only : bool) (type_ : string) (wanted : bool)
  : list json :=
  if wanted then
    JStr ("library_" +:+ type_ +:+ "s")
      :: (if library_only then []
          else [JStr ("catalog_" +:+ type_ +:+ "s")])
  else [].

Module Fixtures.

(** The clock of the sample worlds, and their two kinds of cookie: one
    that ends with the session and one that outlives it. *)
Definition today : Z := 1700000000.

Definition session_cookie (v : string) : cookie :=
  {| cookie_value := v; discard := true; expires := None |}.

Definition lasting_cookie (v : string) : cookie :=
  {| cookie_value := v; discard := false; expires := Some 1800000000 |}.

(** A track payload whose [name] and [artistName] are empty strings. *)
Definition blank_named_track : gmap string json :=
  list_to_map
    [("name", JStr ""); ("title", JStr "Blue in Green");
     ("artistName", JStr "");
     ("artist", dict [("name", JStr "Miles Davis")]);
     ("album", dict [("title", JStr "Kind of Blue")]);
     ("asin", JStr "B000X");
     ("durationInSeconds", JNum 215)].

Definition blue_in_green : Track.t :=
  {| Track._url := JNull;
     Track.json_ := JObj blank_named_track;
     Track.name := JStr "Blue in Green";
     Track.artist := JStr "Miles Davis";
     Track.album := JStr "Kind of Blue";
     Track.album_artist := JStr "Miles Davis";
     Track.cover_url := JNull;
     Track.identifier_type := JStr "ASIN";
     Track.identifier := JStr "B000X";
     Track.duration := JNum 215 |}.

(** The same album in the summary shape of the library search and in the
    full shape of the catalog lookup. *)
Definition summary_album : json :=
  dict [("numTracks", JNum 5);
        ("metadata",
         dict [("albumAsin", JStr "B00J9AEZ7G");
               ("albumName", JStr "Kind of Blue");
               ("albumArtistName", JStr "Miles Davis");
               ("primaryGenre", JStr "Jazz");
               ("primeStatus", JStr "PRIME");
               ("albumCoverImageFull", JStr "https://img/kob.jpg")])].

Definition full_album : json :=
  dict [("asin", JStr "B00J9AEZ7G");
        ("title", JStr "Kind of Blue");
        ("image", JStr "https://img/kob.jpg");
        ("artist", dict [("name", JStr "Miles Davis")]);
        ("productDetails", dict [("primaryGenreName", JStr "Jazz")]);
        ("reviews", dict [("average", JNum 5)]);
        ("trackCount", JNum 5);
        ("originalReleaseDate", JNum (-327024000000));
        ("tracks", JArr [JObj blank_named_track])].

Definition summary_album_obj : Album.t :=
  {| Album.json_ :=
       dict [("albumAsin", JStr "B00J9AEZ7G");
             ("albumName", JStr "Kind of Blue");
             ("albumArtistName", JStr "Miles Davis");
             ("primaryGenre", JStr "Jazz");
             ("primeStatus", JStr "PRIME");
             ("albumCoverImageFull", JStr "https://img/kob.jpg")];
     Album.track_count := JNum 5;
     Album.id := JStr "B00J9AEZ7G";
     Album.cover_url := JStr "https://img/kob.jpg";
     Album.name := JStr "Kind of Blue";
     Album.artist := JStr "Miles Davis";
     Album.genre := JStr "Jazz";
     Album.rating := JNull;
     Album.release_date := None |}.

Definition full_album_obj : Album.t :=
  {| Album.json_ := full_album;
     Album.track_count := JNum 5;
     Album.id := JStr "B00J9AEZ7G";
     Album.cover_url := JStr "https://img/kob.jpg";
     Album.name := JStr "Kind of Blue";
     Album.artist := JStr "Miles Davis";
     Album.genre := JStr "Jazz";
     Album.rating := JNum 5;
     Album.release_date :=              (* -327024000.0 *)
       Some (SpecFloat.S754_finite true 5486552285184000 (-24)) |}.

(** A payload that is not an album, a playlist, a station or a track. *)
Definition only_a_title : json := dict [("title", JStr "Kind of Blue")].

(** A session as [__init__] leaves it. *)
Definition session : AmazonMusic.t :=
  {| AmazonMusic._amazon_subscription := AMAZON_PRIME_SUBSCRIPTION;
     AmazonMusic._email := None;
     AmazonMusic._password := None;
     AmazonMusic.device_id := JStr "13581723486";
     AmazonMusic.csrf_token := JStr "hTAz1soPcf8=";
     AmazonMusic.csrf_ts := JStr "1520000000";
     AmazonMusic.csrf_rnd := JStr "1192408831";
     AmazonMusic.customer_id := JStr "A1B2C3D4E5";
     AmazonMusic.device_type := JStr "A16ZV8BU3SN1N3";
     AmazonMusic.territory := JStr "US";
     AmazonMusic.locale := JStr "en_US";
     AmazonMusic.region := "NA";
     AmazonMusic.url := "https://music.amazon.com" |}.

(** A page as the API returns it: no redirects, a JSON body. *)
Definition api_response (j : json) : response :=
  {| history := []; iter_lines := []; form := None; body := Some j |}.

(** A world whose cookie file is up to date and whose connection drops
    after a redirect hop has refreshed the session token. *)
Definition dropping_world : world :=
  {| transport := [Fails [("session-token", lasting_cookie "fresh")]];
     sent := [];
     jar := {["session-token" := lasting_cookie "stale"]};
     disk := Some {["session-token" := lasting_cookie "stale"]};
     saves := 1; clock := today |}.

(** A world whose next answer reports the concurrent-stream cap. *)
Definition capped_world : world :=
  {| transport :=
       [Responds [] (api_response
                       (dict [("statusCode", JStr "MAX_CONCURRENCY_REACHED")]))];
     sent := []; jar := ∅; disk := Some ∅; saves := 1; clock := today |}.

(** A world whose next answer is the catalog lookup of the album. *)
Definition lookup_world : world :=
  {| transport :=
       [Responds [] (api_response (dict [("albumList", JArr [full_album])]))];
     sent := []; jar := ∅; disk := Some ∅; saves := 1; clock := today |}.

(** The full record of the album as a catalog that lists no tracks for it
    returns it, and the album made of it. *)
Definition trackless_album : json :=
  dict [("asin", JStr "B00J9AEZ7G");
        ("title", JStr "Kind of Blue");
        ("image", JStr "https://img/kob.jpg");
        ("artist", dict [("name", JStr "Miles Davis")]);
        ("productDetails", dict [("primaryGenreName", JStr "Jazz")]);
        ("reviews", dict [("average", JNum 5)]);
        ("trackCount", JNum 5);
        ("originalReleaseDate", JNum (-327024000000))].

Definition trackless_album_obj : Album.t :=
  {| Album.json_ := trackless_album;
     Album.track_count := JNum 5;
     Album.id := JStr "B00J9AEZ7G";
     Album.cover_url := JStr "https://img/kob.jpg";
     Album.name := JStr "Kind of Blue";
     Album.artist := JStr "Miles Davis";
     Album.genre := JStr "Jazz";
     Album.rating := JNum 5;
     Album.release_date :=              (* -327024000.0 *)
       Some (SpecFloat.S754_finite true 5486552285184000 (-24)) |}.

(** A world whose catalog answers each lookup of the album with the
    record that lists no tracks. *)
Definition trackless_world : world :=
  {| transport :=
       replicate 3
         (Responds []
            (api_response (dict [("albumList", JArr [trackless_album])])));
     sent := []; jar := ∅; disk := Some ∅; saves := 1; clock := today |}.

(** The album that [Album] makes of [library_entry asin title]. *)
Definition library_album (asin title : string) : Album.t :=
  {| Album.json_ :=
       dict [("albumAsin", JStr asin); ("albumName", JStr title);
             ("albumArtistName", JStr "Miles Davis");
             ("primaryGenre", JStr "Jazz");
             ("primeStatus", JStr "PRIME")];
     Album.track_count := JNum 9;
     Album.id := JStr asin;
     Album.cover_url := JNull;
     Album.name := JStr title;
     Album.artist := JStr "Miles Davis";
     Album.genre := JStr "Jazz";
     Album.rating := JNull;
     Album.release_date := None |}.

Definition entry_a : json := library_entry "B00A" "Milestones".
Definition entry_b : json := library_entry "B00B" "Kind of Blue".
Definition entry_c : json := library_entry "B00C" "Sketches of Spain".
Definition entry_d : json := library_entry "B00D" "In a Silent Way".
Definition entry_e : json := library_entry "B00E" "Bitches Brew".

Definition five_albums : list Album.t :=
  [library_album "B00A" "Milestones"; library_album "B00B" "Kind of Blue";
   library_album "B00C" "Sketches of Spain";
   library_album "B00D" "In a Silent Way";
   library_album "B00E" "Bitches Brew"].

Definition page_one : outcome :=
  Responds [] (api_response
                 (library_page [entry_a; entry_b; entry_c] (JStr "T1"))).
Definition page_two : outcome :=
  Responds [] (api_response (library_page [entry_d; entry_e] JNull)).

(** A library of two pages. *)
Definition two_page_world : world :=
  {| transport := [page_one; page_two];
     sent := []; jar := ∅; disk := Some ∅; saves := 1; clock := today |}.

(** A station queue of one track whose page token is null. *)
Definition last_page_queue : json :=
  dict [("queue",
         dict [("queueMetadata",
                dict [("imageUrlMap", dict [("FULL", JStr "https://img/st.jpg")]);
                      ("title", JStr "Cool Jazz")]);
               ("pageToken", JNull)]);
        ("trackMetadataList", JArr [JObj blank_named_track])].

Definition cool_jazz : Station.t :=
  {| Station.id := JStr "A2UW0MECRAWILL";
     Station.json_ := last_page_queue;
     Station.cover_url := JStr "https://img/st.jpg";
     Station.name := JStr "Cool Jazz";
     Station._page_token := JNull |}.

(** A world whose next answer is an empty batch of tracks. *)
Definition empty_batch_world : world :=
  {| transport :=
       [Responds [] (api_response
                       (dict [("nextPageToken", JNull);
                              ("trackMetadataList", JArr [])]))];
     sent := []; jar := ∅; disk := Some ∅; saves := 1; clock := today |}.

(** The sign-in page of the first hop (e-mail) and of the second
    (password), each behind a redirect to the sign-in path. *)
Definition sign_in_form (token : string) : form_tag :=
  {| action := Some "https://www.amazon.com/ap/signin";
     inputs :=
       [ {| input_type := Some "hidden"; input_name := Some "appActionToken";
            input_value := Some token |};
         {| input_type := Some "email"; input_name := Some "email";
            input_value := None |};
         {| input_type := Some "password"; input_name := Some "password";
            input_value := None |};
         {| input_type := Some "hidden"; input_name := Some "workflowState";
            input_value := Some "eyJ6aXAiOiJERUYi" |} ] |}.

Definition sign_in_referer : string :=
  "https://www.amazon.com/ap/signin?openid.return_to=https%3A%2F%2Fmusic.amazon.com".

Definition sign_in_response (token : string) : response :=
  {| history := [ {| status_code := 302;
                     location := Some sign_in_referer |} ];
     iter_lines := ["<html>"; "<form>"; "</form>"; "</html>"];
     form := Some (sign_in_form token);
     body := None |}.

(** The configuration of a recognized customer, and the page that embeds
    it. *)
Definition appConfig : json :=
  dict [("deviceId", JStr "13581723486");
        ("CSRFTokenConfig",
         dict [("csrf_token", JStr "hTAz1soPcf8=");
               ("csrf_ts", JStr "1520000000");
               ("csrf_rnd", JStr "1192408831")]);
        ("customerId", JStr "A1B2C3D4E5");
        ("deviceType", JStr "A16ZV8BU3SN1N3");
        ("musicTerritory", JStr "US");
        ("i18n", dict [("locale", JStr "en_US")]);
        ("realm", JStr "USAmazon");
        ("serverInfo", dict [("returnUrlServer", JStr "music.amazon.com")]);
        ("isRecognizedCustomer", JNum 1)].

Definition appConfig_text : string := "{deviceId: 13581723486, realm: USAmazon}".

(** A decoder that knows the one document of the sample page. *)
Definition sample_loads (text : string) : result json :=
  if String.eqb text appConfig_text then inr appConfig else inl ValueError.

Definition config_response : response :=
  {| history := [];
     iter_lines := ["<html>"; "<script>";
                    "  amznMusic.appConfig = {deviceId: 13581723486, realm: USAmazon};";
                    "</script>"; "</html>"];
     form := None;
     body := None |}.

(** A first run (no cookie file) that is bounced to the sign-in twice. *)
Definition first_run_world : world :=
  {| transport := [Responds [("session-id", session_cookie "139-0")]
                     (sign_in_response "t1");
                   Responds [] (sign_in_response "t2");
                   Responds [("at-main", lasting_cookie "Atza")]
                     config_response];
     sent := []; jar := ∅; disk := None; saves := 0; clock := today |}.

Definition ready_session : AmazonMusic.t :=
  {| AmazonMusic._amazon_subscription := AMAZON_PRIME_SUBSCRIPTION;
     AmazonMusic._email := None;
     AmazonMusic._password := None;
     AmazonMusic.device_id := JStr "13581723486";
     AmazonMusic.csrf_token := JStr "hTAz1soPcf8=";
     AmazonMusic.csrf_ts := JStr "1520000000";
     AmazonMusic.csrf_rnd := JStr "1192408831";
     AmazonMusic.customer_id := JStr "A1B2C3D4E5";
     AmazonMusic.device_type := JStr "A16ZV8BU3SN1N3";
     AmazonMusic.territory := JStr "US";
     AmazonMusic.locale := JStr "en_US";
     AmazonMusic.region := "NA";
     AmazonMusic.url := "https://music.amazon.com" |}.

(** A world whose next answer is the stream lookup of a track. *)
Definition stream_world : world :=
  {| transport :=
       [Responds []
          (api_response
             (dict [("contentResponse",
                     dict [("urlList",
                            JArr [JStr "https://stream/blue.m3u8"])])]))];
     sent := []; jar := ∅; disk := Some ∅; saves := 1; clock := today |}.

(** A world whose next answer has no [contentResponse]. *)
Definition no_stream_world : world :=
  {| transport := [Responds [] (api_response (dict [("message", JStr "gone")]))];
     sent := []; jar := ∅; disk := Some ∅; saves := 1; clock := today |}.

(** A track payload of the catalog: typed identifier, art map, both
    durations, an album with an artist of its own. *)
Definition typed_track : gmap string json :=
  list_to_map
    [("name", JStr "So What");
     ("artistName", JStr "Miles Davis");
     ("album", dict [("name", JStr "Kind of Blue");
                     ("image", JStr "https://img/kob.jpg")]);
     ("artUrlMap", dict [("LARGE", JStr "https://img/large.jpg")]);
     ("identifierType", JStr "COID");
     ("identifier", JStr "200000123");
     ("durationInSeconds", JNull);
     ("duration", JNum 562)].

Definition so_what : Track.t :=
  {| Track._url := JNull;
     Track.json_ := JObj typed_track;
     Track.name := JStr "So What";
     Track.artist := JStr "Miles Davis";
     Track.album := JStr "Kind of Blue";
     Track.album_artist := JStr "Miles Davis";
     Track.cover_url := JStr "https://img/large.jpg";
     Track.identifier_type := JStr "COID";
     Track.identifier := JStr "200000123";
     Track.duration := JNull |}.

(** A playlist of two tracks. *)
Definition two_track_playlist : Playlist.t :=
  {| Playlist.json_ :=
       dict [("tracks", JArr [JObj blank_named_track; JObj typed_track])];
     Playlist.id := JStr "B075QGZDZ3";
     Playlist.cover_url := JStr "https://img/pl.jpg";
     Playlist.name := JStr "Modal Jazz";
     Playlist.genre := JStr "Jazz";
     Playlist.rating := JNum 4;
     Playlist.track_count := JNum 2 |}.

(** A world whose connection is down. *)
Definition offline_world : world :=
  {| transport := [Fails []]; sent := []; jar := ∅; disk := Some ∅;
     saves := 1; clock := today |}.

(** A world whose next answer is a lookup that found nothing. *)
Definition nothing_found_world : world :=
  {| transport :=
       [Responds [] (api_response (dict [("albumList", JArr []);
                                         ("playlistList", JArr [])]))];
     sent := []; jar := ∅; disk := Some ∅; saves := 1; clock := today |}.

(** A library whose first page is followed by a dropped connection. *)
Definition broken_library_world : world :=
  {| transport := [page_one; Fails []];
     sent := []; jar := ∅; disk := Some ∅; saves := 1; clock := today |}.

(** A library whose first page is empty but carries a token. *)
Definition empty_page_world : world :=
  {| transport :=
       [Responds [] (api_response (library_page [] (JStr "T1"))); page_two];
     sent := []; jar := ∅; disk := Some ∅; saves := 1; clock := today |}.

(** A world whose next answer is a batch of one track with a new page
    token. *)
Definition next_batch_world : world :=
  {| transport :=
       [Responds [] (api_response
                       (dict [("nextPageToken", JStr "page-2");
                              ("trackMetadataList",
                               JArr [JObj typed_track])]))];
     sent := []; jar := ∅; disk := Some ∅; saves := 1; clock := today |}.

(** A page that carries no configuration (a CAPTCHA challenge). *)
Definition captcha_response : response :=
  {| history := [];
     iter_lines := ["<html>"; "<body>Enter the characters you see</body>";
                    "</html>"];
     form := None;
     body := None |}.

Definition captcha_world : world :=
  {| transport := [Responds [("session-id", session_cookie "139-0")]
                     captcha_response];
     sent := []; jar := ∅; disk := None; saves := 0; clock := today |}.

(** The configuration of a customer who is not recognized, the decoder
    that knows it and the page that embeds it. *)
Definition stranger_appConfig : json :=
  dict [("isRecognizedCustomer", JNum 0)].

Definition stranger_text : string := "{isRecognizedCustomer: 0}".

Definition stranger_loads (text : string) : result json :=
  if String.eqb text stranger_text then inr stranger_appConfig
  else sample_loads text.

Definition stranger_response : response :=
  {| history := [];
     iter_lines := ["  amznMusic.appConfig = {isRecognizedCustomer: 0};"];
     form := None;
     body := None |}.

(** A run that starts from a stale cookie file and is sent through the
    forced sign-in. *)
Definition stale_cookie_world : world :=
  {| transport := [Responds [] stranger_response;
                   Responds [("at-main", lasting_cookie "Atza")] config_response];
     sent := [];
     jar := ∅;
     disk := Some {[COOKIE_AMAZON_TARGET :=
                     lasting_cookie "https://music.amazon.co.uk"]};
     saves := 0; clock := today |}.

(** A world whose next answer is a search with two result blocks. *)
Definition library_tracks_block : json :=
  dict [("label", JStr "library_tracks"); ("hits", JArr [])].
Definition catalog_albums_block : json :=
  dict [("label", JStr "catalog_albums"); ("hits", JArr [])].

Definition search_world : world :=
  {| transport :=
       [Responds [] (api_response
                       (dict [("results", JArr [library_tracks_block;
                                                catalog_albums_block])]))];
     sent := []; jar := ∅; disk := Some ∅; saves := 1; clock := today |}.

End Fixtures.

(** * Properties *)

(** ** Reasoning about [let*] and [let!] *)

Lemma rbind_ok {A B} (m : result A) (k : A → result B) (b : B) :
  rbind m k = inr b → ∃ a, m = inr a ∧ k a = inr b.
Proof. destruct m as [e|a]; simpl; [discriminate | eauto]. Qed.

Lemma not_found_in_ok {A} (data : json) (m : result A) (a : A) :
  not_found_in data m = inr a → m = inr a.
Proof. destruct m as [[]|]; simpl; congruence. Qed.

Lemma py_or_falsy (a : json) (b : result json) :
  truthy a = false → py_or a b = b.
Proof. unfold py_or. intros ->. reflexivity. Qed.

(** Split a successful chain of [let*] at its head. *)
Ltac step_ok H :=
  let x := fresh "x" in
  let Hx := fresh "Hx" in
  apply rbind_ok in H as (x & Hx & H).

(** ** Track normalization *)

(** The name and the artist a successful [Track_fields] stores are the
    values of the two [or] expressions. *)
Lemma Track_fields_name_artist (data : json) (t : Track.t) :
  Track_fields data = inr t →
  ∃ n0 a0,
    py_get data "name" JNull = inr n0 ∧
    py_or n0 (py_item data "title") = inr (Track.name t) ∧
    py_get data "artistName" JNull = inr a0 ∧
    py_or a0 (let* ar := py_item data "artist" in py_item ar "name")
      = inr (Track.artist t).
Proof.
  unfold Track_fields. intros H.
  apply rbind_ok in H as (n0 & Hn0 & H).
  apply rbind_ok in H as (nm & Hnm & H).
  apply rbind_ok in H as (a0 & Ha0 & H).
  apply rbind_ok in H as (ar & Har & H).
  repeat step_ok H.
  injection H as <-. simpl. eauto 10.
Qed.

(** C10: the name and the artist of a track fall back on falsiness, not on
    absence: when [name] is present but the empty string and [title] is
    present, the track's name is the title; when [artistName] is present
    but the empty string and the nested [artist.name] is present, the
    track's artist is that nested name. *)
Theorem track_name_artist_fall_back_on_falsy
    (data : json) (m : gmap string json) (t : Track.t) :
  data = JObj m →
  Track_init data = inr t →
  (∀ v, m !! "name" = Some (JStr "") → m !! "title" = Some v →
        Track.name t = v) ∧
  (∀ ar w, m !! "artistName" = Some (JStr "") →
           m !! "artist" = Some (JObj ar) → ar !! "name" = Some w →
           Track.artist t = w).
Proof.
  intros -> H. apply not_found_in_ok in H.
  apply Track_fields_name_artist in H as (n0 & a0 & Hn0 & Hn & Ha0 & Ha).
  simpl in Hn0, Ha0. injection Hn0 as <-. injection Ha0 as <-.
  split.
  - intros v Hname Htitle. rewrite Hname in Hn. simpl in Hn.
    rewrite py_or_falsy in Hn by reflexivity.
    simpl in Hn. rewrite Htitle in Hn. congruence.
  - intros ar w Hname Har Hw. rewrite Hname in Ha. simpl in Ha.
    rewrite py_or_falsy in Ha by reflexivity.
    simpl in Ha. rewrite Har in Ha. simpl in Ha. rewrite Hw in Ha.
    simpl in Ha. congruence.
Qed.

Lemma track_name_artist_fall_back_on_falsy_witness :
  Track.name Fixtures.blue_in_green = JStr "Blue in Green" ∧
  Track.artist Fixtures.blue_in_green = JStr "Miles Davis".
Proof.
  destruct (track_name_artist_fall_back_on_falsy
              (JObj Fixtures.blank_named_track) Fixtures.blank_named_track
              Fixtures.blue_in_green eq_refl) as [Hn Ha].
  - vm_compute. reflexivity.
  - split.
    + apply Hn; vm_compute; reflexivity.
    + apply (Ha (list_to_map [("name", JStr "Miles Davis")]));
        vm_compute; reflexivity.
Defined.

Lemma se_bind_ok {S A B} (m : SE S A) (k : A → SE S B) (s s' : S) (b : B) :
  se_bind m k s = (inr b, s') →
  ∃ a s1, m s = (inr a, s1) ∧ k a s1 = (inr b, s').
Proof.
  unfold se_bind. destruct (m s) as [[e|a] s1]; [discriminate | eauto].
Qed.

Lemma se_lift_ok {S A} (r : result A) (s s' : S) (a : A) :
  se_lift r s = (inr a, s') → r = inr a ∧ s' = s.
Proof. unfold se_lift. intros [= -> ->]. auto. Qed.

Lemma assign_ok {O A} (set : A → O → O) (e : result A) (s s' : O) (u : unit) :
  assign set e s = (inr u, s') → ∃ v, e = inr v ∧ s' = set v s.
Proof.
  unfold assign. intros H.
  apply se_bind_ok in H as (v & s1 & Hv & H).
  apply se_lift_ok in Hv as [-> ->].
  unfold se_modify in H. injection H as _ <-. eauto.
Qed.

(** Split a successful chain of assignments at its head. *)
Ltac assign_ok H :=
  let u := fresh "u" in
  let s1 := fresh "s" in
  let v := fresh "v" in
  let Hu := fresh "Hu" in
  let Hv := fresh "Hv" in
  apply se_bind_ok in H as (u & s1 & Hu & H);
  apply assign_ok in Hu as (v & Hv & ->).

(** Every [KeyError] that leaves [Track] echoes the payload. *)
Lemma Track_init_KeyError_echoes (data : json) (a : kearg) :
  Track_init data = inl (KeyError a) → ∃ k, a = NotFoundIn k data.
Proof.
  unfold Track_init, not_found_in.
  destruct (Track_fields data) as [[]|]; intros [= <-] || discriminate.
  eauto.
Qed.

(** The track of the sample payload: the identifier falls back on the
    ASIN and the duration is read from [durationInSeconds]. *)
Example Track_init_sample :
  Track_init (JObj Fixtures.blank_named_track) = inr Fixtures.blue_in_green.
Proof. vm_compute. reflexivity. Qed.

(** A payload without [album] names that field and echoes itself. *)
Example Track_init_without_album :
  Track_init (dict [("name", JStr "So What"); ("artistName", JStr "Miles Davis")])
  = inl (KeyError (NotFoundIn (Key (JStr "album"))
                     (dict [("name", JStr "So What");
                            ("artistName", JStr "Miles Davis")]))).
Proof. vm_compute. reflexivity. Qed.

(** The library filter: three tracks are too few, four with prime status
    pass. *)
Example library_filter_three_tracks :
  library_filter (dict [("numTracks", JNum 3);
                        ("metadata", dict [("primeStatus", JStr "PRIME")])])
  = inr false.
Proof. vm_compute. reflexivity. Qed.

Example library_filter_four_tracks :
  library_filter (dict [("numTracks", JNum 4);
                        ("metadata", dict [("primeStatus", JStr "PRIME")])])
  = inr true.
Proof. vm_compute. reflexivity. Qed.

(** ** Album normalization *)

Lemma py_item_at_path (d : json) (k : string) (v : json) (p : list string) :
  py_item d k = inr v → at_path d (k :: p) = at_path v p.
Proof.
  destruct d; simpl; try discriminate.
  destruct (m !! k); [|discriminate]. congruence.
Qed.

Lemma Album_init_summary (s : json) (a : Album.t) :
  summary_shape s → Album_init s = inr a →
  at_path s ["metadata"; "albumAsin"] = Some (Album.id a) ∧
  at_path s ["metadata"; "albumName"] = Some (Album.name a) ∧
  at_path s ["metadata"; "albumArtistName"] = Some (Album.artist a) ∧
  at_path s ["metadata"; "primaryGenre"] = Some (Album.genre a) ∧
  at_path s ["numTracks"] = Some (Album.track_count a) ∧
  at_path s ["metadata"] = Some (Album.json_ a) ∧
  Album.rating a = JNull ∧ Album.release_date a = None.
Proof.
  unfold summary_shape, Album_init. intros Hs H.
  destruct (Album___init__ s Album.blank) as [[e|[]] a'] eqn:Hi;
    [discriminate|]. injection H as ->.
  unfold Album___init__ in Hi.
  assign_ok Hi.
  apply se_bind_ok in Hi as (b & s1 & Hb & Hi).
  apply se_lift_ok in Hb as [Hb ->]. rewrite Hs in Hb. injection Hb as <-.
  assign_ok Hi.
  apply se_bind_ok in Hi as (md & s1 & Hmd & Hi).
  apply se_lift_ok in Hmd as [Hmd ->].
  do 7 assign_ok Hi.
  apply assign_ok in Hi as (v8 & Hv8 & ->).
  injection Hv as <-. injection Hv1 as <-.
  injection Hv7 as <-. injection Hv8 as <-.
  rewrite !(py_item_at_path _ _ _ _ Hmd).
  rewrite (py_item_at_path _ _ _ _ Hv2).
  rewrite (py_item_at_path _ _ _ _ Hv4).
  rewrite (py_item_at_path _ _ _ _ Hv5).
  rewrite (py_item_at_path _ _ _ _ Hv6).
  rewrite (py_item_at_path _ _ _ _ Hv0).
  simpl. repeat split; reflexivity.
Qed.

Lemma Album_init_full (f : json) (b : Album.t) :
  full_shape f → Album_init f = inr b →
  at_path f ["asin"] = Some (Album.id b) ∧
  at_path f ["title"] = Some (Album.name b) ∧
  at_path f ["artist"; "name"] = Some (Album.artist b) ∧
  (∃ pd, py_item f "productDetails" = inr pd ∧
         py_get pd "primaryGenreName" JNull = inr (Album.genre b)) ∧
  Album.json_ b = f.
Proof.
  unfold full_shape, Album_init. intros Hs H.
  destruct (Album___init__ f Album.blank) as [[e|[]] a'] eqn:Hi;
    [discriminate|]. injection H as ->.
  unfold Album___init__ in Hi.
  assign_ok Hi.
  apply se_bind_ok in Hi as (c & s1 & Hc & Hi).
  apply se_lift_ok in Hc as [Hc ->]. rewrite Hs in Hc. injection Hc as <-.
  do 7 assign_ok Hi.
  apply assign_ok in Hi as (v8 & Hv8 & ->).
  injection Hv as <-.
  apply rbind_ok in Hv3 as (ar & Har & Hv3).
  apply rbind_ok in Hv4 as (pd & Hpd & Hv4).
  rewrite (py_item_at_path _ _ _ _ Hv0).
  rewrite (py_item_at_path _ _ _ _ Hv2).
  rewrite (py_item_at_path _ _ _ _ Har).
  rewrite (py_item_at_path _ _ _ _ Hv3).
  simpl. repeat split; eauto.
Qed.

(** C6: an album normalized from the summary shape and one normalized
    from the full shape, carrying equivalent field values, have the same
    id, name, artist and genre; and every album normalized from the summary
    shape has rating None and release date None. *)
Theorem album_shapes_agree (s f : json) (a b : Album.t) :
  summary_shape s → full_shape f → equivalent_fields s f →
  Album_init s = inr a → Album_init f = inr b →
  (Album.id a = Album.id b ∧ Album.name a = Album.name b ∧
   Album.artist a = Album.artist b ∧ Album.genre a = Album.genre b) ∧
  (Album.rating a = JNull ∧ Album.release_date a = None).
Proof.
  intros Hs Hf (Ei & En & Ea & Eg) Ha Hb.
  destruct (Album_init_summary s a Hs Ha)
    as (Si & Sn & Sa & Sg & _ & _ & Sr & Sd).
  destruct (Album_init_full f b Hf Hb)
    as (Fi & Fn & Fa & (pd & Hpd & Fg) & _).
  split; [|auto].
  rewrite Si, Fi in Ei. rewrite Sn, Fn in En. rewrite Sa, Fa in Ea.
  injection Ei as Ei. injection En as En. injection Ea as Ea.
  repeat split; try assumption.
  rewrite Sg in Eg.
  rewrite (py_item_at_path _ _ _ _ Hpd) in Eg.
  destruct pd; simpl in Eg, Fg; try discriminate.
  destruct (m !! "primaryGenreName"); [|discriminate].
  simpl in Fg. congruence.
Qed.

Lemma album_shapes_agree_witness :
  (Album.id Fixtures.summary_album_obj = Album.id Fixtures.full_album_obj ∧
   Album.name Fixtures.summary_album_obj = Album.name Fixtures.full_album_obj ∧
   Album.artist Fixtures.summary_album_obj
     = Album.artist Fixtures.full_album_obj ∧
   Album.genre Fixtures.summary_album_obj
     = Album.genre Fixtures.full_album_obj) ∧
  (Album.rating Fixtures.summary_album_obj = JNull ∧
   Album.release_date Fixtures.summary_album_obj = None).
Proof.
  apply (album_shapes_agree Fixtures.summary_album Fixtures.full_album).
  - vm_compute. reflexivity.
  - vm_compute. reflexivity.
  - vm_compute. repeat split; reflexivity.
  - vm_compute. reflexivity.
  - vm_compute. reflexivity.
Defined.

(** ** Missing fields *)

(** C3, evaluated where the code departs from it: on a payload that lacks
    the required fields, [Track] raises the [KeyError] that names the field
    and echoes the payload, while [Album], [Playlist] and [Station] raise
    the bare [KeyError] that only names the field. *)
Theorem missing_field_is_echoed_by_Track_only :
  Track_init Fixtures.only_a_title
    = raise (KeyError (NotFoundIn (Key (JStr "artist"))
                         Fixtures.only_a_title)) ∧
  Album_init Fixtures.only_a_title = raise (KeyError (Key (JStr "asin"))) ∧
  Playlist_init Fixtures.only_a_title
    = raise (KeyError (Key (JStr "asin"))) ∧
  Station_init (JStr "A2UW0MECRAWILL") Fixtures.only_a_title
    = raise (KeyError (Key (JStr "queue"))).
Proof. vm_compute. repeat split; reflexivity. Qed.

(** ** [call] and the cookie store *)

Lemma AmazonMusic_call_answered self ep tg q w cs r rest :
  transport w = Responds cs r :: rest →
  AmazonMusic_call self ep tg q w
  = (response_json r,
     (cookies_save (after_send (call_request self ep tg q) cs rest w)).2).
Proof.
  intros Ht. unfold AmazonMusic_call, se_bind, session_send.
  replace (target_url (call_request self ep tg q))
    with (Some (AmazonMusic.url self +:+ "/" +:+ AmazonMusic.region self
                +:+ "/api/" +:+ ep)) by (destruct tg; reflexivity).
  rewrite Ht. reflexivity.
Qed.

Lemma AmazonMusic_call_unanswered self ep tg q w :
  (∀ cs r rest, transport w ≠ Responds cs r :: rest) →
  AmazonMusic_call self ep tg q w
  = (raise TransportError,
     match transport w with
     | Fails cs :: rest => after_send (call_request self ep tg q) cs rest w
     | _ => after_send (call_request self ep tg q) [] [] w
     end).
Proof.
  intros Ht. unfold AmazonMusic_call, se_bind, session_send.
  replace (target_url (call_request self ep tg q))
    with (Some (AmazonMusic.url self +:+ "/" +:+ AmazonMusic.region self
                +:+ "/api/" +:+ ep)) by (destruct tg; reflexivity).
  destruct (transport w) as [|[cs r|cs] rest]; try reflexivity.
  exfalso. eapply Ht. reflexivity.
Qed.

(** Every [call] sends exactly one request. *)
Lemma AmazonMusic_call_sent self ep tg q w :
  sent (AmazonMusic_call self ep tg q w).2
  = sent w ++ [call_request self ep tg q].
Proof.
  destruct (transport w) as [|[cs r|cs] rest] eqn:Ht.
  - rewrite AmazonMusic_call_unanswered by (rewrite Ht; congruence).
    rewrite Ht. reflexivity.
  - erewrite AmazonMusic_call_answered by eassumption. reflexivity.
  - rewrite AmazonMusic_call_unanswered by (rewrite Ht; congruence).
    rewrite Ht. reflexivity.
Qed.

(** [call] raises what the transport or the decoder raises, nothing else. *)
Lemma AmazonMusic_call_raises self ep tg q w e :
  (AmazonMusic_call self ep tg q w).1 = inl e →
  e = TransportError ∨ e = ValueError.
Proof.
  destruct (transport w) as [|[cs r|cs] rest] eqn:Ht.
  - rewrite AmazonMusic_call_unanswered by (rewrite Ht; congruence).
    simpl. intros [= <-]. auto.
  - erewrite AmazonMusic_call_answered by eassumption. simpl.
    unfold response_json. destruct (body r); intros [= <-]. auto.
  - rewrite AmazonMusic_call_unanswered by (rewrite Ht; congruence).
    simpl. intros [= <-]. auto.
Qed.

(** C2, as the code has it: when the transport answers, whether or not
    the answer then decodes, [call] saves the cookie store after the post;
    when the transport raises, [call] propagates the error and saves
    nothing. *)
Theorem call_saves_cookies_when_answered self ep tg q w :
  match transport w with
  | Responds cs r :: rest =>
      (AmazonMusic_call self ep tg q w).1 = response_json r ∧
      saved_after w (AmazonMusic_call self ep tg q w).2 ∧
      jar (AmazonMusic_call self ep tg q w).2 = set_all cs (jar w)
  | _ =>
      (AmazonMusic_call self ep tg q w).1 = raise TransportError ∧
      saves (AmazonMusic_call self ep tg q w).2 = saves w ∧
      disk (AmazonMusic_call self ep tg q w).2 = disk w
  end.
Proof.
  destruct (transport w) as [|[cs r|cs] rest] eqn:Ht.
  - rewrite AmazonMusic_call_unanswered by (rewrite Ht; congruence).
    rewrite Ht. auto.
  - erewrite AmazonMusic_call_answered by eassumption.
    unfold saved_after. simpl. auto.
  - rewrite AmazonMusic_call_unanswered by (rewrite Ht; congruence).
    rewrite Ht. auto.
Qed.

(** C2 fails as stated: the connection drops after a hop has refreshed a
    cookie; [call] raises, the jar holds the fresh cookie, and the file
    still holds the stale one, unsaved. *)
Lemma call_leaves_cookies_unsaved_when_transport_fails :
  let w := Fixtures.dropping_world in
  let w' := (AmazonMusic_call Fixtures.session "dmls/"
               (Some getRestrictedStreamingURL) (dict []) w).2 in
  jar w' !! "session-token" = Some (Fixtures.lasting_cookie "fresh") ∧
  disk w' = Some {["session-token" := Fixtures.lasting_cookie "stale"]} ∧
  saves w' = saves w ∧
  ¬ saved_after w w'.
Proof.
  vm_compute. repeat split; try reflexivity.
  intros [H _]. discriminate H.
Qed.

(** ** [Track.url] and the concurrent-stream cap *)

Lemma is_str_true (k : string) (v : json) : is_str k v = true → v = JStr k.
Proof.
  destruct v; simpl; try discriminate.
  intros H. apply String.eqb_eq in H. congruence.
Qed.

(** Where the status test holds, the status is the cap's name. *)
Lemma max_concurrency_reached_true (sj : json) :
  max_concurrency_reached sj = inr true →
  py_item sj "statusCode" = inr (JStr "MAX_CONCURRENCY_REACHED").
Proof.
  unfold max_concurrency_reached. intros H.
  apply rbind_ok in H as (has & Hhas & H).
  destruct has; [|discriminate].
  apply rbind_ok in H as (sc & Hsc & H).
  injection H as H. apply is_str_true in H. congruence.
Qed.

(** What [Track.url] does once the stream lookup has answered [sj]. *)
Lemma Track_url_answered amzn t w cs r sj rest :
  Track._url t = JNull →
  transport w = Responds cs r :: rest →
  body r = Some sj →
  max_concurrency_reached sj = inr true →
  Track_url amzn (t, w)
  = (raise (PyException (JStr "MAX_CONCURRENCY_REACHED")),
     (t, (cookies_save (after_send (stream_request amzn t) cs rest w)).2)).
Proof.
  intros Hu Ht Hb Hc.
  unfold Track_url, se_bind at 1. unfold get_self at 1. simpl.
  rewrite Hu. unfold se_bind, on_world. simpl.
  erewrite AmazonMusic_call_answered by eassumption.
  unfold response_json. rewrite Hb. unfold se_lift. rewrite Hc.
  rewrite (max_concurrency_reached_true sj Hc). reflexivity.
Qed.

Lemma py_in_classed k d e : py_in k d = inl e → classed e.
Proof. destruct d; simpl; intros [= <-]; discriminate. Qed.

Lemma py_item_classed d k e : py_item d k = inl e → classed e.
Proof.
  destruct d; simpl; try (intros [= <-]; discriminate).
  destruct (m !! k); intros [= <-]; discriminate.
Qed.

Lemma py_first_classed d e : py_first d = inl e → classed e.
Proof.
  destruct d as [| | |s|l|m]; simpl; try (intros [= <-]; discriminate).
  - destruct s; intros [= <-]; discriminate.
  - destruct l; intros [= <-]; discriminate.
Qed.

Lemma rbind_classed {A B} (m : result A) (k : A → result B) e :
  (∀ e', m = inl e' → classed e') →
  (∀ a e', k a = inl e' → classed e') →
  rbind m k = inl e → classed e.
Proof.
  intros Hm Hk. destruct m as [e'|a]; simpl.
  - intros [= <-]. apply Hm. reflexivity.
  - apply Hk.
Qed.

Lemma not_found_in_classed {A} d (m : result A) e :
  (∀ e', m = inl e' → classed e') →
  not_found_in d m = inl e → classed e.
Proof.
  destruct m as [e'|]; simpl; [|discriminate].
  intros H. destruct e'; intros [= <-]; try discriminate; eauto.
Qed.

Lemma max_concurrency_reached_classed sj e :
  max_concurrency_reached sj = inl e → classed e.
Proof.
  unfold max_concurrency_reached. apply rbind_classed.
  - apply py_in_classed.
  - intros [] e'; [|discriminate].
    apply rbind_classed; [apply py_item_classed | discriminate].
Qed.

(** The only plain [Exception] that [Track.url] raises is the cap. *)
Lemma Track_url_plain_Exception amzn s x :
  (Track_url amzn s).1 = inl (PyException x) →
  x = JStr "MAX_CONCURRENCY_REACHED".
Proof.
  destruct s as [t w].
  unfold Track_url, se_bind at 1. unfold get_self at 1. simpl.
  destruct (Track._url t); try (simpl; discriminate).
  unfold se_bind, on_world. simpl.
  destruct (AmazonMusic_call amzn "dmls/" (Some getRestrictedStreamingURL)
              (Track_url_query amzn t) w) as [[e|sj] w'] eqn:Hcall.
  - simpl. intros [= ->].
    destruct (AmazonMusic_call_raises amzn "dmls/"
                (Some getRestrictedStreamingURL) (Track_url_query amzn t) w
                (PyException x)); [rewrite Hcall; reflexivity | | ];
      discriminate.
  - unfold se_lift.
    destruct (max_concurrency_reached sj) as [e|[]] eqn:Hc.
    + simpl. intros [= ->].
      apply max_concurrency_reached_classed in Hc. exfalso. apply Hc.
      reflexivity.
    + rewrite (max_concurrency_reached_true sj Hc). simpl. congruence.
    + destruct (not_found_in sj _) as [e|u] eqn:Hn.
      * simpl. intros [= ->]. exfalso.
        apply not_found_in_classed in Hn; [apply Hn; reflexivity|].
        intros e'. apply rbind_classed; [apply py_item_classed|].
        intros cr e''. apply rbind_classed; [apply py_item_classed|].
        intros ul. apply py_first_classed.
      * simpl. discriminate.
Qed.

(** C9, as the code has it: when the stream lookup reports the cap,
    [Track.url] raises a plain [Exception] (the root class, there is no
    class of its own) whose argument is the status
    ['MAX_CONCURRENCY_REACHED']; the lookup was sent once and is not
    retried, and no URL is memoized.  That argument is what makes it
    recognizable: no other failure of [Track.url] is a plain [Exception]. *)
Theorem concurrency_cap_raises_plain_Exception amzn t w cs r sj rest :
  Track._url t = JNull →
  transport w = Responds cs r :: rest →
  body r = Some sj →
  max_concurrency_reached sj = inr true →
  ((Track_url amzn (t, w)).1
     = raise (PyException (JStr "MAX_CONCURRENCY_REACHED")) ∧
   class_of (PyException (JStr "MAX_CONCURRENCY_REACHED")) = ClsException ∧
   sent (Track_url amzn (t, w)).2.2 = sent w ++ [stream_request amzn t] ∧
   transport (Track_url amzn (t, w)).2.2 = rest ∧
   (Track_url amzn (t, w)).2.1 = t) ∧
  (∀ s x, (Track_url amzn s).1 = inl (PyException x) →
          x = JStr "MAX_CONCURRENCY_REACHED").
Proof.
  intros Hu Ht Hb Hc. split.
  - rewrite (Track_url_answered amzn t w cs r sj rest Hu Ht Hb Hc).
    simpl. auto.
  - intros s x. apply Track_url_plain_Exception.
Qed.

Lemma concurrency_cap_raises_plain_Exception_witness :
  (Track_url Fixtures.session
     (Fixtures.blue_in_green, Fixtures.capped_world)).1
  = raise (PyException (JStr "MAX_CONCURRENCY_REACHED")).
Proof.
  refine (proj1 (proj1 (concurrency_cap_raises_plain_Exception
            Fixtures.session Fixtures.blue_in_green Fixtures.capped_world
            [] _ (dict [("statusCode", JStr "MAX_CONCURRENCY_REACHED")]) []
            _ _ _ _))); vm_compute; reflexivity.
Defined.

(** C9 fails as stated: the error raised for the cap is an instance of the
    root class [Exception], not of a class that sets it apart. *)
Lemma concurrency_cap_error_is_generic :
  ¬ ∃ e, (Track_url Fixtures.session
            (Fixtures.blue_in_green, Fixtures.capped_world)).1 = inl e ∧
         class_of e ≠ ClsException.
Proof.
  intros (e & He & Hcls). vm_compute in He. injection He as <-.
  apply Hcls. reflexivity.
Qed.

(** ** [Album.tracks] and the lazy upgrade *)

(** [AmazonMusic.album] changes the world as its one [call] does. *)
Lemma AmazonMusic_album_world amzn id w :
  (AmazonMusic_album amzn id w).2
  = (AmazonMusic_call amzn "muse/legacy/lookup"
       (Some MusicEnsembleService_lookup) (lookup_query amzn id) w).2.
Proof.
  unfold AmazonMusic_album, se_bind.
  destruct (AmazonMusic_call _ _ _ _ w) as [[e|resp] w']; [reflexivity|].
  unfold se_lift. destruct (rbind _ _); reflexivity.
Qed.

(** [Album.tracks] on an object whose JSON has no tracks: the lookup, the
    re-initialization of the object, then the listing. *)
Lemma Album_tracks_missing amzn a w :
  py_in "tracks" (Album.json_ a) = inr false →
  Album_tracks amzn (a, w)
  = match AmazonMusic_album amzn (Album.id a) w with
    | (inl e, w') => (inl e, (a, w'))
    | (inr full, w') =>
        match Album___init__ (Album.json_ full) a with
        | (inl e, a') => (inl e, (a', w'))
        | (inr _, a') => (track_list (Album.json_ a'), (a', w'))
        end
    end.
Proof.
  intros H. unfold Album_tracks, se_bind, get_self, se_lift. simpl.
  rewrite H. simpl. unfold on_world, on_self. simpl.
  destruct (AmazonMusic_album amzn (Album.id a) w) as [[e|full] w'];
    [reflexivity|]. simpl.
  destruct (Album___init__ (Album.json_ full) a) as [[e|u] a']; reflexivity.
Qed.

(** [Album.tracks] on an object whose JSON has tracks: the listing only. *)
Lemma Album_tracks_present amzn a w :
  py_in "tracks" (Album.json_ a) = inr true →
  Album_tracks amzn (a, w) = (track_list (Album.json_ a), (a, w)).
Proof.
  intros H. unfold Album_tracks, se_bind, get_self, se_lift. simpl.
  rewrite H. reflexivity.
Qed.

Lemma track_list_ok_has_tracks j ts :
  track_list j = inr ts → py_in "tracks" j = inr true.
Proof.
  unfold track_list. intros H. apply rbind_ok in H as (x & Hx & _).
  destruct j; simpl in Hx; try discriminate. simpl.
  destruct (m !! "tracks"); [reflexivity | discriminate].
Qed.

(** Re-run on a record in the full shape, [__init__] leaves that record
    as the JSON of the object, however far it gets. *)
Lemma Album___init___full_json data a :
  full_shape data → Album.json_ (Album___init__ data a).2 = data.
Proof.
  unfold full_shape, Album___init__. intros Hf.
  unfold assign, se_bind, se_lift, se_modify. rewrite Hf. cbn.
  repeat match goal with
         | |- context [match ?r with inl _ => _ | inr _ => _ end] =>
             destruct r; cbn
         end; reflexivity.
Qed.

(** [Album.tracks] on an object whose JSON has no tracks sends the one
    lookup of the album by its id. *)
Lemma Album_tracks_missing_sent amzn a w :
  py_in "tracks" (Album.json_ a) = inr false →
  sent (Album_tracks amzn (a, w)).2.2
  = sent w ++ [lookup_request amzn (Album.id a)].
Proof.
  intros H. rewrite (Album_tracks_missing amzn a w H).
  pose proof (AmazonMusic_album_world amzn (Album.id a) w) as Hw.
  pose proof (AmazonMusic_call_sent amzn "muse/legacy/lookup"
                (Some MusicEnsembleService_lookup)
                (lookup_query amzn (Album.id a)) w) as Hs.
  rewrite <- Hw in Hs. fold (lookup_request amzn (Album.id a)) in Hs.
  destruct (AmazonMusic_album amzn (Album.id a) w) as [[e|full] w'];
    [exact Hs|].
  destruct (Album___init__ (Album.json_ full) a) as [[e|u] a']; exact Hs.
Qed.

(** C7, as the code has it.  On an album whose JSON lacks [tracks] (as one
    built from the summary shape does), [tracks()] sends exactly one
    request, the lookup of the album by its id, and the object is
    re-initialized in place from the record fetched.  Once [tracks()] has
    returned, further [tracks()] calls on the object send nothing and
    return the same list.  In general a further call sends nothing where
    the JSON the object then holds has [tracks], and sends the lookup once
    more where it has none: it has none when the lookup failed, and a
    record fetched in the full shape is the JSON the object then holds. *)
Theorem album_tracks_refetches_while_tracks_absent amzn a w :
  py_in "tracks" (Album.json_ a) = inr false →
  sent (Album_tracks amzn (a, w)).2.2
    = sent w ++ [lookup_request amzn (Album.id a)] ∧
  (∀ full, (AmazonMusic_album amzn (Album.id a) w).1 = inr full →
           (Album_tracks amzn (a, w)).2.1
           = (Album___init__ (Album.json_ full) a).2) ∧
  (∀ ts, (Album_tracks amzn (a, w)).1 = inr ts →
         ∀ w2, Album_tracks amzn ((Album_tracks amzn (a, w)).2.1, w2)
               = (inr ts, ((Album_tracks amzn (a, w)).2.1, w2))) ∧
  (∀ a', a' = (Album_tracks amzn (a, w)).2.1 →
     (py_in "tracks" (Album.json_ a') = inr true →
      ∀ w2, Album_tracks amzn (a', w2)
            = (track_list (Album.json_ a'), (a', w2))) ∧
     (py_in "tracks" (Album.json_ a') = inr false →
      ∀ w2, sent (Album_tracks amzn (a', w2)).2.2
            = sent w2 ++ [lookup_request amzn (Album.id a')]) ∧
     (∀ e, (AmazonMusic_album amzn (Album.id a) w).1 = inl e → a' = a) ∧
     (∀ full, (AmazonMusic_album amzn (Album.id a) w).1 = inr full →
              full_shape (Album.json_ full) →
              Album.json_ a' = Album.json_ full)).
Proof.
  intros H. split; [apply Album_tracks_missing_sent; assumption|].
  rewrite (Album_tracks_missing amzn a w H).
  destruct (AmazonMusic_album amzn (Album.id a) w) as [[e|full] w'].
  - simpl. split; [discriminate|]. split; [discriminate|].
    intros a' ->. repeat split.
    + intros Hp w2. apply Album_tracks_present. assumption.
    + intros Hp w2. apply Album_tracks_missing_sent. assumption.
    + discriminate.
  - pose proof (Album___init___full_json (Album.json_ full) a) as Hjson.
    destruct (Album___init__ (Album.json_ full) a) as [[e|u] a0] eqn:Hi;
      simpl in *.
    + split; [intros full' [= <-]; rewrite Hi; reflexivity|].
      split; [discriminate|].
      intros a' ->. repeat split.
      * intros Hp w2. apply Album_tracks_present. assumption.
      * intros Hp w2. apply Album_tracks_missing_sent. assumption.
      * discriminate.
      * intros full' [= <-]. exact Hjson.
    + split; [intros full' [= <-]; rewrite Hi; reflexivity|].
      split.
      * intros ts Hts w2.
        rewrite Album_tracks_present
          by (eapply track_list_ok_has_tracks; eassumption).
        rewrite Hts. reflexivity.
      * intros a' ->. repeat split.
        -- intros Hp w2. apply Album_tracks_present. assumption.
        -- intros Hp w2. apply Album_tracks_missing_sent. assumption.
        -- discriminate.
        -- intros full' [= <-]. exact Hjson.
Qed.

Lemma album_tracks_refetches_while_tracks_absent_witness :
  sent (Album_tracks Fixtures.session
          (Fixtures.summary_album_obj, Fixtures.lookup_world)).2.2
  = sent Fixtures.lookup_world
      ++ [lookup_request Fixtures.session (JStr "B00J9AEZ7G")] ∧
  Album_tracks Fixtures.session (Fixtures.full_album_obj, Fixtures.capped_world)
  = (inr [Fixtures.blue_in_green],
     (Fixtures.full_album_obj, Fixtures.capped_world)).
Proof.
  destruct (album_tracks_refetches_while_tracks_absent Fixtures.session
              Fixtures.summary_album_obj Fixtures.lookup_world)
    as (Hsent & Hinit & Hnext & _).
  - vm_compute. reflexivity.
  - split.
    + exact Hsent.
    + assert (Hobj : (Album_tracks Fixtures.session
                        (Fixtures.summary_album_obj,
                         Fixtures.lookup_world)).2.1
                     = Fixtures.full_album_obj)
        by (vm_compute; reflexivity).
      rewrite <- Hobj. apply Hnext. vm_compute. reflexivity.
Defined.

(** C7 fails as stated: the catalog answers the lookup with a full record
    that lists no tracks.  The first [tracks()] on the album built from the
    summary re-fetches, upgrades the object in place and raises
    [KeyError('tracks')]; the second and the third [tracks()] on the
    upgraded object each re-fetch again. *)
Lemma upgraded_album_without_tracks_refetches_again :
  let amzn := Fixtures.session in
  let look := lookup_request amzn (JStr "B00J9AEZ7G") in
  let first := Album_tracks amzn (Fixtures.summary_album_obj,
                                  Fixtures.trackless_world) in
  let second := Album_tracks amzn first.2 in
  let third := Album_tracks amzn second.2 in
  Album_init Fixtures.summary_album = inr Fixtures.summary_album_obj ∧
  py_in "tracks" (Album.json_ Fixtures.summary_album_obj) = inr false ∧
  first.1 = raise (KeyError (Key (JStr "tracks"))) ∧
  first.2.1 = Fixtures.trackless_album_obj ∧
  Album_init Fixtures.trackless_album = inr Fixtures.trackless_album_obj ∧
  sent first.2.2 = [look] ∧
  second.2.1 = Fixtures.trackless_album_obj ∧
  sent second.2.2 = [look; look] ∧
  sent third.2.2 = [look; look; look] ∧
  sent second.2.2 ≠ sent first.2.2.
Proof.
  cbv zeta. repeat (split; [vm_compute; reflexivity|]).
  intros H. apply (f_equal length) in H. vm_compute in H. discriminate H.
Qed.

(** ** The library listing *)

Lemma consume_S_prepend n self g w a g' w' :
  albums_step self g w = (Yielded a, g', w') →
  consume (S n) self g w = prepend [a] (consume n self g' w').
Proof.
  intros H. simpl. rewrite H.
  destruct (consume n self g' w') as [[[ys p] g''] w'']. reflexivity.
Qed.

Lemma consume_S_tau n self g w g' w' :
  albums_step self g w = (Tau, g', w') →
  consume (S n) self g w = consume n self g' w'.
Proof. intros H. simpl. rewrite H. reflexivity. Qed.

Lemma prepend_nil x : prepend [] x = x.
Proof. destruct x as [[[ys p] g] w]. reflexivity. Qed.

Lemma prepend_app a b x : prepend a (prepend b x) = prepend (a ++ b) x.
Proof.
  destruct x as [[[ys p] g] w]. unfold prepend. simpl.
  rewrite app_assoc. reflexivity.
Qed.

(** The top half of the loop on one item. *)
Lemma albums_step_head self q data r rest w keep ys :
  library_filter r = inr keep →
  (if keep then let* a := Album_init r in ok [a] else ok []) = inr ys →
  ∀ n, consume (S n) self (frame LHead q data (r :: rest)) w
       = prepend ys (consume n self (frame LAfter q data rest) w).
Proof.
  intros Hk Hys n. destruct keep.
  - apply rbind_ok in Hys as (a & Ha & [= <-]).
    apply consume_S_prepend. unfold albums_step. simpl.
    rewrite Hk, Ha. reflexivity.
  - injection Hys as <-. rewrite prepend_nil.
    apply consume_S_tau. unfold albums_step. simpl.
    rewrite Hk. reflexivity.
Qed.

(** The items of the buffer are consumed in order without any call; the
    generator then stands at the refill test with an empty buffer. *)
Lemma consume_buffer self q data w items :
  items ≠ [] →
  ∀ albs, albums_of items = inr albs →
  ∃ n, ∀ m,
    consume (n + m) self (frame LHead q data items) w
    = prepend albs (consume m self (frame LAfter q data []) w).
Proof.
  induction items as [|r items IH]; [congruence|].
  intros _ albs Halbs. simpl in Halbs.
  apply rbind_ok in Halbs as (keep & Hk & Halbs).
  apply rbind_ok in Halbs as (ys & Hys & Halbs).
  apply rbind_ok in Halbs as (more & Hmore & [= <-]).
  destruct items as [|r' items'].
  - injection Hmore as <-. exists 1%nat. intros m.
    rewrite app_nil_r. apply (albums_step_head _ _ _ _ _ _ _ _ Hk Hys).
  - destruct (IH ltac:(congruence) more Hmore) as (n & Hn).
    exists (S (S n)). intros m.
    change (S (S n) + m)%nat with (S (S (n + m))).
    rewrite (albums_step_head _ _ _ _ _ _ _ _ Hk Hys).
    rewrite (consume_S_tau _ _ _ _ (frame LHead q data (r' :: items')) w)
      by reflexivity.
    rewrite Hn. apply prepend_app.
Qed.

(** One [searchLibrary] call against a page. *)
Lemma searchLibrary_serves self q w o rest items tok :
  transport w = o :: rest → serves o items tok →
  ∃ res w',
    searchLibrary self q w = (inr res, w') ∧
    py_item res "searchReturnItemList" = inr (JArr items) ∧
    py_item res "nextResultsToken" = inr tok ∧
    transport w' = rest ∧
    sent w' = sent w ++ [library_request self q].
Proof.
  intros Ht (cs & r & b & x & res & -> & Hb & Hx & Hres & Hitems & Htok).
  exists res. eexists. unfold searchLibrary, se_bind.
  erewrite AmazonMusic_call_answered by eassumption.
  unfold response_json. rewrite Hb. unfold se_lift. rewrite Hx. simpl.
  rewrite Hres. repeat split; eauto.
Qed.

Lemma albums_of_app l1 l2 albs :
  albums_of (l1 ++ l2) = inr albs →
  ∃ a1 a2, albums_of l1 = inr a1 ∧ albums_of l2 = inr a2 ∧ albs = a1 ++ a2.
Proof.
  revert albs. induction l1 as [|r l1 IH]; intros albs H; simpl in *.
  - exists [], albs. auto.
  - apply rbind_ok in H as (keep & Hk & H).
    apply rbind_ok in H as (ys & Hys & H).
    apply rbind_ok in H as (more & Hmore & [= <-]).
    destruct (IH more Hmore) as (a1 & a2 & H1 & H2 & ->).
    exists (ys ++ a1), a2. rewrite Hk. simpl. rewrite Hys. simpl.
    rewrite H1. simpl. rewrite app_assoc. auto.
Qed.

Lemma albums_of_all_pass items albs :
  Forall (λ r, library_filter r = inr true) items →
  py_map Album_init items = inr albs →
  albums_of items = inr albs.
Proof.
  intros Hall. revert albs.
  induction Hall as [|r items Hr _ IH]; intros albs H; simpl in *.
  - assumption.
  - apply rbind_ok in H as (a & Ha & H).
    apply rbind_ok in H as (more & Hmore & [= <-]).
    rewrite Hr. simpl. rewrite Ha. simpl. rewrite (IH more Hmore).
    reflexivity.
Qed.

(** From a loaded page on: the buffer is yielded in order, a truthy token
    fetches the next page once the buffer is empty, a falsy one ends the
    listing. *)
Lemma consume_pages self more :
  ∀ cur q data w outs rest albs,
    py_item data "nextResultsToken" = inr cur.2 →
    chained cur more →
    Forall2 (λ o p, serves o p.1 p.2) outs more →
    transport w = outs ++ rest →
    albums_of (cur.1 ++ concat (more.*1)) = inr albs →
    ∃ n g' w',
      consume n self (frame LHead q data cur.1) w
      = (albs, Completed, g', w') ∧
      transport w' = rest ∧
      sent w' = sent w ++ refetches self q cur.2 more.
Proof.
  induction more as [|p more IH];
    intros [items tok] q data w outs rest albs Htok Hch Hserve Ht Halbs;
    simpl in *.
  - apply Forall2_nil_inv_r in Hserve as ->. simpl in Ht.
    rewrite app_nil_r in *. destruct items as [|r items].
    + injection Halbs as <-. exists 1%nat. do 2 eexists.
      simpl. repeat split; auto.
    + destruct (consume_buffer self q data w (r :: items)
                  ltac:(congruence) albs Halbs) as (n & Hn).
      exists (n + 2)%nat. do 2 eexists. rewrite Hn.
      rewrite (consume_S_tau _ _ _ _ (frame LHead q data []) w).
      * simpl. unfold prepend. simpl. rewrite app_nil_r.
        repeat split; auto.
      * unfold albums_step. simpl. rewrite Htok, Hch. reflexivity.
  - destruct Hch as (Hne & Htruthy & Hch).
    apply Forall2_cons_inv_r in Hserve
      as (o & outs' & Ho & Hserve & ->).
    apply albums_of_app in Halbs as (a1 & a2 & H1 & H2 & ->).
    destruct (consume_buffer self q data w items Hne a1 H1) as (n1 & Hn1).
    set (q' := <["nextResultsToken" := tok]> q).
    destruct (searchLibrary_serves self q' w o (outs' ++ rest) p.1 p.2
                Ht Ho) as (res & w1 & Hcall & Hitems & Htok1 & Ht1 & Hs1).
    destruct (IH p q' res w1 outs' rest a2 Htok1 Hch Hserve Ht1 H2)
      as (n2 & g' & w' & Hrun & Hrest & Hsent).
    exists (n1 + S n2)%nat, g', w'. rewrite Hn1.
    rewrite (consume_S_tau _ _ _ _ (frame LHead q' res p.1) w1).
    + rewrite Hrun. unfold prepend. simpl. repeat split; auto.
      rewrite Hsent, Hs1, <- app_assoc. reflexivity.
    + unfold albums_step. simpl. rewrite Htok, Htruthy.
      fold q'. rewrite Hcall, Hitems. reflexivity.
Qed.

(** The whole listing, from the generator as [albums_in_library()]
    returns it. *)
Lemma consume_library self w cur more o outs rest albs :
  transport w = o :: outs ++ rest →
  serves o cur.1 cur.2 →
  Forall2 (λ o p, serves o p.1 p.2) outs more →
  chained cur more →
  albums_of (cur.1 ++ concat (more.*1)) = inr albs →
  ∃ n g' w',
    consume n self (albums_in_library self) w = (albs, Completed, g', w') ∧
    transport w' = rest ∧
    sent w' = sent w ++ library_request self (library_query self)
                        :: refetches self (library_query self) cur.2 more.
Proof.
  intros Ht Ho Hserve Hch Halbs.
  destruct (searchLibrary_serves self (library_query self) w o
              (outs ++ rest) cur.1 cur.2 Ht Ho)
    as (res & w1 & Hcall & Hitems & Htok1 & Ht1 & Hs1).
  destruct (consume_pages self more cur (library_query self) res w1 outs
              rest albs Htok1 Hch Hserve Ht1 Halbs)
    as (n & g' & w' & Hrun & Hrest & Hsent).
  exists (S n), g', w'.
  rewrite (consume_S_tau _ _ _ _
             (frame LHead (library_query self) res cur.1) w1).
  - repeat split; auto. rewrite Hsent, Hs1, <- app_assoc. reflexivity.
  - unfold albums_step, albums_in_library. simpl.
    rewrite Hcall, Hitems. reflexivity.
Qed.

(** C4: against a first page [a, b, c] with a token and a second page
    [d, e] with token null, all five passing the filter, the listing yields
    the five albums in that order, once each, and sends one request after
    the first; in general the albums are yielded in the order of the pages
    and of the items in them, none moved and none dropped as a duplicate. *)
Theorem library_listing_in_upstream_order self w :
  (∀ a b c d e T1 o1 o2 rest albs,
     transport w = o1 :: o2 :: rest →
     serves o1 [a; b; c] T1 → truthy T1 = true →
     serves o2 [d; e] JNull →
     Forall (λ r, library_filter r = inr true) [a; b; c; d; e] →
     py_map Album_init [a; b; c; d; e] = inr albs →
     ∃ n g' w',
       consume n self (albums_in_library self) w
       = (albs, Completed, g', w') ∧
       transport w' = rest ∧
       sent w' = sent w ++
         [library_request self (library_query self);
          library_request self
            (<["nextResultsToken" := T1]> (library_query self))]) ∧
  (∀ cur more o outs rest albs,
     transport w = o :: outs ++ rest →
     serves o cur.1 cur.2 →
     Forall2 (λ o p, serves o p.1 p.2) outs more →
     chained cur more →
     albums_of (cur.1 ++ concat (more.*1)) = inr albs →
     ∃ n g' w',
       consume n self (albums_in_library self) w
       = (albs, Completed, g', w') ∧
       transport w' = rest ∧
       sent w' = sent w ++ library_request self (library_query self)
                           :: refetches self (library_query self) cur.2 more).
Proof.
  split.
  - intros a b c d e T1 o1 o2 rest albs Ht H1 HT1 H2 Hpass Halbs.
    apply (consume_library self w ([a; b; c], T1) [([d; e], JNull)]
             o1 [o2] rest albs).
    + exact Ht.
    + exact H1.
    + repeat constructor. exact H2.
    + simpl. auto.
    + apply albums_of_all_pass; assumption.
  - intros cur more o outs rest albs. apply consume_library.
Qed.

Lemma library_listing_in_upstream_order_witness :
  ∃ n g' w',
    consume n Fixtures.session (albums_in_library Fixtures.session)
      Fixtures.two_page_world
    = (Fixtures.five_albums, Completed, g', w') ∧
    transport w' = [] ∧
    sent w' = sent Fixtures.two_page_world ++
      [library_request Fixtures.session (library_query Fixtures.session);
       library_request Fixtures.session
         (<["nextResultsToken" := JStr "T1"]>
            (library_query Fixtures.session))].
Proof.
  apply (proj1 (library_listing_in_upstream_order Fixtures.session
                  Fixtures.two_page_world)
           Fixtures.entry_a Fixtures.entry_b Fixtures.entry_c
           Fixtures.entry_d Fixtures.entry_e (JStr "T1")
           Fixtures.page_one Fixtures.page_two []).
  - reflexivity.
  - do 5 eexists. repeat split; vm_compute; reflexivity.
  - reflexivity.
  - do 5 eexists. repeat split; vm_compute; reflexivity.
  - repeat constructor; vm_compute; reflexivity.
  - vm_compute. reflexivity.
Defined.

(** ** The paginated fetchers *)

Lemma searchLibrary_world self q w :
  (searchLibrary self q w).2
  = (AmazonMusic_call self "cirrus/" None (JObj q) w).2.
Proof.
  unfold searchLibrary, se_bind.
  destruct (AmazonMusic_call _ _ _ _ w) as [[e|resp] w']; reflexivity.
Qed.

Lemma station_refill_world amzn tracks st w :
  (station_refill amzn tracks (st, w)).2.2
  = (AmazonMusic_call amzn "mpqs/voiceenabled/getNextTracks"
       (Some getNextTracks) (getNextTracks_query amzn st) w).2.
Proof.
  unfold station_refill, se_bind, get_self, on_world, on_self. simpl.
  destruct (AmazonMusic_call _ _ _ _ w) as [[e|data] w']; [reflexivity|].
  simpl. unfold assign, se_bind, se_lift.
  destruct (py_item data "nextPageToken"); [reflexivity|]. simpl.
  destruct (rbind _ _); reflexivity.
Qed.

(** The refill of the library listing sends the one request that carries
    the token, whatever comes back. *)
Lemma albums_step_refill_sent self q data w tok :
  py_item data "nextResultsToken" = inr tok → truthy tok = true →
  sent (albums_step self (frame LAfter q data []) w).2
  = sent w ++ [library_request self (<["nextResultsToken" := tok]> q)].
Proof.
  intros Htok Htruthy. unfold albums_step. simpl. rewrite Htok, Htruthy.
  pose proof (searchLibrary_world self (<["nextResultsToken" := tok]> q) w)
    as Hw.
  destruct (searchLibrary self (<["nextResultsToken" := tok]> q) w)
    as [[e|res] w'] eqn:Hcall; simpl in Hw; subst w'.
  - simpl. apply AmazonMusic_call_sent.
  - destruct (rbind _ _); simpl; apply AmazonMusic_call_sent.
Qed.

(** Resumed with an empty buffer the station generator sends the one
    [getNextTracks] request, whatever the page token is. *)
Lemma Station_tracks_next_refill_sent amzn st w :
  sent (Station_tracks_next amzn {| sf_pc := Suspended; sf_tracks := [] |}
          (st, w)).2.2
  = sent w ++ [getNextTracks_request amzn st].
Proof.
  unfold Station_tracks_next. simpl.
  pose proof (station_refill_world amzn [] st w) as Hw.
  destruct (station_refill amzn [] (st, w)) as [[e|tracks] [st' w']];
    simpl in *; subst w'; apply AmazonMusic_call_sent.
Qed.

(** What the station generator does with the batch that comes back. *)
Lemma Station_tracks_next_refill amzn st w cs r b tok more rest :
  transport w = Responds cs r :: rest →
  body r = Some b →
  py_item b "nextPageToken" = inr tok →
  py_item b "trackMetadataList" = inr (JArr more) →
  Station_tracks_next amzn {| sf_pc := Suspended; sf_tracks := [] |} (st, w)
  = (station_head more,
     (Station.set__page_token tok st,
      (cookies_save
         (after_send (getNextTracks_request amzn st) cs rest w)).2)).
Proof.
  intros Ht Hb Htok Hmore. unfold Station_tracks_next. simpl.
  unfold station_refill, se_bind, get_self, on_world, on_self. simpl.
  erewrite AmazonMusic_call_answered by eassumption.
  unfold response_json. rewrite Hb. simpl.
  unfold assign, se_bind, se_lift. rewrite Htok. simpl.
  rewrite Hmore. reflexivity.
Qed.

(** C1, as the code has it.  Library listing: the buffer is consumed item
    by item without a call; after an item, an exhausted buffer and a truthy
    token send the one request for the next page and append its items; an
    exhausted buffer and a falsy token send nothing and the listing stops
    for good.  Station queue: the buffer is consumed track by track without
    a call; after a track, an exhausted buffer sends the one request for
    the next batch with the current page token, null or not, and appends
    the batch; the generator stops when the buffer is empty at the loop
    test, and then sends nothing. *)
Theorem paginated_fetcher_contract self q data w :
  (* library: consuming the buffer *)
  (∀ r rest,
     (albums_step self (frame LHead q data (r :: rest)) w).2 = w ∧
     (∀ ev g', (albums_step self (frame LHead q data (r :: rest)) w).1
               = (ev, g') → lf_results g' = rest) ∧
     albums_step self (frame LAfter q data (r :: rest)) w
     = (Tau, frame LHead q data (r :: rest), w)) ∧
  (* library: buffer exhausted, cursor present *)
  (∀ tok, py_item data "nextResultsToken" = inr tok → truthy tok = true →
     sent (albums_step self (frame LAfter q data []) w).2
     = sent w ++ [library_request self (<["nextResultsToken" := tok]> q)] ∧
     (∀ o rest items tok', transport w = o :: rest → serves o items tok' →
        ∃ res w',
          albums_step self (frame LAfter q data []) w
          = (Tau, frame LHead (<["nextResultsToken" := tok]> q) res items,
             w') ∧
          py_item res "nextResultsToken" = inr tok')) ∧
  (* library: buffer exhausted, no cursor *)
  (∀ tok, py_item data "nextResultsToken" = inr tok → truthy tok = false →
     albums_step self (frame LAfter q data []) w
     = (Tau, frame LHead q data [], w) ∧
     albums_step self (frame LHead q data []) w
     = (StopIteration, frame LDone q data [], w) ∧
     albums_step self (frame LDone q data []) w
     = (StopIteration, frame LDone q data [], w)) ∧
  (* station: consuming the buffer *)
  (∀ st x rest,
     Station_tracks_next self
       {| sf_pc := Suspended; sf_tracks := x :: rest |} (st, w)
     = (station_head (x :: rest), (st, w))) ∧
  (* station: buffer exhausted, whatever the cursor *)
  (∀ st,
     sent (Station_tracks_next self
             {| sf_pc := Suspended; sf_tracks := [] |} (st, w)).2.2
     = sent w ++ [getNextTracks_request self st] ∧
     (∀ cs r b tok more rest,
        transport w = Responds cs r :: rest → body r = Some b →
        py_item b "nextPageToken" = inr tok →
        py_item b "trackMetadataList" = inr (JArr more) →
        Station_tracks_next self
          {| sf_pc := Suspended; sf_tracks := [] |} (st, w)
        = (station_head more,
           (Station.set__page_token tok st,
            (cookies_save
               (after_send (getNextTracks_request self st) cs rest w)).2)))) ∧
  (* station: the end *)
  (∀ st tracks,
     station_head []
     = (StopIteration, {| sf_pc := Finished; sf_tracks := [] |}) ∧
     Station_tracks_next self
       {| sf_pc := Finished; sf_tracks := tracks |} (st, w)
     = (StopIteration, {| sf_pc := Finished; sf_tracks := tracks |},
        (st, w))).
Proof.
  repeat split.
  - unfold albums_step. simpl.
    destruct (library_filter r) as [e|[]]; [reflexivity | | reflexivity].
    destruct (Album_init r); reflexivity.
  - intros ev g'. unfold albums_step. simpl.
    destruct (library_filter r) as [e|[]].
    + intros [= <- <-]. reflexivity.
    + destruct (Album_init r); intros [= <- <-]; reflexivity.
    + intros [= <- <-]. reflexivity.
  - apply albums_step_refill_sent; assumption.
  - intros o rest items tok' Ht Ho.
    destruct (searchLibrary_serves self (<["nextResultsToken" := tok]> q)
                w o rest items tok' Ht Ho)
      as (res & w' & Hcall & Hitems & Htok' & _ & _).
    exists res, w'. split; [|assumption].
    unfold albums_step. simpl. rewrite H, H0, Hcall, Hitems. reflexivity.
  - unfold albums_step. simpl. rewrite H, H0. reflexivity.
  - apply Station_tracks_next_refill_sent.
  - intros cs r b tok more rest. apply Station_tracks_next_refill.
Qed.

Lemma paginated_fetcher_contract_witness :
  sent (Station_tracks_next Fixtures.session
          {| sf_pc := Suspended; sf_tracks := [] |}
          (Fixtures.cool_jazz, Fixtures.empty_batch_world)).2.2
  = sent Fixtures.empty_batch_world
      ++ [getNextTracks_request Fixtures.session Fixtures.cool_jazz] ∧
  albums_step Fixtures.session
    (frame LAfter (library_query Fixtures.session)
       (dict [("searchReturnItemList", JArr []); ("nextResultsToken", JNull)])
       []) Fixtures.two_page_world
  = (Tau,
     frame LHead (library_query Fixtures.session)
       (dict [("searchReturnItemList", JArr []); ("nextResultsToken", JNull)])
       [],
     Fixtures.two_page_world).
Proof.
  destruct (paginated_fetcher_contract Fixtures.session
              (library_query Fixtures.session)
              (dict [("searchReturnItemList", JArr []);
                     ("nextResultsToken", JNull)])
              Fixtures.two_page_world)
    as (_ & _ & Hstop & _ & _ & _).
  destruct (paginated_fetcher_contract Fixtures.session
              (library_query Fixtures.session) JNull
              Fixtures.empty_batch_world)
    as (_ & _ & _ & _ & Hfetch & _).
  split.
  - apply (Hfetch Fixtures.cool_jazz).
  - apply (Hstop JNull); vm_compute; reflexivity.
Defined.

(** C1 fails as stated for the station queue: the queue arrives with one
    track and page token null; once that track is yielded the buffer is
    empty and there is no cursor, and resuming the generator sends a
    [getNextTracks] request all the same. *)
Lemma station_fetches_without_cursor :
  let first := Station_tracks_next Fixtures.session Station_tracks
                 (Fixtures.cool_jazz, Fixtures.empty_batch_world) in
  Station_init (JStr "A2UW0MECRAWILL") Fixtures.last_page_queue
    = inr Fixtures.cool_jazz ∧
  first.1.1 = Yielded Fixtures.blue_in_green ∧
  sf_tracks first.1.2 = [] ∧
  Station._page_token first.2.1 = JNull ∧
  ¬ stops_without_cursor Fixtures.session first.1.2 first.2.
Proof.
  repeat split; try (vm_compute; reflexivity).
  unfold stops_without_cursor. intros H.
  specialize (H ltac:(vm_compute; reflexivity) ltac:(vm_compute; reflexivity)).
  vm_compute in H. discriminate H.
Qed.

(** ** The session constructor *)

Lemma AmazonMusic__authenticate_answered self r f referer w cs r' rest :
  sign_in_page r f referer →
  transport w = Responds cs r' :: rest →
  AmazonMusic__authenticate self r w
  = (inr r',
     (cookies_save (after_send (sign_in_request self f referer) cs rest w)).2).
Proof.
  intros (_ & Hf & [u Hu] & h & hs & Hh & Hl) Ht.
  unfold AmazonMusic__authenticate, se_bind, se_lift.
  rewrite Hf, Hh, Hl. unfold session_send. simpl. rewrite Hu, Ht.
  reflexivity.
Qed.

(** One turn of the inner loop: a bounced response is answered by one
    form submission. *)
Lemma sign_in_loop_hop json_loads fuel self r f referer w cs r' rest :
  sign_in_page r f referer →
  transport w = Responds cs r' :: rest →
  sign_in_loop json_loads (S fuel) self r w
  = sign_in_loop json_loads fuel self r'
      (cookies_save (after_send (sign_in_request self f referer) cs rest w)).2.
Proof.
  intros Hp Ht. simpl. rewrite (proj1 Hp).
  rewrite (AmazonMusic__authenticate_answered _ _ _ _ _ _ _ _ Hp Ht).
  reflexivity.
Qed.

(** The loops end on the page of a recognized customer. *)
Lemma sign_in_loop_config json_loads fuel self r cfg w :
  config_page json_loads r cfg →
  sign_in_loop json_loads fuel self r w = Some (inr cfg, w).
Proof.
  intros (Hb & Hcfg & Hnn & known & Hk & Hz).
  destruct fuel; simpl; rewrite Hb, Hcfg, Hk, Hz;
    destruct cfg; try reflexivity; congruence.
Qed.

Lemma submissions_app l1 l2 :
  submissions (l1 ++ l2) = (submissions l1 + submissions l2)%nat.
Proof.
  induction l1 as [|req l1 IH]; simpl; [reflexivity|].
  destruct (data req); rewrite IH; reflexivity.
Qed.

(** C5: scripted with two responses that bounced through the sign-in
    path and then a response that did not and carries the configuration,
    the constructor returns the session with every field read from the
    configuration, after exactly two sign-in form submissions. *)
Theorem two_sign_in_hops_reach_Ready
    json_loads email password prime w c1 r1 c2 r2 c3 r3 rest
    f1 referer1 f2 referer2 cfg s :
  transport w = Responds c1 r1 :: Responds c2 r2 :: Responds c3 r3 :: rest →
  sign_in_page r1 f1 referer1 →
  sign_in_page r2 f2 referer2 →
  config_page json_loads r3 cfg →
  populate (fresh email password prime) cfg = inr s →
  ∃ w',
    AmazonMusic___init__ json_loads email password prime w
    = Some (inr s, w') ∧
    sent w' = sent w ++
      [get_request (first_url w);
       sign_in_request (fresh email password prime) f1 referer1;
       sign_in_request (fresh email password prime) f2 referer2] ∧
    submissions (sent w') = (submissions (sent w) + 2)%nat ∧
    transport w' = rest ∧
    cookie_value <$> jar w' !! COOKIE_AMAZON_TARGET
      = Some (AmazonMusic.url s) ∧
    disk w' = Some (written (clock w') (jar w')).
Proof.
  intros Ht H1 H2 H3 Hpop.
  eexists. split.
  - unfold AmazonMusic___init__, se_bind at 1. unfold session_send at 1.
    cbn -[sign_in_loop]. rewrite Ht. cbn -[sign_in_loop].
    erewrite sign_in_loop_hop by (eassumption || reflexivity).
    destruct (length rest);
      (erewrite sign_in_loop_hop by (eassumption || reflexivity));
      rewrite (sign_in_loop_config _ _ _ _ _ _ H3), Hpop; reflexivity.
  - simpl. repeat split.
    + rewrite <- !app_assoc. reflexivity.
    + rewrite <- !app_assoc, submissions_app. reflexivity.
    + rewrite lookup_insert_eq. reflexivity.
Qed.

Lemma two_sign_in_hops_reach_Ready_witness :
  ∃ w',
    AmazonMusic___init__ Fixtures.sample_loads (Some "miles@example.com")
      (Some "hunter2") true Fixtures.first_run_world
    = Some (inr Fixtures.ready_session, w') ∧
    submissions (sent w') = 2%nat ∧
    transport w' = [].
Proof.
  destruct (two_sign_in_hops_reach_Ready Fixtures.sample_loads
              (Some "miles@example.com") (Some "hunter2") true
              Fixtures.first_run_world
              [("session-id", Fixtures.session_cookie "139-0")]
              (Fixtures.sign_in_response "t1")
              [] (Fixtures.sign_in_response "t2")
              [("at-main", Fixtures.lasting_cookie "Atza")]
              Fixtures.config_response []
              (Fixtures.sign_in_form "t1") Fixtures.sign_in_referer
              (Fixtures.sign_in_form "t2") Fixtures.sign_in_referer
              Fixtures.appConfig Fixtures.ready_session)
    as (w' & Hinit & _ & Hsub & Hrest & _).
  - reflexivity.
  - repeat split; try (vm_compute; reflexivity); eexists; reflexivity || eauto.
  - repeat split; try (vm_compute; reflexivity); eexists; reflexivity || eauto.
  - split; [vm_compute; reflexivity|].
    split; [vm_compute; reflexivity|].
    split; [discriminate|].
    exists (JNum 1). split; vm_compute; reflexivity.
  - vm_compute. reflexivity.
  - exists w'. auto.
Defined.

(** *** The credentials *)

Lemma populate_erases self cfg s :
  populate self cfg = inr s →
  AmazonMusic._email s = None ∧ AmazonMusic._password s = None.
Proof.
  unfold populate. intros H. repeat step_ok H.
  injection H as <-. simpl. auto.
Qed.

Lemma agree_refl w : agree w w.
Proof. unfold agree. auto 10. Qed.

Lemma session_send_agree req1 req2 w1 w2 :
  target_url req1 = target_url req2 → agree w1 w2 →
  (session_send req1 w1).1 = (session_send req2 w2).1 ∧
  agree (session_send req1 w1).2 (session_send req2 w2).2.
Proof.
  unfold session_send, agree. intros Hu (Ht & Hj & Hd & Hs & Hc).
  rewrite Hu, Ht, Hj, Hd, Hs, Hc.
  destruct (target_url req2); [|simpl; auto 10].
  destruct (transport w2) as [|[cs r|cs] rest]; simpl; auto 10.
Qed.

Lemma cookies_save_agree w1 w2 :
  agree w1 w2 → agree (cookies_save w1).2 (cookies_save w2).2.
Proof.
  unfold cookies_save, se_modify, agree. simpl.
  intros (Ht & Hj & Hd & Hs & Hc). rewrite Ht, Hj, Hs, Hc. auto 10.
Qed.

(** The form submission answers the same whatever the credentials are. *)
Lemma AmazonMusic__authenticate_agree self1 self2 r w1 w2 :
  agree w1 w2 →
  (AmazonMusic__authenticate self1 r w1).1
  = (AmazonMusic__authenticate self2 r w2).1 ∧
  agree (AmazonMusic__authenticate self1 r w1).2
        (AmazonMusic__authenticate self2 r w2).2.
Proof.
  intros Ha. unfold AmazonMusic__authenticate, se_bind, se_lift.
  destruct (form r) as [f|]; [|simpl; auto].
  destruct (history r) as [|h hs]; [simpl; auto|].
  destruct (location h) as [loc|]; [|simpl; auto].
  destruct (session_send_agree (sign_in_request self1 f loc)
              (sign_in_request self2 f loc) w1 w2 eq_refl Ha) as [Hr Hw].
  destruct (session_send (sign_in_request self1 f loc) w1) as [[e1|r1] w1'],
           (session_send (sign_in_request self2 f loc) w2) as [[e2|r2] w2'];
    simpl in *; try discriminate; [auto|].
  split; [assumption|]. apply (cookies_save_agree _ _ Hw).
Qed.

(** The result of the loops does not depend on the credentials. *)
Lemma sign_in_loop_agree json_loads fuel :
  ∀ self1 self2 r w1 w2, agree w1 w2 →
    match sign_in_loop json_loads fuel self1 r w1,
          sign_in_loop json_loads fuel self2 r w2 with
    | Some (res1, w1'), Some (res2, w2') => res1 = res2 ∧ agree w1' w2'
    | None, None => True
    | _, _ => False
    end.
Proof.
  pose (force := get_request (AMAZON_MUSIC_URL +:+ AMAZON_FORCE_SIGN_IN_PATH)).
  induction fuel as [|fuel IH]; intros self1 self2 r w1 w2 Ha; simpl;
    (destruct (bounced (history r)) as [e|[]]; [auto| |]).
  - destruct (AmazonMusic__authenticate_agree self1 self2 r w1 w2 Ha)
      as [Hr Hw].
    destruct (AmazonMusic__authenticate self1 r w1) as [[e1|r1] w1'],
             (AmazonMusic__authenticate self2 r w2) as [[e2|r2] w2'];
      simpl in *; try discriminate; auto.
    injection Hr as ->. auto.
  - destruct (find_appConfig json_loads (iter_lines r)) as [e|cfg]; [auto|].
    destruct cfg; auto;
      (destruct (py_item _ "isRecognizedCustomer") as [e|known]; [auto|]);
      (destruct (py_eq_zero known); [|auto]);
      fold force;
      (destruct (session_send_agree force force w1 w2 eq_refl Ha)
         as [Hr Hw]);
      (destruct (session_send force w1) as [[e1|r1] w1'],
                (session_send force w2) as [[e2|r2] w2'];
       simpl in *; try discriminate; auto);
      injection Hr as ->; auto.
  - destruct (AmazonMusic__authenticate_agree self1 self2 r w1 w2 Ha)
      as [Hr Hw].
    destruct (AmazonMusic__authenticate self1 r w1) as [[e1|r1] w1'],
             (AmazonMusic__authenticate self2 r w2) as [[e2|r2] w2'];
      simpl in *; try discriminate; auto.
    + injection Hr as ->. auto.
    + injection Hr as ->. apply IH. assumption.
  - destruct (find_appConfig json_loads (iter_lines r)) as [e|cfg]; [auto|].
    destruct cfg; auto;
      (destruct (py_item _ "isRecognizedCustomer") as [e|known]; [auto|]);
      (destruct (py_eq_zero known); [|auto]);
      fold force;
      (destruct (session_send_agree force force w1 w2 eq_refl Ha)
         as [Hr Hw]);
      (destruct (session_send force w1) as [[e1|r1] w1'],
                (session_send force w2) as [[e2|r2] w2'];
       simpl in *; try discriminate; auto);
      injection Hr as ->; first [solve [auto] | apply IH; assumption].
Qed.

Lemma populate_fresh email password email' password' prime cfg :
  populate (fresh email password prime) cfg
  = populate (fresh email' password' prime) cfg.
Proof. reflexivity. Qed.

(** C8: a session that the constructor returns holds no credentials: its
    e-mail and password fields are None, and the session is the very same,
    field for field, whatever e-mail and password were supplied, so that no
    field of it can retain them. *)
Theorem credentials_are_erased json_loads email password prime w s w' :
  AmazonMusic___init__ json_loads email password prime w = Some (inr s, w') →
  (AmazonMusic._email s = None ∧ AmazonMusic._password s = None) ∧
  ∀ email' password',
    ∃ w'', AmazonMusic___init__ json_loads email' password' prime w
           = Some (inr s, w'') ∧
           agree w'' w'.
Proof.
  unfold AmazonMusic___init__. intros H.
  destruct (se_bind _ _ _) as [[e|r] w1]; [discriminate|].
  split.
  - destruct (sign_in_loop _ _ _ _ _) as [[[e|cfg] w2]|]; try discriminate.
    destruct (populate _ cfg) as [e|s'] eqn:Hpop; [discriminate|].
    injection H as -> _. eapply populate_erases. eassumption.
  - intros email' password'.
    pose proof (sign_in_loop_agree json_loads (length (transport w1))
                  (fresh email password prime)
                  (fresh email' password' prime) r w1 w1 (agree_refl w1))
      as Hagree.
    destruct (sign_in_loop _ _ (fresh email password prime) _ _)
      as [[[e|cfg] w2]|]; try discriminate.
    destruct (sign_in_loop _ _ (fresh email' password' prime) _ _)
      as [[res2 w2']|]; [|contradiction].
    destruct Hagree as [<- Hw].
    rewrite (populate_fresh email' password' email password prime cfg).
    destruct (populate _ cfg) as [e|s']; [discriminate|].
    injection H as -> <-. eexists. split; [reflexivity|].
    destruct Hw as (Ht & Hj & Hd & Hs & Hc). unfold agree. simpl.
    rewrite Ht, Hj, Hs, Hc. auto 10.
Qed.

Lemma credentials_are_erased_witness :
  AmazonMusic._password Fixtures.ready_session = None ∧
  ∃ w'', AmazonMusic___init__ Fixtures.sample_loads None None true
           Fixtures.first_run_world
         = Some (inr Fixtures.ready_session, w'').
Proof.
  pose (w' := default Fixtures.first_run_world
                (snd <$> AmazonMusic___init__ Fixtures.sample_loads
                           (Some "miles@example.com") (Some "hunter2") true
                           Fixtures.first_run_world)).
  destruct (credentials_are_erased Fixtures.sample_loads
              (Some "miles@example.com") (Some "hunter2") true
              Fixtures.first_run_world Fixtures.ready_session w')
    as [[_ Hp] Hother].
  - vm_compute. reflexivity.
  - split; [exact Hp|].
    destruct (Hother None None) as (w'' & H & _). exists w''. exact H.
Defined.

(** *** The constructor always comes to an end *)

Lemma session_send_shrinks req w r w' :
  session_send req w = (inr r, w') →
  length (transport w) = S (length (transport w')).
Proof.
  unfold session_send. destruct (target_url req); [|discriminate].
  destruct (transport w) as [|[cs r0|cs] rest]; try discriminate.
  intros [= _ <-]. reflexivity.
Qed.

Lemma AmazonMusic__authenticate_shrinks self r w r' w' :
  AmazonMusic__authenticate self r w = (inr r', w') →
  length (transport w) = S (length (transport w')).
Proof.
  unfold AmazonMusic__authenticate. intros H.
  apply se_bind_ok in H as (f & w1 & Hf & H).
  apply se_lift_ok in Hf as [_ ->].
  apply se_bind_ok in H as (referer & w1 & Hr & H).
  apply se_lift_ok in Hr as [_ ->].
  apply se_bind_ok in H as (r1 & w1 & Hsend & H).
  apply session_send_shrinks in Hsend. rewrite Hsend.
  unfold se_bind, cookies_save, se_modify, se_ret in H.
  injection H as _ <-. reflexivity.
Qed.

(** With one unit of fuel per answer still to come, the loops end. *)
Lemma sign_in_loop_total json_loads fuel :
  ∀ self r w, (length (transport w) ≤ fuel)%nat →
              is_Some (sign_in_loop json_loads fuel self r w).
Proof.
  induction fuel as [|fuel IH]; intros self r w Hlen; simpl;
    (destruct (bounced (history r)) as [e|[]]; [eauto| |]).
  - destruct (AmazonMusic__authenticate self r w) as [[e|r'] w'] eqn:Ha;
      [eauto|]. apply AmazonMusic__authenticate_shrinks in Ha. lia.
  - destruct (find_appConfig json_loads (iter_lines r)) as [e|cfg]; [eauto|].
    destruct cfg; eauto;
      (destruct (py_item _ "isRecognizedCustomer") as [e|known]; [eauto|]);
      (destruct (py_eq_zero known); [|eauto]);
      (destruct (session_send _ w) as [[e|r'] w'] eqn:Hs; [eauto|]);
      apply session_send_shrinks in Hs; lia.
  - destruct (AmazonMusic__authenticate self r w) as [[e|r'] w'] eqn:Ha;
      [eauto|]. apply AmazonMusic__authenticate_shrinks in Ha.
    apply IH. lia.
  - destruct (find_appConfig json_loads (iter_lines r)) as [e|cfg]; [eauto|].
    destruct cfg; eauto;
      (destruct (py_item _ "isRecognizedCustomer") as [e|known]; [eauto|]);
      (destruct (py_eq_zero known); [|eauto]);
      (destruct (session_send _ w) as [[e|r'] w'] eqn:Hs; [eauto|]);
      apply session_send_shrinks in Hs; apply IH; lia.
Qed.

(** The constructor returns or raises on every script: its fuel, the
    number of answers left after the first, never runs out. *)
Lemma AmazonMusic___init___total json_loads email password prime w :
  is_Some (AmazonMusic___init__ json_loads email password prime w).
Proof.
  unfold AmazonMusic___init__.
  destruct (se_bind _ _ _) as [[e|r] w1]; [eauto|].
  destruct (sign_in_loop_total json_loads (length (transport w1))
              (fresh email password prime) r w1 ltac:(lia)) as [x Hx].
  rewrite Hx. destruct x as [[e|cfg] w2]; [eauto|].
  destruct (populate _ cfg); eauto.
Qed.

(** * Further properties of the code *)

(** ** [Track]: how the fields are resolved *)

(** Everything a successful [Track_fields] has evaluated. *)
Lemma Track_fields_inv (data : json) (t : Track.t) :
  Track_fields data = inr t →
  ∃ al aa d0,
    py_item data "album" = inr al ∧
    py_get al "artistName" JNull = inr aa ∧
    py_or aa (let* al3 := py_item data "album" in
              py_get al3 "albumArtistName" (Track.artist t))
      = inr (Track.album_artist t) ∧
    (let* has_map := py_in "artUrlMap" data in
     if has_map then
       let* m1 := py_item data "artUrlMap" in
       let* m2 := py_item data "artUrlMap" in
       let* large := py_get m2 "LARGE" JNull in
       py_get m1 "FULL" large
     else
       let* al4 := py_item data "album" in
       let* has_image := py_in "image" al4 in
       if has_image then
         let* al5 := py_item data "album" in
         py_item al5 "image"
       else ok JNull) = inr (Track.cover_url t) ∧
    (let* has_type := py_in "identifierType" data in
     if has_type then
       let* ty := py_item data "identifierType" in
       let* i := py_item data "identifier" in
       ok (ty, i)
     else
       let* i := py_item data "asin" in
       ok (JStr "ASIN", i))
      = inr (Track.identifier_type t, Track.identifier t) ∧
    py_get data "duration" JNull = inr d0 ∧
    py_get data "durationInSeconds" d0 = inr (Track.duration t) ∧
    Track.json_ t = data ∧ Track._url t = JNull.
Proof.
  unfold Track_fields. intros H.
  apply rbind_ok in H as (n0 & Hn0 & H).
  apply rbind_ok in H as (nm & Hnm & H).
  apply rbind_ok in H as (a0 & Ha0 & H).
  apply rbind_ok in H as (ar & Har & H).
  apply rbind_ok in H as (al & Hal & H).
  apply rbind_ok in H as (an & Han & H).
  apply rbind_ok in H as (alb & Halb & H).
  apply rbind_ok in H as (al2 & Hal2 & H).
  apply rbind_ok in H as (aa & Haa & H).
  apply rbind_ok in H as (aart & Haart & H).
  apply rbind_ok in H as (has_map & Hmap & H).
  apply rbind_ok in H as (cov & Hcov & H).
  apply rbind_ok in H as (has_type & Hty & H).
  apply rbind_ok in H as (ident & Hident & H).
  apply rbind_ok in H as (d0 & Hd0 & H).
  apply rbind_ok in H as (dur & Hdur & H).
  injection H as <-. simpl.
  exists al, aa, d0. rewrite Hmap, Hty. simpl.
  rewrite Hal in Hal2. injection Hal2 as <-.
  destruct ident as [ty i]. repeat split; assumption.
Qed.

(** X1: the identifier of a track.  With [identifierType] in the payload
    the pair is taken as it is; without it the type is ASIN and the
    identifier is the [asin]. *)
Theorem Track_identifier_falls_back_on_asin
    (m : gmap string json) (t : Track.t) :
  Track_init (JObj m) = inr t →
  match m !! "identifierType" with
  | Some ty =>
      Track.identifier_type t = ty ∧
      m !! "identifier" = Some (Track.identifier t)
  | None =>
      Track.identifier_type t = JStr "ASIN" ∧
      m !! "asin" = Some (Track.identifier t)
  end.
Proof.
  intros H. apply not_found_in_ok in H.
  apply Track_fields_inv in H
    as (al & aa & d0 & _ & _ & _ & _ & Hid & _).
  simpl in Hid.
  destruct (m !! "identifierType") as [ty|]; simpl in Hid.
  - destruct (m !! "identifier") as [i|]; simpl in Hid; [|discriminate].
    injection Hid as <- <-. auto.
  - destruct (m !! "asin") as [i|]; simpl in Hid; [|discriminate].
    injection Hid as <- <-. auto.
Qed.

Lemma Track_identifier_falls_back_on_asin_witness :
  (Track.identifier_type Fixtures.blue_in_green = JStr "ASIN" ∧
   Fixtures.blank_named_track !! "asin"
   = Some (Track.identifier Fixtures.blue_in_green)) ∧
  (Track.identifier_type Fixtures.so_what = JStr "COID" ∧
   Fixtures.typed_track !! "identifier"
   = Some (Track.identifier Fixtures.so_what)).
Proof.
  split.
  - apply (Track_identifier_falls_back_on_asin Fixtures.blank_named_track
             Fixtures.blue_in_green).
    vm_compute. reflexivity.
  - apply (Track_identifier_falls_back_on_asin Fixtures.typed_track
             Fixtures.so_what).
    vm_compute. reflexivity.
Defined.

(** X2: the duration of a track is [durationInSeconds] whenever that key
    is present, even when its value is null; only when the key is absent
    is [duration] read, and None is left when both are absent. *)
Theorem Track_duration_prefers_durationInSeconds
    (m : gmap string json) (t : Track.t) :
  Track_init (JObj m) = inr t →
  Track.duration t
  = match m !! "durationInSeconds" with
    | Some d => d
    | None => default JNull (m !! "duration")
    end.
Proof.
  intros H. apply not_found_in_ok in H.
  apply Track_fields_inv in H
    as (al & aa & d0 & _ & _ & _ & _ & _ & Hd0 & Hd & _).
  simpl in Hd0, Hd. injection Hd0 as <-. injection Hd as <-.
  destruct (m !! "durationInSeconds"); reflexivity.
Qed.

Lemma Track_duration_prefers_durationInSeconds_witness :
  Track.duration Fixtures.so_what = JNull ∧
  Track.duration Fixtures.blue_in_green = JNum 215.
Proof.
  split.
  - rewrite (Track_duration_prefers_durationInSeconds Fixtures.typed_track
               Fixtures.so_what); vm_compute; reflexivity.
  - rewrite (Track_duration_prefers_durationInSeconds
               Fixtures.blank_named_track Fixtures.blue_in_green);
      vm_compute; reflexivity.
Defined.

(** X3: the cover of a track.  With [artUrlMap] in the payload the cover
    is its [FULL] entry, else its [LARGE] entry, else None, and the image
    of the album is not looked at; without [artUrlMap] the cover is the
    [image] of the album, None when the album has none. *)
Theorem Track_cover_prefers_artUrlMap (m : gmap string json) (t : Track.t) :
  Track_init (JObj m) = inr t →
  match m !! "artUrlMap" with
  | Some am =>
      ∃ urls, am = JObj urls ∧
        Track.cover_url t
        = match urls !! "FULL" with
          | Some c => c
          | None => default JNull (urls !! "LARGE")
          end
  | None =>
      ∃ alm, m !! "album" = Some (JObj alm) ∧
        Track.cover_url t = default JNull (alm !! "image")
  end.
Proof.
  intros H. apply not_found_in_ok in H.
  apply Track_fields_inv in H
    as (al & aa & d0 & Hal & Haa & _ & Hcov & _).
  simpl in Hcov, Hal.
  destruct (m !! "artUrlMap") as [am|]; simpl in Hcov.
  - destruct am as [| | | | |urls]; simpl in Hcov; try discriminate.
    exists urls. split; [reflexivity|]. injection Hcov as <-.
    destruct (urls !! "FULL"); reflexivity.
  - destruct (m !! "album") as [alv|]; [|discriminate].
    injection Hal as <-.
    destruct alv as [| | | | |alm]; simpl in Haa; try discriminate.
    exists alm. split; [reflexivity|]. simpl in Hcov.
    destruct (alm !! "image"); simpl in Hcov; injection Hcov as <-;
      reflexivity.
Qed.

Lemma Track_cover_prefers_artUrlMap_witness :
  Track.cover_url Fixtures.so_what = JStr "https://img/large.jpg".
Proof.
  destruct (Track_cover_prefers_artUrlMap Fixtures.typed_track
              Fixtures.so_what) as (urls & Hurls & Hc).
  - vm_compute. reflexivity.
  - reflexivity.
Defined.

(** X4: the album artist of a track is the [artistName] of its album when
    that is truthy, else the [albumArtistName] of the album, and the
    track's own artist when the album has neither. *)
Theorem Track_album_artist_defaults_to_artist
    (m alm : gmap string json) (t : Track.t) :
  Track_init (JObj m) = inr t →
  m !! "album" = Some (JObj alm) →
  Track.album_artist t
  = if truthy (default JNull (alm !! "artistName"))
    then default JNull (alm !! "artistName")
    else default (Track.artist t) (alm !! "albumArtistName").
Proof.
  intros H Halm. apply not_found_in_ok in H.
  apply Track_fields_inv in H
    as (al & aa & d0 & Hal & Haa & Haart & _).
  simpl in Hal, Haart. rewrite Halm in Hal, Haart. injection Hal as <-.
  simpl in Haa, Haart. injection Haa as <-.
  unfold py_or in Haart.
  destruct (truthy (default JNull (alm !! "artistName")));
    injection Haart as <-; reflexivity.
Qed.

Lemma Track_album_artist_defaults_to_artist_witness :
  Track.album_artist Fixtures.blue_in_green
  = Track.artist Fixtures.blue_in_green.
Proof.
  rewrite (Track_album_artist_defaults_to_artist Fixtures.blank_named_track
             (list_to_map [("title", JStr "Kind of Blue")])
             Fixtures.blue_in_green); vm_compute; reflexivity.
Defined.

(** ** [Track.url]: memoization and failures *)

(** With a URL already memoized [Track.url] returns it and touches
    nothing. *)
Lemma Track_url_memoized amzn t w :
  Track._url t ≠ JNull →
  Track_url amzn (t, w) = (inr (Track._url t), (t, w)).
Proof.
  intros Hu. unfold Track_url, se_bind, get_self. simpl.
  destruct (Track._url t) eqn:E; [congruence | ..];
    unfold se_ret; simpl; rewrite E; reflexivity.
Qed.

(** What [Track.url] returns is what the track then holds. *)
Lemma Track_url_returns_field amzn s u s' :
  Track_url amzn s = (inr u, s') → Track._url s'.1 = u.
Proof.
  unfold Track_url. intros H.
  apply se_bind_ok in H as (self & s1 & _ & H).
  apply se_bind_ok in H as (x & s2 & _ & H).
  apply se_bind_ok in H as (self' & s3 & Hself & H).
  unfold get_self in Hself. injection Hself as <- <-.
  unfold se_ret in H. injection H as <- <-. reflexivity.
Qed.

(** X5: the stream URL is memoized.  Whatever [url()] returns is stored in
    the track, and once it has returned a URL (not None) every later
    [url()] on that track returns the same URL without sending a request or
    touching the cookie store. *)
Theorem Track_url_is_memoized amzn t w u t' w' :
  Track_url amzn (t, w) = (inr u, (t', w')) →
  Track._url t' = u ∧
  (u ≠ JNull → ∀ w2, Track_url amzn (t', w2) = (inr u, (t', w2))).
Proof.
  intros H. pose proof (Track_url_returns_field _ _ _ _ H) as Hu.
  simpl in Hu. split; [assumption|].
  intros Hnn w2. rewrite <- Hu. apply Track_url_memoized. congruence.
Qed.

Lemma Track_url_is_memoized_witness :
  Track_url Fixtures.session
    (Track.set__url (JStr "https://stream/blue.m3u8") Fixtures.blue_in_green,
     Fixtures.no_stream_world)
  = (inr (JStr "https://stream/blue.m3u8"),
     (Track.set__url (JStr "https://stream/blue.m3u8") Fixtures.blue_in_green,
      Fixtures.no_stream_world)).
Proof.
  pose (w' := (Track_url Fixtures.session
                 (Fixtures.blue_in_green, Fixtures.stream_world)).2.2).
  destruct (Track_url_is_memoized Fixtures.session Fixtures.blue_in_green
              Fixtures.stream_world (JStr "https://stream/blue.m3u8")
              (Track.set__url (JStr "https://stream/blue.m3u8")
                 Fixtures.blue_in_green) w') as [_ Hagain].
  - vm_compute. reflexivity.
  - apply Hagain. discriminate.
Defined.

(** [Track.url] on a track that holds no URL yet, case by case. *)
Lemma Track_url_lookup amzn t w :
  Track._url t = JNull →
  Track_url amzn (t, w)
  = match AmazonMusic_call amzn "dmls/" (Some getRestrictedStreamingURL)
            (Track_url_query amzn t) w with
    | (inl e, w') => (inl e, (t, w'))
    | (inr sj, w') =>
        match max_concurrency_reached sj with
        | inl e => (inl e, (t, w'))
        | inr true =>
            (match py_item sj "statusCode" with
             | inl e => inl e
             | inr sc => inl (PyException sc)
             end, (t, w'))
        | inr false =>
            match not_found_in sj
                    (let* cr := py_item sj "contentResponse" in
                     let* ul := py_item cr "urlList" in
                     py_first ul) with
            | inl e => (inl e, (t, w'))
            | inr u => (inr u, (Track.set__url u t, w'))
            end
        end
    end.
Proof.
  intros Hu. unfold Track_url, se_bind at 1. unfold get_self at 1. simpl.
  rewrite Hu. unfold se_bind, on_world, se_lift. simpl.
  destruct (AmazonMusic_call _ _ _ _ w) as [[e|sj] w']; [reflexivity|].
  destruct (max_concurrency_reached sj) as [e|[]]; [reflexivity | |].
  - destruct (py_item sj "statusCode"); reflexivity.
  - destruct (not_found_in sj _); reflexivity.
Qed.

Lemma py_item_KeyError d k a :
  py_item d k = inl (KeyError a) → a = Key (JStr k).
Proof.
  destruct d; simpl; try discriminate.
  destruct (m !! k); [discriminate|]. congruence.
Qed.

Lemma py_first_KeyError d a :
  py_first d = inl (KeyError a) → a = Key (JNum 0).
Proof.
  destruct d as [| | |s|l|m]; simpl; try discriminate.
  - destruct s; discriminate.
  - destruct l; discriminate.
  - congruence.
Qed.

Lemma max_concurrency_reached_no_KeyError sj a :
  max_concurrency_reached sj ≠ inl (KeyError a).
Proof.
  unfold max_concurrency_reached.
  destruct sj as [| | |s|l|m]; simpl; try discriminate.
  - destruct (str_contains "statusCode" s); discriminate.
  - destruct (existsb (is_str "statusCode") l); discriminate.
  - destruct (m !! "statusCode"); discriminate.
Qed.

(** X6: a stream lookup whose answer lacks [contentResponse] or [urlList]
    (or holds a dict where the list should be) makes [Track.url] raise the
    [KeyError] that names the key and echoes the whole answer; every
    [KeyError] of [Track.url] is of that kind, the answer was received and
    the cookies saved, and no URL is memoized. *)
Theorem Track_url_KeyError_echoes_answer amzn t w a :
  (Track_url amzn (t, w)).1 = inl (KeyError a) →
  ∃ cs r rest sj k,
    transport w = Responds cs r :: rest ∧ body r = Some sj ∧
    a = NotFoundIn (Key k) sj ∧
    (k = JStr "contentResponse" ∨ k = JStr "urlList" ∨ k = JNum 0) ∧
    (Track_url amzn (t, w)).2
    = (t, (cookies_save (after_send (stream_request amzn t) cs rest w)).2).
Proof.
  destruct (Track._url t) eqn:Hu;
    try (rewrite Track_url_memoized by congruence; discriminate).
  rewrite (Track_url_lookup amzn t w Hu).
  destruct (transport w) as [|[cs r|cs] rest] eqn:Ht;
    try (rewrite AmazonMusic_call_unanswered by (rewrite Ht; congruence);
         simpl; discriminate).
  erewrite AmazonMusic_call_answered by eassumption.
  unfold response_json. destruct (body r) as [sj|] eqn:Hb;
    [|simpl; discriminate].
  destruct (max_concurrency_reached sj) as [e|[]] eqn:Hc.
  - simpl. intros [= ->]. exfalso.
    eapply max_concurrency_reached_no_KeyError. eassumption.
  - rewrite (max_concurrency_reached_true sj Hc). simpl. discriminate.
  - destruct (not_found_in sj _) as [e|u] eqn:Hn; [|simpl; discriminate].
    simpl. intros [= ->]. exists cs, r, rest, sj.
    unfold not_found_in in Hn.
    destruct (py_item sj "contentResponse") as [e|cr] eqn:H1; simpl in Hn.
    { destruct e; try discriminate. injection Hn as <-.
      apply py_item_KeyError in H1 as ->. eexists. repeat split; eauto. }
    destruct (py_item cr "urlList") as [e|ul] eqn:H2; simpl in Hn.
    { destruct e; try discriminate. injection Hn as <-.
      apply py_item_KeyError in H2 as ->. eexists. repeat split; eauto. }
    destruct (py_first ul) as [e|u] eqn:H3; [|discriminate].
    destruct e; try discriminate. injection Hn as <-.
    apply py_first_KeyError in H3 as ->. eexists. repeat split; eauto.
Qed.

Lemma Track_url_KeyError_echoes_answer_witness :
  ∃ k, (Track_url Fixtures.session
          (Fixtures.blue_in_green, Fixtures.no_stream_world)).1
       = inl (KeyError (NotFoundIn (Key k)
                          (dict [("message", JStr "gone")]))).
Proof.
  destruct (Track_url_KeyError_echoes_answer Fixtures.session
              Fixtures.blue_in_green Fixtures.no_stream_world
              (NotFoundIn (Key (JStr "contentResponse"))
                 (dict [("message", JStr "gone")])))
    as (cs & r & rest & sj & k & _).
  - vm_compute. reflexivity.
  - exists (JStr "contentResponse"). vm_compute. reflexivity.
Defined.

(** ** Track lists: [Playlist.tracks] and the last line of [Album.tracks] *)

Lemma py_map_ok_iff {A} (f : json → result A) l ys :
  py_map f l = inr ys ↔ Forall2 (λ x y, f x = inr y) l ys.
Proof.
  revert ys. induction l as [|x l IH]; intros ys; simpl.
  - split.
    + intros [= <-]. constructor.
    + intros H. apply Forall2_nil_inv_l in H as ->. reflexivity.
  - split.
    + intros H. apply rbind_ok in H as (y & Hy & H).
      apply rbind_ok in H as (ys' & Hys & [= <-]).
      constructor; [assumption|]. apply IH. assumption.
    + intros H. apply Forall2_cons_inv_l in H as (y & ys' & Hy & Hys & ->).
      rewrite Hy. simpl. apply IH in Hys. rewrite Hys. reflexivity.
Qed.

Lemma py_map_first_error {A} (f : json → result A) l1 x l2 ys e :
  py_map f l1 = inr ys → f x = inl e →
  py_map f (l1 ++ x :: l2) = inl e.
Proof.
  revert ys. induction l1 as [|z l1 IH]; intros ys H1 Hx; simpl in *.
  - rewrite Hx. reflexivity.
  - apply rbind_ok in H1 as (y & Hy & H1).
    apply rbind_ok in H1 as (ys' & Hys & _).
    rewrite Hy. simpl. rewrite (IH ys' Hys Hx). reflexivity.
Qed.

(** X7: the tracks of a playlist.  [Playlist.tracks] returns one track per
    entry of the [tracks] list of the payload, in the order of the list,
    each the normalization of its entry; and it returns nothing at all when
    an entry does not normalize: the call raises the error of the first
    such entry. *)
Theorem Playlist_tracks_in_payload_order
    (p : Playlist.t) (m : gmap string json) (l : list json) :
  Playlist.json_ p = JObj m → m !! "tracks" = Some (JArr l) →
  (∀ ts, Playlist_tracks p = inr ts
         ↔ Forall2 (λ x t, Track_init x = inr t) l ts) ∧
  (∀ l1 x l2 ts1 e, l = l1 ++ x :: l2 →
     Forall2 (λ x t, Track_init x = inr t) l1 ts1 →
     Track_init x = inl e →
     Playlist_tracks p = inl e).
Proof.
  intros Hj Hm. unfold Playlist_tracks, track_list. rewrite Hj. simpl.
  rewrite Hm. simpl. split.
  - intros ts. apply py_map_ok_iff.
  - intros l1 x l2 ts1 e -> H1 Hx. apply py_map_ok_iff in H1.
    eapply py_map_first_error; eassumption.
Qed.

Lemma Playlist_tracks_in_payload_order_witness :
  Playlist_tracks Fixtures.two_track_playlist
  = inr [Fixtures.blue_in_green; Fixtures.so_what].
Proof.
  destruct (Playlist_tracks_in_payload_order Fixtures.two_track_playlist
              (list_to_map
                 [("tracks", JArr [JObj Fixtures.blank_named_track;
                                   JObj Fixtures.typed_track])])
              [JObj Fixtures.blank_named_track; JObj Fixtures.typed_track])
    as [Hok _].
  - reflexivity.
  - vm_compute. reflexivity.
  - apply Hok. repeat constructor; vm_compute; reflexivity.
Defined.

(** ** [Album.tracks]: what the upgrade leaves behind *)

(** X8: the upgrade replaces the whole album.  Run on any live album
    with the JSON of an album that [Album] built from a full-shape record,
    [__init__] cannot fail and leaves the object equal, field for field, to
    that album: nothing of the summary survives. *)
Theorem Album_reinit_replaces_every_field
    (data : json) (full : Album.t) (a : Album.t) :
  full_shape data → Album_init data = inr full →
  Album___init__ (Album.json_ full) a = (inr tt, full).
Proof.
  unfold full_shape, Album_init. intros Hs H.
  destruct (Album___init__ data Album.blank) as [[e|[]] a'] eqn:Hi;
    [discriminate|]. injection H as ->.
  unfold Album___init__ in Hi.
  assign_ok Hi.
  apply se_bind_ok in Hi as (c & s1 & Hc & Hi).
  apply se_lift_ok in Hc as [Hc ->]. rewrite Hs in Hc. injection Hc as <-.
  do 7 assign_ok Hi.
  apply assign_ok in Hi as (v8 & Hv8 & ->).
  injection Hv as <-. simpl.
  unfold Album___init__, assign, se_bind, se_lift, se_modify.
  rewrite Hs, Hv0, Hv1, Hv2, Hv3, Hv4, Hv5, Hv6, Hv8.
  reflexivity.
Qed.

Lemma Album_reinit_replaces_every_field_witness :
  Album___init__ (Album.json_ Fixtures.full_album_obj)
    Fixtures.summary_album_obj
  = (inr tt, Fixtures.full_album_obj).
Proof.
  apply (Album_reinit_replaces_every_field Fixtures.full_album);
    vm_compute; reflexivity.
Defined.

(** X9: a lookup that fails leaves the album as it was.  When [tracks()]
    has to fetch the album and [AmazonMusic.album] raises (the transport,
    the decoder or the envelope), [tracks()] raises the same error and no
    field of the album has changed. *)
Theorem Album_tracks_failed_lookup_keeps_album amzn a w e :
  py_in "tracks" (Album.json_ a) = inr false →
  (AmazonMusic_album amzn (Album.id a) w).1 = inl e →
  (Album_tracks amzn (a, w)).1 = inl e ∧
  (Album_tracks amzn (a, w)).2.1 = a.
Proof.
  intros H He. rewrite (Album_tracks_missing amzn a w H).
  destruct (AmazonMusic_album amzn (Album.id a) w) as [[e'|full] w'];
    simpl in He; [|discriminate].
  injection He as ->. auto.
Qed.

Lemma Album_tracks_failed_lookup_keeps_album_witness :
  (Album_tracks Fixtures.session
     (Fixtures.summary_album_obj, Fixtures.offline_world)).1
  = inl TransportError ∧
  (Album_tracks Fixtures.session
     (Fixtures.summary_album_obj, Fixtures.offline_world)).2.1
  = Fixtures.summary_album_obj.
Proof.
  apply Album_tracks_failed_lookup_keeps_album; vm_compute; reflexivity.
Defined.

(** ** The catalog facade: [station], [album], [playlist], [search] *)

Lemma se_bind_world {A B} (m : SE world A) (k : A → result B) w :
  (se_bind m (λ a, se_lift (k a)) w).2 = (m w).2.
Proof. unfold se_bind, se_lift. destruct (m w) as [[e|a] w']; reflexivity. Qed.

(** X10: each lookup of the facade sends exactly one request, whatever
    comes back: [station] the [createQueue] of the id, [search] the search
    query, and [album] and [playlist] one and the same lookup request --
    they differ only in the list of the answer that they unwrap. *)
Theorem facade_sends_one_request
    self id query library_only tracks albums playlists artists stations w :
  sent (AmazonMusic_station self id w).2
  = sent w ++ [call_request self "mpqs/voiceenabled/createQueue"
                 (Some createQueue) (createQueue_query self id)] ∧
  sent (AmazonMusic_album self id w).2 = sent w ++ [lookup_request self id] ∧
  sent (AmazonMusic_playlist self id w).2
  = sent w ++ [lookup_request self id] ∧
  sent (AmazonMusic_search self query library_only tracks albums playlists
          artists stations w).2
  = sent w ++ [call_request self "search/v1_1/" (Some TenzingService_search)
                 (search_query self query library_only tracks albums
                    playlists artists stations)].
Proof.
  repeat split.
  - unfold AmazonMusic_station. rewrite se_bind_world.
    apply AmazonMusic_call_sent.
  - rewrite AmazonMusic_album_world. apply AmazonMusic_call_sent.
  - unfold AmazonMusic_playlist, se_bind.
    pose proof (AmazonMusic_call_sent self "muse/legacy/lookup"
                  (Some MusicEnsembleService_lookup) (lookup_query self id) w)
      as Hs.
    destruct (AmazonMusic_call _ _ _ _ w) as [[e|resp] w']; [exact Hs|].
    unfold se_lift. destruct (rbind _ _); exact Hs.
  - unfold AmazonMusic_search. rewrite se_bind_world.
    apply AmazonMusic_call_sent.
Qed.

(** X11: a lookup that finds nothing.  When the answer carries an empty
    [albumList], [album] raises [IndexError]; when it carries no
    [albumList] at all, [album] raises the bare [KeyError] that names the
    list; either way the answer was received and the cookies are saved.
    [playlist] does the same with [playlistList]. *)
Theorem lookup_of_nothing_raises self id w cs r rest b :
  transport w = Responds cs r :: rest → body r = Some b →
  (∀ m, b = JObj m →
     (m !! "albumList" = Some (JArr []) →
      (AmazonMusic_album self id w).1 = inl IndexError) ∧
     (m !! "albumList" = None →
      (AmazonMusic_album self id w).1
      = inl (KeyError (Key (JStr "albumList")))) ∧
     (m !! "playlistList" = Some (JArr []) →
      (AmazonMusic_playlist self id w).1 = inl IndexError) ∧
     (m !! "playlistList" = None →
      (AmazonMusic_playlist self id w).1
      = inl (KeyError (Key (JStr "playlistList"))))) ∧
  saved_after w (AmazonMusic_album self id w).2 ∧
  saved_after w (AmazonMusic_playlist self id w).2.
Proof.
  intros Ht Hb.
  assert (Hcall : AmazonMusic_call self "muse/legacy/lookup"
                    (Some MusicEnsembleService_lookup) (lookup_query self id) w
                  = (inr b, (cookies_save
                               (after_send (lookup_request self id) cs rest w)).2)).
  { erewrite AmazonMusic_call_answered by eassumption.
    unfold response_json. rewrite Hb. reflexivity. }
  repeat split.
  - intros Hm. unfold AmazonMusic_album, se_bind. rewrite Hcall.
    unfold se_lift. rewrite H. simpl. rewrite Hm. reflexivity.
  - intros Hm. unfold AmazonMusic_album, se_bind. rewrite Hcall.
    unfold se_lift. rewrite H. simpl. rewrite Hm. reflexivity.
  - intros Hm. unfold AmazonMusic_playlist, se_bind. rewrite Hcall.
    unfold se_lift. rewrite H. simpl. rewrite Hm. reflexivity.
  - intros Hm. unfold AmazonMusic_playlist, se_bind. rewrite Hcall.
    unfold se_lift. rewrite H. simpl. rewrite Hm. reflexivity.
  - rewrite AmazonMusic_album_world, Hcall. reflexivity.
  - rewrite AmazonMusic_album_world, Hcall. reflexivity.
  - unfold AmazonMusic_playlist, se_bind. rewrite Hcall. unfold se_lift.
    destruct (rbind _ _); reflexivity.
  - unfold AmazonMusic_playlist, se_bind. rewrite Hcall. unfold se_lift.
    destruct (rbind _ _); reflexivity.
Qed.

Lemma lookup_of_nothing_raises_witness :
  (AmazonMusic_album Fixtures.session (JStr "B00NOTHING")
     Fixtures.nothing_found_world).1 = inl IndexError ∧
  (AmazonMusic_playlist Fixtures.session (JStr "B00NOTHING")
     Fixtures.nothing_found_world).1 = inl IndexError.
Proof.
  destruct (lookup_of_nothing_raises Fixtures.session (JStr "B00NOTHING")
              Fixtures.nothing_found_world [] _ []
              (dict [("albumList", JArr []); ("playlistList", JArr [])])
              eq_refl eq_refl) as [H _].
  destruct (H _ eq_refl) as (Ha & _ & Hp & _).
  split; [apply Ha | apply Hp]; vm_compute; reflexivity.
Defined.

(** ** The library listing: the filter, failures and empty pages *)

(** What an entry that passes the filter looks like. *)
Lemma library_filter_true_inv (r : json) :
  library_filter r = inr true →
  ∃ m n md, r = JObj m ∧ m !! "numTracks" = Some (JNum n) ∧ 4 ≤ n ∧
            m !! "metadata" = Some (JObj md) ∧
            md !! "primeStatus" = Some (JStr "PRIME").
Proof.
  unfold library_filter. intros H.
  apply rbind_ok in H as (nv & Hn & H).
  apply rbind_ok in H as (enough & Hge & H).
  destruct enough; [|discriminate].
  apply rbind_ok in H as (mdv & Hmd & H).
  apply rbind_ok in H as (ps & Hps & H).
  injection H as H. apply is_str_true in H as ->.
  destruct r as [| | | | |m]; simpl in Hn, Hmd; try discriminate.
  destruct (m !! "numTracks") as [nv'|] eqn:En; [|discriminate].
  injection Hn as ->.
  destruct (m !! "metadata") as [mdv'|] eqn:Em; [|discriminate].
  injection Hmd as ->.
  destruct nv as [|b|n| | |]; simpl in Hge; try discriminate.
  { destruct b; discriminate. }
  injection Hge as Hge. apply Z.leb_le in Hge.
  destruct mdv as [| | | | |md]; simpl in Hps; try discriminate.
  destruct (md !! "primeStatus") as [ps|] eqn:Ep; simpl in Hps;
    [|discriminate].
  injection Hps as ->. exists m, n, md. auto.
Qed.

(** X12: the library filter.  An entry passes exactly when its
    [numTracks] is a number that is at least 4 and its [metadata] is an
    object whose [primeStatus] is the string PRIME; an entry with fewer
    than four tracks is dropped without its metadata being looked at. *)
Theorem library_filter_passes_iff (r : json) :
  (library_filter r = inr true ↔
   ∃ m n md, r = JObj m ∧ m !! "numTracks" = Some (JNum n) ∧ 4 ≤ n ∧
             m !! "metadata" = Some (JObj md) ∧
             md !! "primeStatus" = Some (JStr "PRIME")) ∧
  (∀ m n, r = JObj m → m !! "numTracks" = Some (JNum n) → n < 4 →
          library_filter r = inr false).
Proof.
  split; [split|].
  - apply library_filter_true_inv.
  - intros (m & n & md & -> & Hn & Hge & Hmd & Hps).
    unfold library_filter. simpl. rewrite Hn. simpl.
    apply Z.leb_le in Hge. rewrite Hge. simpl. rewrite Hmd. simpl.
    rewrite Hps. reflexivity.
  - intros m n -> Hn Hlt. unfold library_filter. simpl. rewrite Hn. simpl.
    apply Z.leb_gt in Hlt. rewrite Hlt. reflexivity.
Qed.

Lemma library_filter_passes_iff_witness :
  library_filter Fixtures.entry_a = inr true ∧
  library_filter (dict [("numTracks", JNum 3)]) = inr false.
Proof.
  split.
  - apply (proj1 (library_filter_passes_iff Fixtures.entry_a)).
    do 3 eexists. repeat split; try (vm_compute; reflexivity).
    vm_compute. discriminate.
  - apply (proj2 (library_filter_passes_iff (dict [("numTracks", JNum 3)]))
             (list_to_map [("numTracks", JNum 3)]) 3);
      vm_compute; reflexivity.
Defined.

(** X13: what the listing yields.  Every album that
    [albums_in_library] yields has a track count of at least four and prime
    status PRIME in its JSON, and yielding it sent nothing. *)
Theorem library_yields_only_prime_albums self g w a g' w' :
  albums_step self g w = (Yielded a, g', w') →
  ∃ n md, Album.track_count a = JNum n ∧ 4 ≤ n ∧
          Album.json_ a = JObj md ∧
          md !! "primeStatus" = Some (JStr "PRIME") ∧
          w' = w.
Proof.
  unfold albums_step. destruct (lf_pc g).
  - destruct (searchLibrary _ _ w) as [[e|data] w1]; [discriminate|].
    destruct (rbind _ _); discriminate.
  - destruct (lf_results g) as [|r rest]; [discriminate|].
    destruct (library_filter r) as [e|[]] eqn:Hf; try discriminate.
    destruct (Album_init r) as [e|a0] eqn:Ha; [discriminate|].
    intros [= <- <- <-].
    apply library_filter_true_inv in Hf
      as (m & n & md & -> & Hn & Hge & Hmd & Hps).
    assert (Hs : summary_shape (JObj m))
      by (unfold summary_shape; simpl; rewrite Hmd; reflexivity).
    destruct (Album_init_summary _ _ Hs Ha)
      as (_ & _ & _ & _ & Htc & Hj & _).
    simpl in Htc, Hj. rewrite Hn in Htc. rewrite Hmd in Hj.
    injection Htc as <-. injection Hj as <-.
    exists n, md. auto.
  - destruct (lf_results g).
    + destruct (py_item _ _) as [e|tok]; [discriminate|].
      destruct (truthy tok); [|discriminate].
      destruct (searchLibrary _ _ w) as [[e|data] w1]; [discriminate|].
      destruct (rbind _ _); discriminate.
    + discriminate.
  - discriminate.
Qed.

Lemma library_yields_only_prime_albums_witness :
  ∃ n md, Album.track_count (Fixtures.library_album "B00A" "Milestones")
          = JNum n ∧ 4 ≤ n ∧
          Album.json_ (Fixtures.library_album "B00A" "Milestones") = JObj md ∧
          md !! "primeStatus" = Some (JStr "PRIME").
Proof.
  destruct (library_yields_only_prime_albums Fixtures.session
              (frame LHead ∅ JNull
                 [Fixtures.entry_a])
              Fixtures.two_page_world
              (Fixtures.library_album "B00A" "Milestones")
              (frame LAfter ∅ JNull [])
              Fixtures.two_page_world)
    as (n & md & H1 & H2 & H3 & H4 & _).
  - vm_compute. reflexivity.
  - exists n, md. auto.
Defined.

Lemma searchLibrary_fails self q w cs rest :
  transport w = Fails cs :: rest →
  searchLibrary self q w
  = (inl TransportError, after_send (library_request self q) cs rest w).
Proof.
  intros Ht. unfold searchLibrary, se_bind.
  rewrite AmazonMusic_call_unanswered by (rewrite Ht; congruence).
  rewrite Ht. reflexivity.
Qed.

Lemma consume_S_raised n self g w e g' w' :
  albums_step self g w = (Raised e, g', w') →
  consume (S n) self g w = ([], Aborted e, g', w').
Proof. intros H. simpl. rewrite H. reflexivity. Qed.

Lemma consume_S_stop n self g w g' w' :
  albums_step self g w = (StopIteration, g', w') →
  consume (S n) self g w = ([], Completed, g', w').
Proof. intros H. simpl. rewrite H. reflexivity. Qed.

(** The refill whose request fails in the transport. *)
Lemma albums_step_refill_fails self q data w tok cs rest :
  py_item data "nextResultsToken" = inr tok → truthy tok = true →
  transport w = Fails cs :: rest →
  albums_step self (frame LAfter q data []) w
  = (Raised TransportError, frame LDone q data [],
     after_send (library_request self (<["nextResultsToken" := tok]> q))
       cs rest w).
Proof.
  intros Htok Htruthy Ht. unfold albums_step. simpl.
  rewrite Htok, Htruthy, (searchLibrary_fails _ _ _ _ _ Ht). reflexivity.
Qed.

(** The first stretch of the listing against a page. *)
Lemma albums_step_start self w o rest items tok :
  transport w = o :: rest → serves o items tok →
  ∃ res w1,
    albums_step self (albums_in_library self) w
    = (Tau, frame LHead (library_query self) res items, w1) ∧
    py_item res "nextResultsToken" = inr tok ∧
    transport w1 = rest ∧
    sent w1 = sent w ++ [library_request self (library_query self)].
Proof.
  intros Ht Ho.
  destruct (searchLibrary_serves self (library_query self) w o rest items
              tok Ht Ho) as (res & w1 & Hcall & Hitems & Htok & Ht1 & Hs1).
  exists res, w1. repeat split; auto.
  unfold albums_step, albums_in_library.
  cbn [lf_pc lf_query lf_data lf_results].
  rewrite Hcall, Hitems. reflexivity.
Qed.

(** X14: a page that cannot be fetched ends the listing.  When the
    first page has items and a token and the request for the second page
    fails in the transport, the listing yields the albums of the first
    page, in order, and then raises the transport error; no page is
    skipped, and the generator is finished: resumed again it yields nothing
    and sends nothing. *)
Theorem library_listing_aborts_on_failed_page
    self w o1 items tok cs rest albs :
  transport w = o1 :: Fails cs :: rest →
  serves o1 items tok → items ≠ [] → truthy tok = true →
  albums_of items = inr albs →
  ∃ n g' w',
    consume n self (albums_in_library self) w
    = (albs, Aborted TransportError, g', w') ∧
    transport w' = rest ∧
    sent w' = sent w ++
      [library_request self (library_query self);
       library_request self
         (<["nextResultsToken" := tok]> (library_query self))] ∧
    (∀ w2, albums_step self g' w2 = (StopIteration, g', w2)).
Proof.
  intros Ht Ho Hne Htruthy Halbs.
  destruct (albums_step_start self w o1 (Fails cs :: rest) items tok Ht Ho)
    as (res & w1 & Hstart & Htok & Ht1 & Hs1).
  destruct (consume_buffer self (library_query self) res w1 items Hne
              albs Halbs) as (n & Hn).
  exists (S (n + 1)). do 2 eexists.
  rewrite (consume_S_tau _ _ _ _ _ _ Hstart), Hn.
  rewrite (consume_S_raised _ _ _ _ _ _ _
             (albums_step_refill_fails self _ res w1 tok cs rest
                Htok Htruthy Ht1)).
  unfold prepend. cbn [fst snd]. rewrite app_nil_r.
  repeat split; auto.
  cbn [after_send sent]. rewrite Hs1, <- app_assoc. reflexivity.
Qed.

Lemma library_listing_aborts_on_failed_page_witness :
  ∃ n g' w',
    consume n Fixtures.session (albums_in_library Fixtures.session)
      Fixtures.broken_library_world
    = ([Fixtures.library_album "B00A" "Milestones";
        Fixtures.library_album "B00B" "Kind of Blue";
        Fixtures.library_album "B00C" "Sketches of Spain"],
       Aborted TransportError, g', w').
Proof.
  destruct (library_listing_aborts_on_failed_page Fixtures.session
              Fixtures.broken_library_world Fixtures.page_one
              [Fixtures.entry_a; Fixtures.entry_b; Fixtures.entry_c]
              (JStr "T1") [] []
              [Fixtures.library_album "B00A" "Milestones";
               Fixtures.library_album "B00B" "Kind of Blue";
               Fixtures.library_album "B00C" "Sketches of Spain"])
    as (n & g' & w' & H & _).
  - reflexivity.
  - do 5 eexists. repeat split; vm_compute; reflexivity.
  - discriminate.
  - reflexivity.
  - vm_compute. reflexivity.
  - exists n, g', w'. exact H.
Defined.

(** X15: an empty page ends the listing.  When the first page lists no
    items the listing is over at once, with nothing yielded and only the
    first request sent, even when that page carries a continuation token:
    the token is only looked at after an item has been taken. *)
Theorem library_listing_stops_at_empty_page self w o rest tok :
  transport w = o :: rest → serves o [] tok →
  ∃ g' w',
    consume 2 self (albums_in_library self) w = ([], Completed, g', w') ∧
    transport w' = rest ∧
    sent w' = sent w ++ [library_request self (library_query self)].
Proof.
  intros Ht Ho.
  destruct (albums_step_start self w o rest [] tok Ht Ho)
    as (res & w1 & Hstart & Htok & Ht1 & Hs1).
  do 2 eexists.
  rewrite (consume_S_tau _ _ _ _ _ _ Hstart).
  rewrite (consume_S_stop 0 self _ w1
             (frame LDone (library_query self) res []) w1)
    by reflexivity.
  auto.
Qed.

Lemma library_listing_stops_at_empty_page_witness :
  ∃ g' w',
    consume 2 Fixtures.session (albums_in_library Fixtures.session)
      Fixtures.empty_page_world = ([], Completed, g', w') ∧
    transport w' = [Fixtures.page_two].
Proof.
  destruct (library_listing_stops_at_empty_page Fixtures.session
              Fixtures.empty_page_world _ [Fixtures.page_two] (JStr "T1")
              eq_refl) as (g' & w' & H & Hrest & _).
  - do 5 eexists. repeat split; vm_compute; reflexivity.
  - exists g', w'. auto.
Defined.

(** ** The station queue: the first batch and the page token *)

Lemma Station_take_buffer amzn s l :
  ∀ ts, py_map Track_init l = inr ts →
        Station_take (length l) amzn {| sf_pc := Suspended; sf_tracks := l |} s
        = (ts, {| sf_pc := Suspended; sf_tracks := [] |}, s).
Proof.
  induction l as [|x l IH]; intros ts H; simpl in H.
  - injection H as <-. reflexivity.
  - apply rbind_ok in H as (t & Ht & H).
    apply rbind_ok in H as (ts' & Hts & [= <-]).
    cbn [length Station_take]. unfold Station_tracks_next.
    cbn [sf_pc sf_tracks station_head]. rewrite Ht.
    rewrite (IH ts' Hts). reflexivity.
Qed.

(** X16: the first batch of a station costs no request.  The tracks
    that came with the queue are yielded in their order, each normalized,
    without any call and without touching the station; the first request
    goes out when the track after them is asked for, and it asks for ten
    more tracks with the page token the station holds. *)
Theorem Station_first_batch_needs_no_request amzn st w x l ts :
  py_item (Station.json_ st) "trackMetadataList" = inr (JArr (x :: l)) →
  py_map Track_init (x :: l) = inr ts →
  Station_take (length (x :: l)) amzn Station_tracks (st, w)
  = (ts, {| sf_pc := Suspended; sf_tracks := [] |}, (st, w)) ∧
  sent (Station_tracks_next amzn {| sf_pc := Suspended; sf_tracks := [] |}
          (st, w)).2.2
  = sent w ++ [getNextTracks_request amzn st] ∧
  at_path (getNextTracks_query amzn st) ["numberOfTracks"]
  = Some (JNum 10) ∧
  at_path (getNextTracks_query amzn st) ["pageToken"]
  = Some (Station._page_token st).
Proof.
  intros Hl Hts. split; [|split; [|split]].
  - pose proof Hts as Hts'. simpl in Hts'.
    apply rbind_ok in Hts' as (t & Ht & Hts').
    apply rbind_ok in Hts' as (ts' & Hrest & [= <-]).
    cbn [length Station_take]. unfold Station_tracks_next at 1.
    cbn [sf_pc Station_tracks fst]. rewrite Hl.
    cbn [rbind py_iter app station_head]. rewrite Ht.
    rewrite (Station_take_buffer amzn (st, w) l ts' Hrest). reflexivity.
  - apply Station_tracks_next_refill_sent.
  - reflexivity.
  - reflexivity.
Qed.

Lemma Station_first_batch_needs_no_request_witness :
  Station_take 1 Fixtures.session Station_tracks
    (Fixtures.cool_jazz, Fixtures.next_batch_world)
  = ([Fixtures.blue_in_green], {| sf_pc := Suspended; sf_tracks := [] |},
     (Fixtures.cool_jazz, Fixtures.next_batch_world)).
Proof.
  apply (Station_first_batch_needs_no_request Fixtures.session
           Fixtures.cool_jazz Fixtures.next_batch_world
           (JObj Fixtures.blank_named_track) []);
    vm_compute; reflexivity.
Defined.

(** X17: the page token is threaded from batch to batch.  When the
    buffer is empty and the next batch arrives with a track and a new page
    token, that track is yielded, the station holds the new token, and the
    request after it carries the new token, not the one the queue was
    created with. *)
Theorem Station_page_token_is_threaded
    amzn st w cs r b tok x t rest :
  transport w = Responds cs r :: rest → body r = Some b →
  py_item b "nextPageToken" = inr tok →
  py_item b "trackMetadataList" = inr (JArr [x]) →
  Track_init x = inr t →
  ∃ s1,
    Station_tracks_next amzn {| sf_pc := Suspended; sf_tracks := [] |} (st, w)
    = (Yielded t, {| sf_pc := Suspended; sf_tracks := [] |}, s1) ∧
    Station._page_token s1.1 = tok ∧
    sent (Station_tracks_next amzn
            {| sf_pc := Suspended; sf_tracks := [] |} s1).2.2
    = sent w ++ [getNextTracks_request amzn st;
                 getNextTracks_request amzn s1.1] ∧
    at_path (getNextTracks_query amzn s1.1) ["pageToken"] = Some tok.
Proof.
  intros Ht Hb Htok Hx Hinit.
  eexists. split; [|split; [|split]].
  - rewrite (Station_tracks_next_refill amzn st w cs r b tok [x] rest
               Ht Hb Htok Hx).
    cbn [station_head]. rewrite Hinit. reflexivity.
  - reflexivity.
  - rewrite Station_tracks_next_refill_sent. cbn [cookies_save se_modify
      snd after_send sent fst]. rewrite <- app_assoc. reflexivity.
  - reflexivity.
Qed.

Lemma Station_page_token_is_threaded_witness :
  ∃ s1,
    Station_tracks_next Fixtures.session
      {| sf_pc := Suspended; sf_tracks := [] |}
      (Fixtures.cool_jazz, Fixtures.next_batch_world)
    = (Yielded Fixtures.so_what, {| sf_pc := Suspended; sf_tracks := [] |},
       s1) ∧
    Station._page_token s1.1 = JStr "page-2".
Proof.
  destruct (Station_page_token_is_threaded Fixtures.session
              Fixtures.cool_jazz Fixtures.next_batch_world [] _
              (dict [("nextPageToken", JStr "page-2");
                     ("trackMetadataList", JArr [JObj Fixtures.typed_track])])
              (JStr "page-2") (JObj Fixtures.typed_track) Fixtures.so_what []
              eq_refl eq_refl)
    as (s1 & H1 & H2 & _); try (vm_compute; reflexivity).
  exists s1. auto.
Defined.

(** ** The constructor: failure, forced sign-in and the region cookie *)

Lemma find_appConfig_no_marker json_loads lines :
  Forall (λ line, str_contains appConfig_marker line = false) lines →
  find_appConfig json_loads lines = inr JNull.
Proof.
  induction 1 as [|line lines Hl _ IH]; simpl; [reflexivity|].
  rewrite Hl. assumption.
Qed.

(** X18: no configuration, no session.  When the first page did not
    bounce through the sign-in and none of its lines carries the
    configuration marker, the constructor raises the plain [Exception] with
    the captcha message and returns no session; it has sent the one request
    for the page, without retrying, and saved the cookies of that page. *)
Theorem constructor_fails_without_appConfig
    json_loads email password prime w cs r rest :
  transport w = Responds cs r :: rest →
  bounced (history r) = inr false →
  Forall (λ line, str_contains appConfig_marker line = false)
    (iter_lines r) →
  ∃ w',
    AmazonMusic___init__ json_loads email password prime w
    = Some (inl (PyException (JStr captcha_message)), w') ∧
    sent w' = sent w ++ [get_request (first_url w)] ∧
    transport w' = rest ∧
    disk w' = Some (written (clock w') (jar w')).
Proof.
  intros Ht Hb Hlines. eexists. split.
  - unfold AmazonMusic___init__, se_bind at 1. unfold session_send at 1.
    cbn -[sign_in_loop]. rewrite Ht. cbn -[sign_in_loop].
    assert (Hloop : ∀ fuel self w1,
               sign_in_loop json_loads fuel self r w1
               = Some (inl (PyException (JStr captcha_message)), w1)).
    { intros fuel self w1. destruct fuel; simpl;
        rewrite Hb, (find_appConfig_no_marker _ _ Hlines); reflexivity. }
    rewrite Hloop. reflexivity.
  - simpl. auto.
Qed.

Lemma constructor_fails_without_appConfig_witness :
  ∃ w',
    AmazonMusic___init__ Fixtures.sample_loads (Some "miles@example.com")
      (Some "hunter2") true Fixtures.captcha_world
    = Some (inl (PyException (JStr captcha_message)), w').
Proof.
  destruct (constructor_fails_without_appConfig Fixtures.sample_loads
              (Some "miles@example.com") (Some "hunter2") true
              Fixtures.captcha_world
              [("session-id", Fixtures.session_cookie "139-0")]
              Fixtures.captcha_response [] eq_refl)
    as (w' & H & _).
  - reflexivity.
  - repeat constructor.
  - exists w'. exact H.
Defined.

(** X19: a customer who is not recognized is sent through the forced
    sign-in.  When the first page carries a configuration whose
    [isRecognizedCustomer] equals 0 and the page that the forced sign-in
    returns carries the configuration of a recognized customer, the
    constructor fetches the forced sign-in URL once, submits no form, and
    returns the session read from the second configuration. *)
Theorem unrecognized_customer_forces_sign_in
    json_loads email password prime w c1 r1 c2 r2 rest cfg1 known cfg s :
  transport w = Responds c1 r1 :: Responds c2 r2 :: rest →
  bounced (history r1) = inr false →
  find_appConfig json_loads (iter_lines r1) = inr cfg1 →
  py_item cfg1 "isRecognizedCustomer" = inr known →
  py_eq_zero known = true →
  config_page json_loads r2 cfg →
  populate (fresh email password prime) cfg = inr s →
  ∃ w',
    AmazonMusic___init__ json_loads email password prime w
    = Some (inr s, w') ∧
    sent w' = sent w ++
      [get_request (first_url w);
       get_request (AMAZON_MUSIC_URL +:+ AMAZON_FORCE_SIGN_IN_PATH)] ∧
    submissions (sent w') = submissions (sent w) ∧
    transport w' = rest.
Proof.
  intros Ht Hb Hcfg1 Hknown Hzero Hpage Hpop. eexists. split.
  - unfold AmazonMusic___init__, se_bind at 1. unfold session_send at 1.
    cbn -[sign_in_loop]. rewrite Ht. cbn -[sign_in_loop].
    assert (Hturn : ∀ fuel self w1 rest1,
               transport w1 = Responds c2 r2 :: rest1 →
               sign_in_loop json_loads (S fuel) self r1 w1
               = sign_in_loop json_loads fuel self r2
                   (after_send
                      (get_request
                         (AMAZON_MUSIC_URL +:+ AMAZON_FORCE_SIGN_IN_PATH))
                      c2 rest1 w1)).
    { intros fuel self w1 rest1 Ht1. simpl. rewrite Hb, Hcfg1.
      destruct cfg1; try discriminate;
        rewrite Hknown, Hzero; unfold session_send; simpl; rewrite Ht1;
        reflexivity. }
    erewrite Hturn by reflexivity.
    rewrite (sign_in_loop_config _ _ _ _ _ _ Hpage), Hpop. reflexivity.
  - simpl. repeat split.
    + rewrite <- !app_assoc. reflexivity.
    + rewrite <- !app_assoc, submissions_app. simpl. lia.
Qed.

Lemma unrecognized_customer_forces_sign_in_witness :
  ∃ w',
    AmazonMusic___init__ Fixtures.stranger_loads None None true
      Fixtures.stale_cookie_world
    = Some (inr Fixtures.ready_session, w') ∧
    sent w' = [get_request "https://music.amazon.co.uk";
               get_request (AMAZON_MUSIC_URL +:+ AMAZON_FORCE_SIGN_IN_PATH)].
Proof.
  destruct (unrecognized_customer_forces_sign_in Fixtures.stranger_loads
              None None true Fixtures.stale_cookie_world
              [] Fixtures.stranger_response
              [("at-main", Fixtures.lasting_cookie "Atza")] Fixtures.config_response []
              Fixtures.stranger_appConfig (JNum 0) Fixtures.appConfig
              Fixtures.ready_session eq_refl)
    as (w' & H & Hsent & _); try (vm_compute; reflexivity).
  - split; [vm_compute; reflexivity|].
    split; [vm_compute; reflexivity|].
    split; [discriminate|].
    exists (JNum 1). split; vm_compute; reflexivity.
  - exists w'. split; [exact H | exact Hsent].
Defined.

Lemma session_send_saves req w :
  saves (session_send req w).2 = saves w.
Proof.
  unfold session_send. destruct (target_url req); [|reflexivity].
  destruct (transport w) as [|[cs r|cs] rest]; reflexivity.
Qed.

Lemma AmazonMusic__authenticate_saves self r w :
  (saves w ≤ saves (AmazonMusic__authenticate self r w).2)%nat.
Proof.
  unfold AmazonMusic__authenticate, se_bind, se_lift.
  destruct (form r) as [f|]; [|simpl; lia].
  destruct (history r) as [|h hs]; [simpl; lia|].
  destruct (location h) as [loc|]; [|simpl; lia].
  pose proof (session_send_saves (sign_in_request self f loc) w) as Hs.
  destruct (session_send (sign_in_request self f loc) w) as [[e|r'] w'];
    simpl in *; lia.
Qed.

(** The loops never lose a save. *)
Lemma sign_in_loop_saves json_loads fuel :
  ∀ self r w res w',
    sign_in_loop json_loads fuel self r w = Some (res, w') →
    (saves w ≤ saves w')%nat.
Proof.
  induction fuel as [|fuel IH]; intros self r w res w'; simpl;
    (destruct (bounced (history r)) as [e|[]];
     [intros [= _ <-]; lia | |]).
  - pose proof (AmazonMusic__authenticate_saves self r w) as Hs.
    destruct (AmazonMusic__authenticate self r w) as [[e|r1] w1];
      [intros [= _ <-]; exact Hs | discriminate].
  - destruct (find_appConfig json_loads (iter_lines r)) as [e|cfg];
      [intros [= _ <-]; lia|].
    destruct cfg; try (intros [= _ <-]; lia);
      (destruct (py_item _ "isRecognizedCustomer") as [e|known];
       [intros [= _ <-]; lia|]);
      (destruct (py_eq_zero known); [|intros [= _ <-]; lia]);
      match goal with
      | |- context [session_send ?q w] =>
          pose proof (session_send_saves q w) as Hs;
          destruct (session_send q w) as [[e|r1] w1]
      end; simpl in Hs; try discriminate; intros [= _ <-]; lia.
  - pose proof (AmazonMusic__authenticate_saves self r w) as Hs.
    destruct (AmazonMusic__authenticate self r w) as [[e|r1] w1];
      [intros [= _ <-]; exact Hs|].
    intros H. apply IH in H. simpl in Hs. lia.
  - destruct (find_appConfig json_loads (iter_lines r)) as [e|cfg];
      [intros [= _ <-]; lia|].
    destruct cfg; try (intros [= _ <-]; lia);
      (destruct (py_item _ "isRecognizedCustomer") as [e|known];
       [intros [= _ <-]; lia|]);
      (destruct (py_eq_zero known); [|intros [= _ <-]; lia]);
      match goal with
      | |- context [session_send ?q w] =>
          pose proof (session_send_saves q w) as Hs;
          destruct (session_send q w) as [[e|r1] w1]
      end; simpl in Hs; try (intros [= _ <-]; lia);
      intros H; apply IH in H; lia.
Qed.

Lemma populate_url self cfg s :
  populate self cfg = inr s → ∃ host, AmazonMusic.url s = "https://" +:+ host.
Proof.
  unfold populate. intros H. repeat step_ok H.
  injection H as <-. cbn [AmazonMusic.url].
  match goal with
  | Hh : rbind (py_item _ "serverInfo") _ = inr _ |- _ =>
      apply rbind_ok in Hh as (si & _ & Hh);
      apply rbind_ok in Hh as (h & _ & Hh);
      destruct h; simpl in Hh; try discriminate; injection Hh as <-
  end.
  eauto.
Qed.

Lemma session_send_clock req w :
  clock (session_send req w).2 = clock w.
Proof.
  unfold session_send. destruct (target_url req); [|reflexivity].
  destruct (transport w) as [|[cs r|cs] rest]; reflexivity.
Qed.

Lemma AmazonMusic__authenticate_clock self r w :
  clock (AmazonMusic__authenticate self r w).2 = clock w.
Proof.
  unfold AmazonMusic__authenticate, se_bind, se_lift.
  destruct (form r) as [f|]; [|reflexivity].
  destruct (history r) as [|h hs]; [reflexivity|].
  destruct (location h) as [loc|]; [|reflexivity].
  pose proof (session_send_clock (sign_in_request self f loc) w) as Hs.
  destruct (session_send (sign_in_request self f loc) w) as [[e|r'] w'];
    simpl in *; assumption.
Qed.

(** The loops read the clock where they started. *)
Lemma sign_in_loop_clock json_loads fuel :
  ∀ self r w res w',
    sign_in_loop json_loads fuel self r w = Some (res, w') →
    clock w' = clock w.
Proof.
  induction fuel as [|fuel IH]; intros self r w res w'; simpl;
    (destruct (bounced (history r)) as [e|[]];
     [intros [= _ <-]; reflexivity | |]).
  - pose proof (AmazonMusic__authenticate_clock self r w) as Hs.
    destruct (AmazonMusic__authenticate self r w) as [[e|r1] w1];
      [intros [= _ <-]; exact Hs | discriminate].
  - destruct (find_appConfig json_loads (iter_lines r)) as [e|cfg];
      [intros [= _ <-]; reflexivity|].
    destruct cfg; try (intros [= _ <-]; reflexivity);
      (destruct (py_item _ "isRecognizedCustomer") as [e|known];
       [intros [= _ <-]; reflexivity|]);
      (destruct (py_eq_zero known); [|intros [= _ <-]; reflexivity]);
      match goal with
      | |- context [session_send ?q w] =>
          pose proof (session_send_clock q w) as Hs;
          destruct (session_send q w) as [[e|r1] w1]
      end; simpl in Hs; try discriminate; intros [= _ <-]; exact Hs.
  - pose proof (AmazonMusic__authenticate_clock self r w) as Hs.
    destruct (AmazonMusic__authenticate self r w) as [[e|r1] w1];
      [intros [= _ <-]; exact Hs|].
    intros H. apply IH in H. simpl in Hs. congruence.
  - destruct (find_appConfig json_loads (iter_lines r)) as [e|cfg];
      [intros [= _ <-]; reflexivity|].
    destruct cfg; try (intros [= _ <-]; reflexivity);
      (destruct (py_item _ "isRecognizedCustomer") as [e|known];
       [intros [= _ <-]; reflexivity|]);
      (destruct (py_eq_zero known); [|intros [= _ <-]; reflexivity]);
      match goal with
      | |- context [session_send ?q w] =>
          pose proof (session_send_clock q w) as Hs;
          destruct (session_send q w) as [[e|r1] w1]
      end; simpl in Hs; try (intros [= _ <-]; exact Hs);
      intros H; apply IH in H; congruence.
Qed.

(** What [load()] lets through is a lasting cookie that has not expired;
    [save()] writes such a cookie, and [load()] reads it back. *)
Lemma read_back_lookup now f k c :
  read_back now f !! k = Some c →
  discard c = false ∧ ∃ e, expires c = Some e ∧ e ≠ 0 ∧ now < e.
Proof.
  unfold read_back. rewrite lookup_omap.
  destruct (f !! k) as [c0|]; simpl; [|discriminate].
  unfold is_expired. destruct (expires c0) as [e|] eqn:He; [|discriminate].
  destruct (discard c0) eqn:Hd; simpl; [discriminate|].
  destruct (e =? 0) eqn:Hz; simpl; [discriminate|].
  destruct (e <=? now) eqn:Hn; [discriminate|].
  intros [= <-]. split; [assumption|]. exists e. repeat split.
  - assumption.
  - apply Z.eqb_neq. assumption.
  - apply Z.leb_gt. assumption.
Qed.

Lemma written_read_back now j k c e :
  j !! k = Some c → discard c = false →
  expires c = Some e → e ≠ 0 → now < e →
  written now j !! k = Some c ∧ read_back now (written now j) !! k = Some c.
Proof.
  intros Hk Hd He Hz Hn.
  assert (Hw : written now j !! k = Some c).
  { unfold written. rewrite lookup_omap, Hk. simpl.
    unfold is_expired. rewrite Hd, He. simpl.
    apply Z.leb_gt in Hn. rewrite Hn. reflexivity. }
  split; [assumption|].
  unfold read_back. rewrite lookup_omap, Hw. simpl.
  unfold is_expired. rewrite Hd, He. simpl.
  apply Z.eqb_neq in Hz. rewrite Hz. simpl.
  apply Z.leb_gt in Hn. rewrite Hn. reflexivity.
Qed.

(** The region cookie [__init__] works with: the one [load()] found, or
    the one it makes; either way a lasting cookie, and not expired before
    2147483647. *)
Lemma target_region_cookie_lasting w c :
  c = default new_target_region_cookie
        (cookies_load w !! COOKIE_AMAZON_TARGET) →
  discard c = false ∧
  ∃ e, expires c = Some e ∧ e ≠ 0 ∧ (clock w < 2147483647 → clock w < e).
Proof.
  intros ->. unfold cookies_load.
  destruct (disk w) as [f|].
  - destruct (read_back (clock w) f !! COOKIE_AMAZON_TARGET) as [c|] eqn:Hc;
      simpl.
    + apply read_back_lookup in Hc as (Hd & e & He & Hz & Hn). eauto 10.
    + split; [reflexivity|]. exists 2147483647. repeat split; auto; lia.
  - rewrite lookup_empty. simpl.
    split; [reflexivity|]. exists 2147483647. repeat split; auto; lia.
Qed.

(** X20: the region cookie.  Whenever the constructor returns a session,
    the jar holds under the region cookie's name a cookie that is no
    session cookie and whose value is the base URL of the session; the
    cookie file was written at least twice and holds what [save()] writes
    of the jar, its cookies less the session cookies and the expired ones;
    the base URL is an https URL; and while the clock reads less than
    2147483647, the expiry of a region cookie that the constructor makes,
    the file holds the region cookie with that base URL and the next
    construction from that file starts there. *)
Theorem constructor_persists_region
    json_loads email password prime w s w' :
  AmazonMusic___init__ json_loads email password prime w = Some (inr s, w') →
  (∃ c, jar w' !! COOKIE_AMAZON_TARGET = Some c ∧
        cookie_value c = AmazonMusic.url s ∧ discard c = false) ∧
  disk w' = Some (written (clock w') (jar w')) ∧
  (saves w + 2 ≤ saves w')%nat ∧
  (∃ host, AmazonMusic.url s = "https://" +:+ host) ∧
  (clock w < 2147483647 →
   (∃ c, default ∅ (disk w') !! COOKIE_AMAZON_TARGET = Some c ∧
         cookie_value c = AmazonMusic.url s) ∧
   first_url w' = AmazonMusic.url s).
Proof.
  unfold AmazonMusic___init__. intros H.
  destruct (target_region_cookie_lasting w _ eq_refl)
    as (Hd & e & He & Hz & Hn).
  set (c0 := default new_target_region_cookie
               (cookies_load w !! COOKIE_AMAZON_TARGET)) in *.
  cbn [jar] in H. fold c0 in H.
  destruct (se_bind _ _ _) as [[e1|r] w1] eqn:Hfirst; [discriminate|].
  assert (Hs1 : saves w1 = S (saves w) ∧ clock w1 = clock w).
  { unfold se_bind in Hfirst.
    match type of Hfirst with
    | context [session_send ?q ?w0] =>
        pose proof (session_send_saves q w0) as Hs;
        pose proof (session_send_clock q w0) as Hc;
        destruct (session_send q w0) as [[e1|r0] w0']
    end; [discriminate|].
    unfold cookies_save, se_modify, se_ret in Hfirst.
    injection Hfirst as _ <-. simpl in *. split; congruence. }
  destruct Hs1 as [Hs1 Hc1].
  destruct (sign_in_loop _ _ _ _ _) as [[[e2|cfg] w2]|] eqn:Hloop;
    try discriminate.
  pose proof (sign_in_loop_saves _ _ _ _ _ _ _ Hloop) as Hs2.
  pose proof (sign_in_loop_clock _ _ _ _ _ _ _ Hloop) as Hc2.
  destruct (populate _ cfg) as [e3|s'] eqn:Hpop; [discriminate|].
  injection H as -> <-. simpl.
  set (c := set_value (AmazonMusic.url s) c0).
  assert (Hj : <[COOKIE_AMAZON_TARGET := c]> (jar w2)
               !! COOKIE_AMAZON_TARGET = Some c)
    by apply lookup_insert_eq.
  split; [|split; [|split; [|split]]].
  - exists c. repeat split; assumption.
  - reflexivity.
  - lia.
  - eapply populate_url. eassumption.
  - intros Hnow.
    destruct (written_read_back (clock w2) _ _ c e Hj Hd He Hz)
      as [Hw Hr]; [rewrite Hc2, Hc1; auto|].
    split.
    + exists c. split; [exact Hw | reflexivity].
    + unfold first_url, cookies_load. simpl. rewrite Hr. reflexivity.
Qed.

Lemma constructor_persists_region_witness :
  ∃ w',
    AmazonMusic___init__ Fixtures.sample_loads (Some "miles@example.com")
      (Some "hunter2") true Fixtures.first_run_world
    = Some (inr Fixtures.ready_session, w') ∧
    first_url w' = "https://music.amazon.com" ∧
    jar w' !! "session-id" = Some (Fixtures.session_cookie "139-0") ∧
    default ∅ (disk w') !! "session-id" = None.
Proof.
  pose (w' := default Fixtures.first_run_world
                (snd <$> AmazonMusic___init__ Fixtures.sample_loads
                           (Some "miles@example.com") (Some "hunter2") true
                           Fixtures.first_run_world)).
  assert (H : AmazonMusic___init__ Fixtures.sample_loads
                (Some "miles@example.com") (Some "hunter2") true
                Fixtures.first_run_world
              = Some (inr Fixtures.ready_session, w'))
    by (vm_compute; reflexivity).
  exists w'. split; [exact H|].
  split.
  - apply (constructor_persists_region _ _ _ _ _ _ _ H).
    vm_compute. reflexivity.
  - split; vm_compute; reflexivity.
Defined.

(** ** The sign-in form: what is submitted *)

Lemma hidden_fields_app fs1 fs2 q :
  hidden_fields (fs1 ++ fs2) q = hidden_fields fs2 (hidden_fields fs1 q).
Proof. unfold hidden_fields. apply foldl_app. Qed.

Lemma hidden_fields_other k fs :
  not_hidden_in k fs → ∀ q, hidden_fields fs q !! k = q !! k.
Proof.
  unfold not_hidden_in, hidden.
  induction 1 as [|f fs Hf _ IH]; intros q; [reflexivity|].
  change (hidden_fields (f :: fs) q)
    with (hidden_fields fs
            (match input_type f with
             | Some ty => if String.eqb ty "hidden"
                          then <[input_name f := input_value f]> q else q
             | None => q
             end)).
  rewrite IH. destruct (input_type f) as [ty|]; [|reflexivity].
  destruct (String.eqb ty "hidden") eqn:E; [|reflexivity].
  apply String.eqb_eq in E. subst ty.
  apply lookup_insert_ne. apply Hf. reflexivity.
Qed.

(** X21: what the sign-in form submits.  Every hidden input of the form
    is forwarded under its name with its value (the last one wins when a
    name is repeated); the e-mail and the password supplied are submitted
    under [email] and [password] unless a hidden input of that name
    overrides them; and nothing else is submitted: an input that is not
    hidden contributes no field. *)
Theorem sign_in_request_forwards_hidden_fields self frm referer :
  ∃ q,
    data (sign_in_request self frm referer) = FormFields q ∧
    (∀ fs1 f fs2, inputs frm = fs1 ++ f :: fs2 → hidden f →
       not_hidden_in (input_name f) fs2 →
       q !! input_name f = Some (input_value f)) ∧
    (not_hidden_in (Some "email") (inputs frm) →
     q !! Some "email" = Some (AmazonMusic._email self)) ∧
    (not_hidden_in (Some "password") (inputs frm) →
     q !! Some "password" = Some (AmazonMusic._password self)) ∧
    (∀ k, k ≠ Some "email" → k ≠ Some "password" →
          not_hidden_in k (inputs frm) → q !! k = None).
Proof.
  eexists. split; [reflexivity|]. repeat split.
  - intros fs1 f fs2 -> Hf Hlater.
    rewrite hidden_fields_app.
    change (hidden_fields (f :: fs2) ?q)
      with (hidden_fields fs2
              (match input_type f with
               | Some ty => if String.eqb ty "hidden"
                            then <[input_name f := input_value f]> q else q
               | None => q
               end)).
    rewrite (hidden_fields_other _ _ Hlater).
    unfold hidden in Hf. rewrite Hf. simpl. apply lookup_insert_eq.
  - intros H. rewrite (hidden_fields_other _ _ H).
    rewrite lookup_insert_ne by discriminate. apply lookup_singleton_eq.
  - intros H. rewrite (hidden_fields_other _ _ H). apply lookup_insert_eq.
  - intros k He Hp H. rewrite (hidden_fields_other _ _ H).
    rewrite lookup_insert_ne by congruence.
    apply lookup_singleton_ne. congruence.
Qed.

Lemma sign_in_request_forwards_hidden_fields_witness :
  ∃ q,
    data (sign_in_request
            (fresh (Some "miles@example.com") (Some "hunter2") true)
            (Fixtures.sign_in_form "t1") Fixtures.sign_in_referer)
    = FormFields q ∧
    q !! Some "appActionToken" = Some (Some "t1") ∧
    q !! Some "password" = Some (Some "hunter2").
Proof.
  destruct (sign_in_request_forwards_hidden_fields
              (fresh (Some "miles@example.com") (Some "hunter2") true)
              (Fixtures.sign_in_form "t1") Fixtures.sign_in_referer)
    as (q & Hq & Hhidden & _ & Hpw & _).
  exists q. split; [exact Hq|]. split.
  - apply (Hhidden [] {| input_type := Some "hidden";
                         input_name := Some "appActionToken";
                         input_value := Some "t1" |} _ eq_refl eq_refl).
    repeat constructor; unfold hidden; simpl; congruence.
  - apply Hpw. repeat constructor; unfold hidden; simpl; congruence.
Defined.

(** ** [search]: the result specs and the result pairs *)

(** X22: the result specs of a search.  The labels requested are, in
    the order track, album, playlist, artist, station and for each type
    that is wanted: the library label, then the catalog label unless the
    search is for the library only; a station has no library label, so a
    library-only search never asks for stations.  Each label is the type
    with its prefix and an s appended. *)
Theorem search_result_spec_labels
    (library_only tracks albums playlists artists stations : bool) :
  labels (result_specs library_only tracks albums playlists artists stations)
  = labels_for library_only "track" tracks
    ++ labels_for library_only "album" albums
    ++ labels_for library_only "playlist" playlists
    ++ labels_for library_only "artist" artists
    ++ (if stations && negb library_only
        then [JStr "catalog_stations"] else []) ∧
  length (result_specs library_only tracks albums playlists artists stations)
  = length
      (labels (result_specs library_only tracks albums playlists artists
                 stations)).
Proof.
  destruct library_only, tracks, albums, playlists, artists, stations;
    vm_compute; split; reflexivity.
Qed.

Lemma labelled_ok_iff blk pair :
  labelled blk = inr pair
  ↔ ∃ label, py_item blk "label" = inr label ∧ pair = JArr [label; blk].
Proof.
  unfold labelled. split.
  - intros H. apply rbind_ok in H as (label & Hl & [= <-]). eauto.
  - intros (label & Hl & ->). rewrite Hl. reflexivity.
Qed.

(** X23: what a search returns.  Against an answer whose [results] is a
    list of blocks, [search] returns one pair per block, in the order of
    the answer, each pair the label of the block and the block itself,
    untouched; it returns them only when every block has a label. *)
Theorem search_returns_labelled_blocks
    self query library_only tracks albums playlists artists stations
    w cs r rest b blocks :
  transport w = Responds cs r :: rest → body r = Some b →
  py_item b "results" = inr (JArr blocks) →
  ∀ pairs,
    (AmazonMusic_search self query library_only tracks albums playlists
       artists stations w).1 = inr pairs
    ↔ Forall2 (λ blk pair,
                 ∃ label, py_item blk "label" = inr label ∧
                          pair = JArr [label; blk]) blocks pairs.
Proof.
  intros Ht Hb Hres pairs. unfold AmazonMusic_search, se_bind.
  erewrite AmazonMusic_call_answered by eassumption.
  unfold response_json. rewrite Hb. unfold se_lift. cbn [fst].
  rewrite Hres. cbn [rbind py_iter]. rewrite py_map_ok_iff.
  split; intros H; (eapply List.Forall2_impl; [|exact H]);
    intros blk pair; apply labelled_ok_iff.
Qed.

Lemma search_returns_labelled_blocks_witness :
  (AmazonMusic_search Fixtures.session (JStr "kind of blue") false
     true true true true true Fixtures.search_world).1
  = inr [JArr [JStr "library_tracks"; Fixtures.library_tracks_block];
         JArr [JStr "catalog_albums"; Fixtures.catalog_albums_block]].
Proof.
  apply (search_returns_labelled_blocks Fixtures.session
           (JStr "kind of blue") false true true true true true
           Fixtures.search_world [] _ []
           (dict [("results", JArr [Fixtures.library_tracks_block;
                                    Fixtures.catalog_albums_block])])
           [Fixtures.library_tracks_block; Fixtures.catalog_albums_block]
           eq_refl eq_refl).
  - vm_compute. reflexivity.
  - repeat constructor; eexists; split; vm_compute; reflexivity.
Defined.

(** ** The configuration line and the redirect history *)

Lemma prefix_empty s : String.prefix "" s = true.
Proof. destruct s; reflexivity. Qed.

Lemma prefix_app n h t :
  String.prefix n h = true → String.prefix n (h +:+ t) = true.
Proof.
  revert h. induction n as [|c n IH]; intros h H.
  - apply prefix_empty.
  - destruct h as [|c' h]; simpl in *; [discriminate|].
    destruct (Ascii.ascii_dec c c'); [|discriminate]. apply IH. assumption.
Qed.

Lemma str_contains_app n h t :
  str_contains n h = true → str_contains n (h +:+ t) = true.
Proof.
  induction h as [|c h IH]; simpl; intros H.
  - destruct n; [|discriminate].
    destruct t; simpl; [reflexivity|]. reflexivity.
  - apply orb_true_iff in H as [H|H].
    + apply (prefix_app _ (String c h) t) in H. simpl in H.
      rewrite H. reflexivity.
    + rewrite (IH H). apply orb_true_r.
Qed.

Lemma strip_semicolon_app s : Html.strip_semicolon (s +:+ ";") = s.
Proof.
  induction s as [|c s IH]; [reflexivity|].
  simpl. destruct s as [|c' s]; simpl in *; [reflexivity|].
  rewrite IH. reflexivity.
Qed.

Lemma strip_to_brace_app pre rest :
  str_contains "{" pre = false →
  Html.strip_to_brace (pre +:+ "{" +:+ rest) = "{" +:+ rest.
Proof.
  induction pre as [|c pre IH]; simpl; intros H; [reflexivity|].
  apply orb_false_iff in H as [Hc H].
  destruct (Ascii.ascii_dec "{" c) as [<-|Hne].
  - rewrite prefix_empty in Hc. discriminate.
  - destruct (Ascii.eqb c "{") eqn:E.
    + apply Ascii.eqb_eq in E. congruence.
    + apply IH. assumption.
Qed.

Lemma append_assoc_str (a b c : string) : (a +:+ b) +:+ c = a +:+ (b +:+ c).
Proof.
  induction a as [|x a IH]; [reflexivity|].
  change (String x ((a +:+ b) +:+ c) = String x (a +:+ (b +:+ c))).
  rewrite IH. reflexivity.
Qed.

(** X24: how the configuration is cut out of the page.  The first line
    that contains the marker is the one that counts, whatever follows it;
    when that line is a prefix without an opening brace (which holds the
    marker), a literal that starts with a brace and a final semicolon,
    exactly the literal is handed to [json.loads]: the prefix and the
    semicolon are gone, and what [json.loads] returns or raises is the
    outcome of the scan. *)
Theorem appConfig_literal_is_cut_out
    json_loads lines1 pre literal lines2 :
  Forall (λ line, str_contains appConfig_marker line = false) lines1 →
  str_contains appConfig_marker pre = true →
  str_contains "{" pre = false →
  find_appConfig json_loads
    (lines1 ++ (pre +:+ "{" +:+ literal +:+ ";") :: lines2)
  = json_loads ("{" +:+ literal).
Proof.
  intros Hbefore Hmarker Hbrace.
  induction Hbefore as [|line lines1 Hl _ IH]; simpl.
  - rewrite (str_contains_app _ _ _ Hmarker).
    replace (pre +:+ "{" +:+ literal +:+ ";")
      with ((pre +:+ "{" +:+ literal) +:+ ";")
      by (rewrite !append_assoc_str; reflexivity).
    rewrite strip_semicolon_app, (strip_to_brace_app _ _ Hbrace).
    reflexivity.
  - rewrite Hl. exact IH.
Qed.

Lemma appConfig_literal_is_cut_out_witness :
  find_appConfig Fixtures.sample_loads (iter_lines Fixtures.config_response)
  = inr Fixtures.appConfig.
Proof.
  change (iter_lines Fixtures.config_response)
    with (["<html>"; "<script>"]
          ++ ("  amznMusic.appConfig = " +:+ "{"
              +:+ "deviceId: 13581723486, realm: USAmazon}" +:+ ";")
          :: ["</script>"; "</html>"]).
  rewrite (appConfig_literal_is_cut_out Fixtures.sample_loads).
  - reflexivity.
  - repeat constructor.
  - reflexivity.
  - reflexivity.
Defined.

(** X25: when the sign-in is triggered.  The history of a response
    counts as bounced exactly when one of its redirects has status 302 and
    a Location that contains the sign-in path, and every 302 redirect
    before it has a Location (one that does not contain the path); a 302
    redirect without Location that comes first makes the test raise
    [KeyError] instead.  A response without history is never bounced. *)
Theorem bounced_iff_sign_in_redirect (hs : list redirect) :
  (bounced hs = inr true ↔
   ∃ hs1 h loc hs2,
     hs = hs1 ++ h :: hs2 ∧
     status_code h = 302 ∧ location h = Some loc ∧
     str_contains AMAZON_SIGN_IN_PATH loc = true ∧
     Forall (λ g, status_code g = 302 →
                  ∃ l, location g = Some l ∧
                       str_contains AMAZON_SIGN_IN_PATH l = false) hs1) ∧
  bounced [] = inr false.
Proof.
  split; [|reflexivity]. split.
  - induction hs as [|g hs IH]; simpl; [discriminate|].
    destruct (status_code g =? 302) eqn:Es.
    + apply Z.eqb_eq in Es.
      destruct (location g) as [l|] eqn:El; [|discriminate].
      destruct (str_contains AMAZON_SIGN_IN_PATH l) eqn:Ec.
      * intros _. exists [], g, l, hs. repeat split; auto.
      * intros H. destruct (IH H) as (hs1 & h & loc & hs2 & -> & H1 & H2
                                       & H3 & H4).
        exists (g :: hs1), h, loc, hs2. repeat split; auto.
        constructor; [|assumption]. intros _. eauto.
    + apply Z.eqb_neq in Es.
      intros H. destruct (IH H) as (hs1 & h & loc & hs2 & -> & H1 & H2
                                     & H3 & H4).
      exists (g :: hs1), h, loc, hs2. repeat split; auto.
      constructor; [|assumption]. intros Hs. contradiction.
  - intros (hs1 & h & loc & hs2 & -> & Hs & Hl & Hc & Hbefore).
    induction Hbefore as [|g hs1 Hg _ IH]; simpl.
    + apply Z.eqb_eq in Hs. rewrite Hs, Hl, Hc. reflexivity.
    + destruct (status_code g =? 302) eqn:Es; [|exact IH].
      apply Z.eqb_eq in Es. destruct (Hg Es) as (l & -> & ->). exact IH.
Qed.

Lemma bounced_iff_sign_in_redirect_witness :
  bounced (history (Fixtures.sign_in_response "t1")) = inr true.
Proof.
  apply (proj1 (bounced_iff_sign_in_redirect
                  (history (Fixtures.sign_in_response "t1")))).
  exists [], {| status_code := 302;
                location := Some Fixtures.sign_in_referer |},
    Fixtures.sign_in_referer, [].
  repeat split; try reflexivity. constructor.
Defined.
